(** * linkedin-machine: a Slack bot that prompts, records and generates LinkedIn posts

    A shallow embedding of [app.js] (the image-generating variant of the
    script, with the custom generation of the variant without images and
    the start of the process) and the proofs of its specified behaviour
    and of what else the code shows.

    Conventions of the embedding.
    - JavaScript strings are [string]s: sequences of bytes, UTF-8 for text
      outside ASCII.  White space is recognised in its UTF-8 form.
      [toLowerCase] maps the letters A to Z and leaves every other byte; the
      words the script looks for are ASCII and no letter outside ASCII
      lowers to a run of theirs.  [substring] counts the code units of
      UTF-16, as JavaScript does: one for a character of one to three bytes,
      two for a character of four.
    - A JavaScript value that can reach or leave a log file is a [value];
      numbers are kept by their JSON literal and the platform's numeric
      conversions are the fields of [Platform].
    - [async] functions are computations of the monad [M] over a [World]
      (the files, the console, the calls made to Slack and OpenAI, the
      readings taken of the clock); a rejected promise or a thrown error is
      the outcome [Throws].  What Slack, OpenAI and the file system answer
      is given by an [Env]. *)

From Stdlib Require Import String Ascii NArith QArith.
From stdpp Require Import gmap strings list.

Local Open Scope N_scope.
Local Open Scope nat_scope.

(** [simpl] unfolds an append whose left operand starts with a character. *)
Global Arguments String.append !_ _ / : simpl nomatch.

(** ** Text *)

Module Text.

Definition DQ : ascii := ascii_of_nat 34.
Definition BSL : ascii := ascii_of_nat 92.
Definition LF : ascii := ascii_of_nat 10.
Definition dq : string := String DQ "".
Definition nl : string := String LF "".

Definition code (c : ascii) : N := N_of_ascii c.

(** [String.prototype.toLowerCase] on the letters A to Z. *)
Definition lower_ascii (c : ascii) : ascii :=
  if ((65 <=? code c) && (code c <=? 90))%N then ascii_of_N (code c + 32) else c.

Fixpoint toLowerCase (s : string) : string :=
  match s with
  | "" => ""
  | String c r => String (lower_ascii c) (toLowerCase r)
  end.

Fixpoint starts_with (p s : string) : bool :=
  match p, s with
  | "", _ => true
  | String a p', String b s' => Ascii.eqb a b && starts_with p' s'
  | String _ _, "" => false
  end.

(** [String.prototype.includes]. *)
Fixpoint includes (s needle : string) : bool :=
  starts_with needle s ||
  match s with
  | "" => false
  | String _ r => includes r needle
  end.

(** White space and line terminators, as [trim] and the class [\s] see
    them: the number of bytes of the one at the head of [s], [0] when [s]
    starts with another character.  Beyond ASCII these are U+00A0,
    U+1680, U+2000 to U+200A, U+2028, U+2029, U+202F, U+205F, U+3000 and
    U+FEFF, here in UTF-8. *)
Definition space_width (s : string) : nat :=
  match s with
  | "" => 0
  | String a r =>
      let x := code a in
      if ((9 <=? x) && (x <=? 13) || (x =? 32))%N then 1
      else
        match r with
        | String b (String c _) =>
            let y := code b in
            let z := code c in
            if ((x =? 194) && (y =? 160))%N then 2
            else if ((x =? 225) && (y =? 154) && (z =? 128))%N then 3
            else if ((x =? 226) && (y =? 128)
                     && ((128 <=? z) && (z <=? 138) || (z =? 168) || (z =? 169)
                         || (z =? 175)))%N then 3
            else if ((x =? 226) && (y =? 129) && (z =? 159))%N then 3
            else if ((x =? 227) && (y =? 128) && (z =? 128))%N then 3
            else if ((x =? 239) && (y =? 187) && (z =? 191))%N then 3
            else 0
        | String b "" => if ((x =? 194) && (code b =? 160))%N then 2 else 0
        | "" => 0
        end
  end.

(** [skip] counts the bytes still to pass of the character being read. *)
Fixpoint trimStart_from (skip : nat) (s : string) : string :=
  match s with
  | "" => ""
  | String _ r =>
      match skip with
      | S k => trimStart_from k r
      | 0 =>
          match space_width s with
          | 0 => s
          | S k => trimStart_from k r
          end
      end
  end.

Definition trimStart (s : string) : string := trimStart_from 0 s.

Fixpoint all_space_from (skip : nat) (s : string) : bool :=
  match s with
  | "" => true
  | String _ r =>
      match skip with
      | S k => all_space_from k r
      | 0 =>
          match space_width s with
          | 0 => false
          | S k => all_space_from k r
          end
      end
  end.

Fixpoint trimEnd (s : string) : string :=
  match s with
  | "" => ""
  | String c r => if all_space_from 0 s then "" else String c (trimEnd r)
  end.

(** [String.prototype.trim]. *)
Definition trim (s : string) : string := trimEnd (trimStart s).

(** The longest prefix without white space, and what follows it: the
    greedy [[^\s]*]. *)
Fixpoint span_nonspace (s : string) : string * string :=
  match s with
  | "" => ("", "")
  | String c r =>
      match space_width s with
      | 0 => let (t, rest) := span_nonspace r in (String c t, rest)
      | _ => ("", s)
      end
  end.

Fixpoint strip_prefix (p s : string) : option string :=
  match p, s with
  | "", _ => Some s
  | String a p', String b s' => if Ascii.eqb a b then strip_prefix p' s' else None
  | String _ _, "" => None
  end.

(** The bytes that follow the first byte [c] of a character in UTF-8; a
    byte that starts no character stands for itself. *)
Definition tail_bytes (c : ascii) : nat :=
  let x := code c in
  if (x <? 192)%N then 0
  else if (x <? 224)%N then 1
  else if (x <? 240)%N then 2
  else if (x <? 248)%N then 3
  else 0.

(** A character of four bytes lies beyond the basic plane: a JavaScript
    string holds it as two code units, a high and a low surrogate. *)
Definition astral (c : ascii) : bool := Nat.eqb (tail_bytes c) 3.

Definition byte_at (i : nat) (s : string) : N :=
  match String.get i s with
  | Some c => code c
  | None => 0%N
  end.

(** The high surrogate of the character of four bytes at the head of [s],
    as three bytes: the form in which a text holds a surrogate that stands
    alone. *)
Definition high_half (s : string) : string :=
  let cp := ((byte_at 0 s mod 8) * 262144 + (byte_at 1 s mod 64) * 4096
             + (byte_at 2 s mod 64) * 64 + byte_at 3 s mod 64)%N in
  let u := (55296 + (cp - 65536) / 1024)%N in
  String (ascii_of_N 237)
    (String (ascii_of_N (128 + (u / 64) mod 64))
       (String (ascii_of_N (128 + u mod 64)) "")).

(** [s.substring(0, n)]: the first [n] code units of [s].  [skip] counts
    the bytes still to pass of the character being read; a cut between
    the two code units of a character leaves its high surrogate. *)
Fixpoint substring0_from (skip n : nat) (s : string) : string :=
  match s with
  | "" => ""
  | String c r =>
      match skip with
      | S k => String c (substring0_from k n r)
      | 0 =>
          match n with
          | 0 => ""
          | S n' =>
              if astral c then
                match n' with
                | 0 => high_half s
                | S n'' => String c (substring0_from (tail_bytes c) n'' r)
                end
              else String c (substring0_from (tail_bytes c) n' r)
          end
      end
  end.

Definition substring0 (n : nat) (s : string) : string := substring0_from 0 n s.

(** [s.length]: the number of code units of [s]. *)
Fixpoint units_from (skip : nat) (s : string) : nat :=
  match s with
  | "" => 0
  | String c r =>
      match skip with
      | S k => units_from k r
      | 0 => (if astral c then 2 else 1) + units_from (tail_bytes c) r
      end
  end.

Definition units (s : string) : nat := units_from 0 s.

(** [a.slice(-n)] on an array. *)
Definition slice_last {A} (n : nat) (l : list A) : list A :=
  drop (length l - n) l.

End Text.
Import Text.

(** ** JavaScript values *)

(** The conversions of numbers that the script can trigger on a value read
    from a log file.  A number is represented by the JSON literal it was
    read from. *)
Class Platform := {
  (** [String(n)] *)
  Number_toString : string → string;
  (** [Number.isFinite(n)]: a literal such as [1e999] reads as [Infinity] *)
  Number_isFinite : string → bool;
  (** the sign of [n]: [Eq] for zero *)
  Number_sign : string → comparison;
  (** the sign of [Number(s)] for a string [s]; [None] when it is [NaN] *)
  String_toNumber_sign : string → option comparison
}.

Unset Elimination Schemes.
Inductive value : Type :=
| VUndef
| VNull
| VBool (b : bool)
| VNum (lit : string)
| VStr (s : string)
| VArr (elems : list value)
| VObj (props : list (string * value)).
Set Elimination Schemes.

Definition of_option (o : option string) : value :=
  match o with Some s => VStr s | None => VUndef end.

Section value_induction.
Variable P : value → Prop.
Hypothesis Hundef : P VUndef.
Hypothesis Hnull : P VNull.
Hypothesis Hbool : ∀ b, P (VBool b).
Hypothesis Hnum : ∀ lit, P (VNum lit).
Hypothesis Hstr : ∀ s, P (VStr s).
Hypothesis Harr : ∀ elems, Forall P elems → P (VArr elems).
Hypothesis Hobj : ∀ props, Forall (λ kv, P kv.2) props → P (VObj props).

Fixpoint value_nested_ind (v : value) : P v :=
  match v with
  | VUndef => Hundef
  | VNull => Hnull
  | VBool b => Hbool b
  | VNum lit => Hnum lit
  | VStr s => Hstr s
  | VArr elems =>
      Harr elems
        ((fix go l : Forall P l :=
            match l with
            | [] => Forall_nil_2 P
            | x :: r => Forall_cons_2 P x r (value_nested_ind x) (go r)
            end) elems)
  | VObj props =>
      Hobj props
        ((fix go l : Forall (λ kv, P kv.2) l :=
            match l with
            | [] => Forall_nil_2 _
            | kv :: r => Forall_cons_2 _ kv r (value_nested_ind kv.2) (go r)
            end) props)
  end.
End value_induction.

(** ** JSON *)

Module JSON.
Section json.
Context `{Platform}.

(** *** [JSON.stringify(value, null, 2)] *)

Definition gap : string := "  ".

Definition hex_digit (n : N) : ascii :=
  if (n <? 10)%N then ascii_of_N (48 + n) else ascii_of_N (87 + n).

(** One character of [QuoteJSONString]. *)
Definition escape (c : ascii) : string :=
  let n := code c in
  if (n =? 8)%N then String BSL "b"
  else if (n =? 9)%N then String BSL "t"
  else if (n =? 10)%N then String BSL "n"
  else if (n =? 12)%N then String BSL "f"
  else if (n =? 13)%N then String BSL "r"
  else if (n =? 34)%N then String BSL dq
  else if (n =? 92)%N then String BSL (String BSL "")
  else if (n <? 32)%N then
    String BSL (String "u" (String "0" (String "0"
      (String (hex_digit (n / 16)) (String (hex_digit (n mod 16)) "")))))
  else String c "".

Fixpoint quote_chars (s : string) : string :=
  match s with
  | "" => ""
  | String c r => escape c +:+ quote_chars r
  end.

Definition QuoteJSONString (s : string) : string :=
  dq +:+ quote_chars s +:+ dq.

(** The text of an array or object: the parts, if there are any, on lines
    of their own at [inner] and the closing bracket back at [indent]. *)
Definition wrap (open close indent inner : string) (partial : list string) : string :=
  match partial with
  | [] => open +:+ close
  | _ =>
      open +:+ nl +:+ inner +:+ String.concat ("," +:+ nl +:+ inner) partial
      +:+ nl +:+ indent +:+ close
  end.

(** [SerializeJSONProperty]: [None] is JavaScript's [undefined]. *)
Fixpoint SerializeJSONProperty (indent : string) (v : value) : option string :=
  match v with
  | VUndef => None
  | VNull => Some "null"
  | VBool true => Some "true"
  | VBool false => Some "false"
  | VNum lit => Some (if Number_isFinite lit then Number_toString lit else "null")
  | VStr s => Some (QuoteJSONString s)
  | VArr elems =>
      let inner := indent +:+ gap in
      let fix items (l : list value) : list string :=
        match l with
        | [] => []
        | x :: r => default "null" (SerializeJSONProperty inner x) :: items r
        end in
      Some (wrap "[" "]" indent inner (items elems))
  | VObj props =>
      let inner := indent +:+ gap in
      let fix members (l : list (string * value)) : list string :=
        match l with
        | [] => []
        | (k, x) :: r =>
            match SerializeJSONProperty inner x with
            | Some txt => (QuoteJSONString k +:+ ": " +:+ txt) :: members r
            | None => members r
            end
        end in
      Some (wrap "{" "}" indent inner (members props))
  end.

Definition stringify (v : value) : option string := SerializeJSONProperty "" v.

(** The parts of an array and of an object, as the two local loops of
    [SerializeJSONProperty] compute them. *)
Definition ser_items (inner : string) (l : list value) : list string :=
  map (λ x, default "null" (SerializeJSONProperty inner x)) l.

Definition ser_members (inner : string) (l : list (string * value)) : list string :=
  omap (λ kv, (λ txt, QuoteJSONString kv.1 +:+ ": " +:+ txt)
                <$> SerializeJSONProperty inner kv.2) l.

(** *** [JSON.parse] *)

Definition is_ws (c : ascii) : bool :=
  let n := code c in ((n =? 32) || (n =? 9) || (n =? 10) || (n =? 13))%N.

Fixpoint skip_ws (s : string) : string :=
  match s with
  | "" => ""
  | String c r => if is_ws c then skip_ws r else s
  end.

Definition is_digit (c : ascii) : bool := ((48 <=? code c) && (code c <=? 57))%N.

Definition hex_value (c : ascii) : option N :=
  let n := code c in
  if ((48 <=? n) && (n <=? 57))%N then Some (n - 48)%N
  else if ((97 <=? n) && (n <=? 102))%N then Some (n - 87)%N
  else if ((65 <=? n) && (n <=? 70))%N then Some (n - 55)%N
  else None.

Definition hex4 (a b c d : ascii) : option N :=
  match hex_value a, hex_value b, hex_value c, hex_value d with
  | Some x, Some y, Some z, Some w => Some (((x * 16 + y) * 16 + z) * 16 + w)%N
  | _, _, _, _ => None
  end.

(** What a string literal denotes, read left to right: a byte of the text
    itself or the UTF-16 code unit of a [\u] escape. *)
Definition item : Type := ascii + N.

Definition unescape (e : ascii) : option ascii :=
  let n := code e in
  if (n =? 34)%N then Some DQ
  else if (n =? 92)%N then Some BSL
  else if (n =? 47)%N then Some "/"%char
  else if (n =? 98)%N then Some (ascii_of_nat 8)
  else if (n =? 102)%N then Some (ascii_of_nat 12)
  else if (n =? 110)%N then Some (ascii_of_nat 10)
  else if (n =? 114)%N then Some (ascii_of_nat 13)
  else if (n =? 116)%N then Some (ascii_of_nat 9)
  else None.

(** The characters of a string literal after its opening quote, up to and
    including the closing quote. *)
Fixpoint parse_items (s : string) : option (list item * string) :=
  match s with
  | "" => None
  | String c r =>
      if (code c =? 34)%N then Some ([], r)
      else if (code c =? 92)%N then
        match r with
        | "" => None
        | String e r1 =>
            match unescape e with
            | Some d =>
                match parse_items r1 with
                | Some (l, rest) => Some (inl d :: l, rest)
                | None => None
                end
            | None =>
                if (code e =? 117)%N then
                  match r1 with
                  | String h1 (String h2 (String h3 (String h4 r2))) =>
                      match hex4 h1 h2 h3 h4, parse_items r2 with
                      | Some u, Some (l, rest) => Some (inr u :: l, rest)
                      | _, _ => None
                      end
                  | _ => None
                  end
                else None
            end
        end
      else if (code c <? 32)%N then None
      else
        match parse_items r with
        | Some (l, rest) => Some (inl c :: l, rest)
        | None => None
        end
  end.

(** What the reader makes of [escape c]. *)
Definition item_of (c : ascii) : item :=
  match parse_items (escape c +:+ dq) with
  | Some ([i], _) => i
  | _ => inl c
  end.

(** UTF-8 of a code point. *)
Definition utf8 (cp : N) : string :=
  if (cp <? 128)%N then String (ascii_of_N cp) ""
  else if (cp <? 2048)%N then
    String (ascii_of_N (192 + cp / 64)) (String (ascii_of_N (128 + cp mod 64)) "")
  else if (cp <? 65536)%N then
    String (ascii_of_N (224 + cp / 4096))
      (String (ascii_of_N (128 + (cp / 64) mod 64))
         (String (ascii_of_N (128 + cp mod 64)) ""))
  else
    String (ascii_of_N (240 + cp / 262144))
      (String (ascii_of_N (128 + (cp / 4096) mod 64))
         (String (ascii_of_N (128 + (cp / 64) mod 64))
            (String (ascii_of_N (128 + cp mod 64)) ""))).

Definition is_high (u : N) : bool := ((55296 <=? u) && (u <=? 56319))%N.
Definition is_low (u : N) : bool := ((56320 <=? u) && (u <=? 57343))%N.

(** The text of a literal: a high and a low surrogate side by side make
    one code point. *)
Fixpoint text_of_items (l : list item) : string :=
  match l with
  | [] => ""
  | inl c :: r => String c (text_of_items r)
  | inr u :: r =>
      match r with
      | inr u' :: r' =>
          if is_high u && is_low u'
          then utf8 (65536 + (u - 55296) * 1024 + (u' - 56320)) +:+ text_of_items r'
          else utf8 u +:+ text_of_items r
      | _ => utf8 u +:+ text_of_items r
      end
  end.

Definition parse_string (s : string) : option (string * string) :=
  match parse_items s with
  | Some (l, rest) => Some (text_of_items l, rest)
  | None => None
  end.

(** The longest run of digits at the head of [s]. *)
Fixpoint span_digits (s : string) : string * string :=
  match s with
  | "" => ("", "")
  | String c r =>
      if is_digit c then let (ds, rest) := span_digits r in (String c ds, rest)
      else ("", s)
  end.

(** A number literal: an optional minus sign, an integer part without
    leading zeros, an optional fraction, an optional exponent. *)
Definition lex_int (s : string) : option (string * string) :=
  match s with
  | "" => None
  | String c r =>
      if (code c =? 48)%N then Some ("0", r)
      else if is_digit c then let (ds, rest) := span_digits r in Some (String c ds, rest)
      else None
  end.

Definition lex_frac (s : string) : option (string * string) :=
  match s with
  | String "." r =>
      match span_digits r with
      | ("", _) => None
      | (ds, rest) => Some (String "." ds, rest)
      end
  | _ => Some ("", s)
  end.

Definition lex_exp (s : string) : option (string * string) :=
  match s with
  | String c r =>
      if ((code c =? 101) || (code c =? 69))%N then
        let (sign, r1) :=
          match r with
          | String g r' =>
              if ((code g =? 43) || (code g =? 45))%N then (String g "", r') else ("", r)
          | "" => ("", r)
          end in
        match span_digits r1 with
        | ("", _) => None
        | (ds, rest) => Some (String c (sign +:+ ds), rest)
        end
      else Some ("", s)
  | "" => Some ("", s)
  end.

Definition lex_number (s : string) : option (string * string) :=
  let (minus, s0) :=
    match s with
    | String "-" r => ("-", r)
    | _ => ("", s)
    end in
  match lex_int s0 with
  | None => None
  | Some (i, s1) =>
      match lex_frac s1 with
      | None => None
      | Some (f, s2) =>
          match lex_exp s2 with
          | None => None
          | Some (e, s3) => Some (minus +:+ i +:+ f +:+ e, s3)
          end
      end
  end.

(** An array index as a property key: the canonical decimal text of an
    integer below 2^32 - 1.  Such keys are enumerated first, in ascending
    order; the other keys follow in the order of their creation. *)
Fixpoint digits_value (acc : N) (s : string) : option N :=
  match s with
  | "" => Some acc
  | String c r => if is_digit c then digits_value (acc * 10 + (code c - 48))%N r else None
  end.

Definition array_index (k : string) : option N :=
  match k with
  | "" => None
  | String c r =>
      if (code c =? 48)%N then (if String.eqb r "" then Some 0%N else None)
      else if (String.length k <=? 10) then
        match digits_value 0 k with
        | Some n => if (n <? 4294967295)%N then Some n else None
        | None => None
        end
      else None
  end.

Fixpoint has_key (k : string) (props : list (string * value)) : bool :=
  match props with
  | [] => false
  | (k', _) :: r => String.eqb k k' || has_key k r
  end.

Fixpoint replace_prop (k : string) (v : value) (props : list (string * value)) :=
  match props with
  | [] => []
  | (k', v') :: r =>
      if String.eqb k k' then (k', v) :: r else (k', v') :: replace_prop k v r
  end.

Fixpoint insert_index (i : N) (k : string) (v : value) (props : list (string * value)) :=
  match props with
  | [] => [(k, v)]
  | (k', v') :: r =>
      match array_index k' with
      | Some j => if (j <? i)%N then (k', v') :: insert_index i k v r
                  else (k, v) :: props
      | None => (k, v) :: props
      end
  end.

(** [CreateDataProperty] on an ordinary object. *)
Definition define_prop (props : list (string * value)) (kv : string * value) :=
  let (k, v) := kv in
  if has_key k props then replace_prop k v props
  else match array_index k with
       | Some i => insert_index i k v props
       | None => props ++ [(k, v)]
       end.

Definition object_of (members : list (string * value)) : value :=
  VObj (foldl define_prop [] members).

(** The first character after white space. *)
Definition token (s : string) : option (ascii * string) :=
  match skip_ws s with
  | "" => None
  | String c r => Some (c, r)
  end.

Definition parse_literal (s : string) : option (value * string) :=
  match strip_prefix "true" s with
  | Some r => Some (VBool true, r)
  | None =>
      match strip_prefix "false" s with
      | Some r => Some (VBool false, r)
      | None =>
          match strip_prefix "null" s with
          | Some r => Some (VNull, r)
          | None =>
              match lex_number s with
              | Some (lit, r) => Some (VNum lit, r)
              | None => None
              end
          end
      end
  end.

(** A recursive-descent reader.  [fuel] bounds the depth of the calls; a
    reading takes no more of it than the characters it passes, so [parse]
    gives enough for every text ([JSONFacts.parse_fuel_enough]). *)
Fixpoint parse_value (fuel : nat) (s : string) : option (value * string) :=
  match fuel with
  | 0 => None
  | S fuel' =>
      '(c, r) ← token s;
      if (code c =? 91)%N then
        '(c', r') ← token r;
        if (code c' =? 93)%N then Some (VArr [], r')
        else '(vs, rest) ← parse_elements fuel' r; Some (VArr vs, rest)
      else if (code c =? 123)%N then
        '(c', r') ← token r;
        if (code c' =? 125)%N then Some (VObj [], r')
        else '(ms, rest) ← parse_members fuel' r; Some (object_of ms, rest)
      else if (code c =? 34)%N then
        '(str, rest) ← parse_string r; Some (VStr str, rest)
      else parse_literal (String c r)
  end
with parse_elements (fuel : nat) (s : string) : option (list value * string) :=
  match fuel with
  | 0 => None
  | S fuel' =>
      '(v, r) ← parse_value fuel' s;
      '(c, r') ← token r;
      if (code c =? 44)%N then
        '(vs, rest) ← parse_elements fuel' r'; Some (v :: vs, rest)
      else if (code c =? 93)%N then Some ([v], r')
      else None
  end
with parse_members (fuel : nat) (s : string) : option (list (string * value) * string) :=
  match fuel with
  | 0 => None
  | S fuel' =>
      '(q, r) ← token s;
      if (code q =? 34)%N then
        '(k, r1) ← parse_string r;
        '(colon, r2) ← token r1;
        if (code colon =? 58)%N then
          '(v, r3) ← parse_value fuel' r2;
          '(c, r4) ← token r3;
          if (code c =? 44)%N then
            '(ms, rest) ← parse_members fuel' r4; Some ((k, v) :: ms, rest)
          else if (code c =? 125)%N then Some ([(k, v)], r4)
          else None
        else None
      else None
  end.

(** [JSON.parse]: [None] is the [SyntaxError]. *)
Definition parse (s : string) : option value :=
  '(v, rest) ← parse_value (S (String.length s)) s;
  match skip_ws rest with
  | "" => Some v
  | _ => None
  end.

(** *** What a log file keeps of a value *)

(** The value read back from the text of [v]: a property whose value is
    [undefined] is not written, an [undefined] array element is written as
    [null]. *)
Fixpoint stored (v : value) : value :=
  match v with
  | VArr elems =>
      let fix go (l : list value) : list value :=
        match l with
        | [] => []
        | VUndef :: r => VNull :: go r
        | x :: r => stored x :: go r
        end in
      VArr (go elems)
  | VObj props =>
      let fix go (l : list (string * value)) : list (string * value) :=
        match l with
        | [] => []
        | (_, VUndef) :: r => go r
        | (k, x) :: r => (k, stored x) :: go r
        end in
      VObj (go props)
  | _ => v
  end.

Definition stored_elem (x : value) : value :=
  match x with
  | VUndef => VNull
  | _ => stored x
  end.

Definition stored_prop (kv : string * value) : option (string * value) :=
  match kv.2 with
  | VUndef => None
  | x => Some (kv.1, stored x)
  end.

(** Fuel that reading the text of [v] back takes. *)
Fixpoint weight (v : value) : nat :=
  match v with
  | VUndef => 0
  | VArr elems =>
      let fix go (l : list value) : nat :=
        match l with
        | [] => 0
        | x :: r => 2 + weight x + go r
        end in
      S (go elems)
  | VObj props =>
      let fix go (l : list (string * value)) : nat :=
        match l with
        | [] => 0
        | (_, VUndef) :: r => go r
        | (_, x) :: r => 1 + weight x + go r
        end in
      S (go props)
  | _ => 1
  end.

Fixpoint blank (s : string) : bool :=
  match s with
  | "" => true
  | String c r => is_ws c && blank r
  end.

Definition plain_key (k : string) : bool :=
  match array_index k with
  | None => true
  | Some _ => false
  end.

(** The values the script builds for its logs: strings, [null], booleans,
    absent fields, arrays and objects of them, the keys of an object
    distinct and none an array index. *)
Fixpoint storable (v : value) : bool :=
  match v with
  | VNum _ => false
  | VArr elems => forallb storable elems
  | VObj props =>
      forallb (λ kv, plain_key kv.1 && storable kv.2) props
      && bool_decide (NoDup props.*1)
  | _ => true
  end.

Fixpoint defined (v : value) : bool :=
  match v with
  | VUndef => false
  | VArr elems => forallb defined elems
  | VObj props => forallb (λ kv, defined kv.2) props
  | _ => true
  end.

(** A storable value without [undefined]: the text of it denotes it. *)
Definition json_value (v : value) : bool := storable v && defined v.

End json.
End JSON.

(** ** What the script does with a value *)

Inductive error : Type :=
| TypeError
| SyntaxError
| Rejected (reason : string).

Inductive outcome (A : Type) : Type :=
| Returns (a : A)
| Throws (e : error).
Arguments Returns {A} a.
Arguments Throws {A} e.

#[export] Instance outcome_ret : MRet outcome := @Returns.
#[export] Instance outcome_bind : MBind outcome := λ A B f m,
  match m with
  | Returns a => f a
  | Throws e => Throws e
  end.

Module JS.
Section js.
Context `{Platform}.

Fixpoint lookup_prop (k : string) (props : list (string * value)) : value :=
  match props with
  | [] => VUndef
  | (k', v) :: r => if String.eqb k k' then v else lookup_prop k r
  end.

(** [v.k], for a key that is not an array index, not [length] and not
    the name of a method. *)
Definition get (v : value) (k : string) : outcome value :=
  match v with
  | VUndef | VNull => Throws TypeError
  | VObj props => Returns (lookup_prop k props)
  | _ => Returns VUndef
  end.

(** The text a template literal makes of a value.  An object answers with
    the [toString] of objects, unless a property of its own has that name:
    what a log file holds there is no function, and the conversion
    raises.  An array joins the texts of its elements. *)
Fixpoint ToString (v : value) : outcome string :=
  match v with
  | VUndef => Returns "undefined"
  | VNull => Returns "null"
  | VBool true => Returns "true"
  | VBool false => Returns "false"
  | VNum lit => Returns (Number_toString lit)
  | VStr s => Returns s
  | VArr elems =>
      let fix go (l : list value) : outcome (list string) :=
        match l with
        | [] => Returns []
        | VUndef :: r | VNull :: r =>
            texts ← go r;
            Returns ("" :: texts)
        | x :: r =>
            text ← ToString x;
            texts ← go r;
            Returns (text :: texts)
        end in
      texts ← go elems;
      Returns (String.concat "," texts)
  | VObj props =>
      if JSON.has_key "toString" props then Throws TypeError
      else Returns "[object Object]"
  end.

(** The condition of an [if]. *)
Definition ToBoolean (v : value) : bool :=
  match v with
  | VUndef | VNull => false
  | VBool b => b
  | VNum lit => match Number_sign lit with Eq => false | _ => true end
  | VStr s => negb (String.eqb s "")
  | VArr _ | VObj _ => true
  end.

(** [v > 0]; an array or an object is compared by its text. *)
Definition gt_zero (v : value) : outcome bool :=
  match v with
  | VUndef | VNull => Returns false
  | VBool b => Returns b
  | VNum lit => Returns match Number_sign lit with Gt => true | _ => false end
  | VStr s => Returns match String_toNumber_sign s with Some Gt => true | _ => false end
  | VArr _ | VObj _ =>
      text ← ToString v;
      Returns match String_toNumber_sign text with Some Gt => true | _ => false end
  end.

(** [v.length > 0]. *)
Definition length_gt_zero (v : value) : outcome bool :=
  match v with
  | VUndef | VNull => Throws TypeError
  | VBool _ | VNum _ => Returns false
  | VStr s => Returns (negb (String.eqb s ""))
  | VArr elems => Returns (match elems with [] => false | _ => true end)
  | VObj props => gt_zero (lookup_prop "length" props)
  end.

(** [v.slice(-n)]: arrays and strings have the method.  Of a string the
    script only asks [forEach], which a string has not: its tail is taken
    by bytes. *)
Definition slice_neg (n : nat) (v : value) : outcome value :=
  match v with
  | VArr elems => Returns (VArr (slice_last n elems))
  | VStr s =>
      Returns (VStr (string_of_list_ascii (slice_last n (list_ascii_of_string s))))
  | _ => Throws TypeError
  end.

(** [v.substring(0, n)]: strings have the method. *)
Definition substring_to (n : nat) (v : value) : outcome string :=
  match v with
  | VStr s => Returns (substring0 n s)
  | _ => Throws TypeError
  end.

(** Reading a property of [v], such as the method of a call that follows:
    [null] and [undefined] have none. *)
Definition member (v : value) : outcome () :=
  match v with
  | VUndef | VNull => Throws TypeError
  | _ => Returns ()
  end.

(** [v.push(x)]; the array is updated in place, the result is the array
    after the call. *)
Definition push (v x : value) : outcome value :=
  match v with
  | VArr elems => Returns (VArr (elems ++ [x]))
  | _ => Throws TypeError
  end.

(** [v.forEach(f)] where [f] updates a captured variable of type [S]. *)
Fixpoint each {A S : Type} (f : A → S → outcome S) (l : list A) (s : S) : outcome S :=
  match l with
  | [] => Returns s
  | x :: r => s' ← f x s; each f r s'
  end.

Definition forEach {S : Type} (v : value) (f : value → S → outcome S) (s : S) : outcome S :=
  match v with
  | VArr elems => each f elems s
  | _ => Throws TypeError
  end.

End js.
End JS.

(** ** The world of the script *)

(** Layout blocks of a posted message. *)
Inductive block : Type :=
| SectionBlock (mrkdwn : string)
| ContextBlock (mrkdwn : string)
| ImageBlock (image_url : value) (alt_text : string).

Record chat_request : Type := {
  chat_model : string;
  chat_system : string;
  chat_user : string;
  max_tokens : nat;
  temperature : Q
}.

Record image_request : Type := {
  image_model : string;
  image_prompt : string;
  image_size : string;
  image_quality : string;
  image_n : nat
}.

(** The calls the script makes to Slack and to OpenAI. *)
Inductive call : Type :=
| Ack
| Respond (text : string)
| ReactionsAdd (channel timestamp name : string)
| Say (text thread_ts : string)
| PostMessage (channel text : string) (blocks : list block)
| ChatCompletionsCreate (req : chat_request)
| ImagesGenerate (req : image_request).

(** A reading of the clock: what [toISOString] and what [Date.now().toString()]
    make of it. *)
Record instant : Type := { iso : string; epoch_ms : string }.

(** The collaborators.  Each answers a call with a result or rejects it,
    the same call the same way throughout a run; the file system may reject
    the reading or the writing of a path.
    - a chat completion: the [message.content] of each of its [choices];
    - generated images: the [url] of each entry of [data], if it has one;
    - a posted message: its [ts];
    - the clock: its successive readings. *)
Record Env : Type := {
  read_fails : string → option error;
  write_fails : string → option error;
  ack : outcome ();
  respond : string → outcome ();
  reactions_add : string → string → string → outcome ();
  say : string → string → outcome ();
  chat_postMessage : string → string → list block → outcome string;
  chat_completions_create : chat_request → outcome (list string);
  images_generate : image_request → outcome (list (option string));
  clock : nat → instant
}.

(** What the script can change: the files, the console, the calls made so
    far (latest last) and the number of clock readings taken. *)
Record World : Type := {
  files : gmap string string;
  console : list (string * error);
  calls : list call;
  ticks : nat
}.

Definition M (A : Type) : Type := World → outcome A * World.

#[export] Instance M_ret : MRet M := λ A a w, (Returns a, w).
#[export] Instance M_bind : MBind M := λ A B f m w,
  match m w with
  | (Returns a, w') => f a w'
  | (Throws e, w') => (Throws e, w')
  end.

Definition throw {A} (e : error) : M A := λ w, (Throws e, w).

Definition lift {A} (o : outcome A) : M A := λ w, (o, w).

(** [try { body } catch (error) { handler }] *)
Definition try_catch {A} (body : M A) (handler : error → M A) : M A := λ w,
  match body w with
  | (Returns a, w') => (Returns a, w')
  | (Throws e, w') => handler e w'
  end.

Definition set_files (f : gmap string string → gmap string string) (w : World) : World :=
  {| files := f (files w); console := console w; calls := calls w; ticks := ticks w |}.

Definition log_error (label : string) (e : error) (w : World) : World :=
  {| files := files w; console := console w ++ [(label, e)]; calls := calls w;
     ticks := ticks w |}.

Definition record_call (c : call) (w : World) : World :=
  {| files := files w; console := console w; calls := calls w ++ [c]; ticks := ticks w |}.

Definition tick (w : World) : World :=
  {| files := files w; console := console w; calls := calls w; ticks := S (ticks w) |}.

(** [console.error(label, error)] *)
Definition console_error (label : string) (e : error) : M () :=
  λ w, (Returns (), log_error label e w).

(** A call to a collaborator, answered by [answer]. *)
Definition perform {A} (c : call) (answer : outcome A) : M A :=
  λ w, (answer, record_call c w).

Section world.
Context (env : Env).

(** [fs.readFile(filename, 'utf8')] *)
Definition readFile (filename : string) : M string := λ w,
  match read_fails env filename with
  | Some e => (Throws e, w)
  | None =>
      match files w !! filename with
      | Some data => (Returns data, w)
      | None => (Throws (Rejected "ENOENT"), w)
      end
  end.

(** [fs.writeFile(filename, data)]; a rejected write leaves the file as
    it was. *)
Definition writeFile (filename data : string) : M () := λ w,
  match write_fails env filename with
  | Some e => (Throws e, w)
  | None => (Returns (), set_files <[filename := data]> w)
  end.

(** [new Date()] *)
Definition now : M instant := λ w, (Returns (clock env (ticks w)), tick w).

End world.

(** ** The script *)

(** A message event and a slash command, as Slack delivers them. *)
Record message : Type := {
  msg_text : option string;
  msg_user : option string;
  msg_channel : string;
  msg_ts : string
}.

Record command : Type := { cmd_text : string; cmd_channel_id : string }.

(** The result of [generateCustomContent]. *)
Record custom_content : Type := {
  textContent : string;
  imageUrl : value;
  imagePrompt : string
}.

Module App.
Section app.
Context `{Platform} (env : Env).

Definition POSTS_FILE : string := "data/posts.json".
Definition PROMPTS_FILE : string := "data/prompts.json".

Definition loadData (filename : string) : M value :=
  try_catch
    (data ← readFile env filename;
     match JSON.parse data with
     | Some v => mret v
     | None => throw SyntaxError
     end)
    (λ _, mret (VArr [])).

Definition saveData (filename : string) (data : value) : M () :=
  try_catch
    (match JSON.stringify data with
     | Some text => writeFile env filename text
     | None => throw TypeError
     end)
    (λ error, console_error "Error saving data:" error).

(** A call of a collaborator. *)
Definition invoke {A} (c : call) (answer : outcome A) : M A := perform c answer.

(** [completion.choices[0].message.content] *)
Definition first_choice (choices : list string) : outcome string :=
  match choices with
  | content :: _ => Returns content
  | [] => Throws TypeError
  end.

(** [imageResponse.data[0].url] *)
Definition first_url (data : list (option string)) : outcome value :=
  match data with
  | url :: _ => Returns (of_option url)
  | [] => Throws TypeError
  end.

Definition IDENTITY : string :=
  "You are helping a sales team at SendBlue.com create engaging LinkedIn content. SendBlue provides SMS/messaging APIs for businesses.".

(** *** [generateCustomContent] *)

(** The system context (lines 57 to 67). *)
Definition generateCustomContent_context (previousPosts : value) : outcome string :=
  let context := IDENTITY in
  some ← JS.length_gt_zero previousPosts;
  if some : bool then
    recentPosts ← JS.slice_neg 5 previousPosts;
    let context := context +:+ nl +:+ nl +:+ "Recent team posts:" +:+ nl in
    JS.forEach recentPosts
      (λ post context,
         messageText ← JS.get post "messageText";
         if JS.ToBoolean messageText then
           head ← JS.substring_to 100 messageText;
           Returns (context +:+ "- " +:+ head +:+ nl)
         else Returns context)
      context
  else Returns context.

Definition custom_user_content (request : string) : string :=
  "Create a LinkedIn post concept: " +:+ dq +:+ request +:+ dq +:+ nl +:+ nl
  +:+ "Provide:" +:+ nl +:+ "1. Hook/angle" +:+ nl +:+ "2. Key points" +:+ nl
  +:+ "3. Hashtags" +:+ nl +:+ "4. Call-to-action" +:+ nl +:+ nl
  +:+ "Also suggest a detailed image description for a professional graphic that would accompany this post.".

Definition IPHONE_ANDROID_PROMPT : string :=
  "Professional infographic comparing iPhone vs Android messaging statistics, split-screen design with phone silhouettes, clean charts showing engagement rates, modern blue and white color scheme, business style".

Definition DATA_PROMPT : string :=
  "Professional business chart or infographic about SMS messaging and customer communication, clean design, corporate colors, data visualization".

Definition COMPARISON_PROMPT : string :=
  "Professional comparison infographic for business messaging, side-by-side layout, clean corporate design, blue and white theme".

Definition generic_prompt (request : string) : string :=
  "Professional LinkedIn post graphic about " +:+ request
  +:+ ", business style infographic, clean design, corporate blue and white colors, modern layout".

(** The image prompt (lines 88 to 98). *)
Definition generateCustomContent_imagePrompt (request : string) : string :=
  if includes (toLowerCase request) "iphone" && includes (toLowerCase request) "android"
  then IPHONE_ANDROID_PROMPT
  else if includes (toLowerCase request) "chart"
          || includes (toLowerCase request) "graph"
          || includes (toLowerCase request) "data"
  then DATA_PROMPT
  else if includes (toLowerCase request) "comparison"
  then COMPARISON_PROMPT
  else generic_prompt request.

Definition fallbackContent : string :=
  String.concat nl
    [ "📱 **iPhone vs Android Users - Post Idea**";
      "";
      "Hook: " +:+ dq
      +:+ "The SMS behavior difference between iPhone and Android users might surprise you..."
      +:+ dq;
      "";
      "Key Points:";
      "• iPhone users: 95% open rate, prefer shorter messages";
      "• Android users: 88% open rate, engage more with rich media";
      "• Timing matters: iPhone users respond faster (avg 3 min vs 8 min)";
      "";
      "Hashtags: #MobileMessaging #SMS #CustomerEngagement #SendBlue";
      "";
      "CTA: " +:+ dq
      +:+ "What patterns have you noticed with your mobile users? Share your insights below! 👇"
      +:+ dq ].

Definition custom_fallback : custom_content :=
  {| textContent := fallbackContent;
     imageUrl := VNull;
     imagePrompt := "Professional iPhone vs Android comparison infographic" |}.

Definition custom_chat_request (context request : string) : chat_request :=
  {| chat_model := "gpt-3.5-turbo";
     chat_system := context;
     chat_user := custom_user_content request;
     max_tokens := 300;
     temperature := 7 # 10 |}.

Definition dalle_request (imagePrompt : string) : image_request :=
  {| image_model := "dall-e-3";
     image_prompt := imagePrompt;
     image_size := "1024x1024";
     image_quality := "standard";
     image_n := 1 |}.

Definition generateCustomContent (request : string) : M custom_content :=
  try_catch
    (previousPosts ← loadData POSTS_FILE;
     context ← lift (generateCustomContent_context previousPosts);
     completion ←
       invoke (ChatCompletionsCreate (custom_chat_request context request))
         (chat_completions_create env (custom_chat_request context request));
     textContent ← lift (first_choice completion);
     let imagePrompt := generateCustomContent_imagePrompt request in
     imageUrl ←
       try_catch
         (imageResponse ←
            invoke (ImagesGenerate (dalle_request imagePrompt))
              (images_generate env (dalle_request imagePrompt));
          lift (first_url imageResponse))
         (λ imageError,
            console_error "Image generation failed:" imageError;;
            mret VNull);
     mret {| textContent := textContent; imageUrl := imageUrl;
             imagePrompt := imagePrompt |})
    (λ error,
       console_error "OpenAI Error:" error;;
       mret custom_fallback).

(** *** [generateContentPrompt] *)

(** The system context (lines 146 to 162). *)
Definition generateContentPrompt_context (previousPosts previousPrompts : value)
  : outcome string :=
  let context := IDENTITY in
  some ← JS.length_gt_zero previousPosts;
  context ←
    (if some : bool then
       recentPosts ← JS.slice_neg 10 previousPosts;
       let context :=
         context +:+ nl +:+ nl
         +:+ "Here are some recent successful posts from the team:" +:+ nl in
       JS.forEach recentPosts
         (λ post context,
            content ← JS.get post "content";
            content ← JS.ToString content;
            Returns (context +:+ "- " +:+ content +:+ nl))
         context
     else Returns context);
  some ← JS.length_gt_zero previousPrompts;
  if some : bool then
    recentPrompts ← JS.slice_neg 5 previousPrompts;
    let context :=
      context +:+ nl +:+ nl +:+ "Avoid repeating these recent prompts:" +:+ nl in
    JS.forEach recentPrompts
      (λ prompt context,
         content ← JS.get prompt "content";
         content ← JS.ToString content;
         Returns (context +:+ "- " +:+ content +:+ nl))
      context
  else Returns context.

Definition daily_chat_request (context : string) : chat_request :=
  {| chat_model := "gpt-4";
     chat_system := context;
     chat_user :=
       "Generate a specific, actionable LinkedIn post idea that would be valuable for a sales team member to share. Include the angle/hook and 2-3 bullet points on what to include. Make it relevant to messaging/SMS/API space or general sales insights.";
     max_tokens := 200;
     temperature := 8 # 10 |}.

Definition daily_fallback : string :=
  "💡 **Daily LinkedIn Prompt**" +:+ nl +:+ nl
  +:+ "Share a quick tip about how businesses can improve their customer communication. What's one SMS/messaging mistake you see companies make, and how can they fix it?"
  +:+ nl +:+ nl
  +:+ "• Include a real example (anonymized)" +:+ nl
  +:+ "• Add your perspective on why it matters" +:+ nl
  +:+ "• End with a question to encourage engagement".

Definition generateContentPrompt : M string :=
  try_catch
    (previousPosts ← loadData POSTS_FILE;
     previousPrompts ← loadData PROMPTS_FILE;
     context ← lift (generateContentPrompt_context previousPosts previousPrompts);
     completion ←
       invoke (ChatCompletionsCreate (daily_chat_request context))
         (chat_completions_create env (daily_chat_request context));
     lift (first_choice completion))
    (λ error,
       console_error "Error generating prompt:" error;;
       mret daily_fallback).

(** *** [postDailyPrompt] *)

Definition SHARE_IN_THREAD : string :=
  "_Once you post, share your LinkedIn URL in this thread so the team can engage! 💪_".

Definition daily_text (prompt : string) : string :=
  "🚀 **Daily LinkedIn Content Idea**" +:+ nl +:+ nl +:+ prompt +:+ nl +:+ nl
  +:+ SHARE_IN_THREAD.

Definition daily_blocks (prompt : string) : list block :=
  [ SectionBlock ("🚀 *Daily LinkedIn Content Idea*" +:+ nl +:+ nl +:+ prompt);
    ContextBlock SHARE_IN_THREAD ].

(** The record of a daily prompt (lines 218 to 223). *)
Definition daily_record (ts prompt timestamp channelId : string) : value :=
  VObj [ ("id", VStr ts); ("content", VStr prompt);
         ("timestamp", VStr timestamp); ("channel", VStr channelId) ].

(** The result is the posted message's [ts], or [undefined] after an error. *)
Definition postDailyPrompt (channelId : string) : M (option string) :=
  try_catch
    (prompt ← generateContentPrompt;
     result ←
       invoke (PostMessage channelId (daily_text prompt) (daily_blocks prompt))
         (chat_postMessage env channelId (daily_text prompt) (daily_blocks prompt));
     prompts ← loadData PROMPTS_FILE;
     lift (JS.member prompts);;
     t ← now env;
     prompts ← lift (JS.push prompts (daily_record result prompt (iso t) channelId));
     saveData PROMPTS_FILE prompts;;
     mret (Some result))
    (λ error,
       console_error "Error posting daily prompt:" error;;
       mret None).

(** *** The listener for LinkedIn URLs *)

(** The pattern [https:\/\/(www\.)?linkedin\.com\/posts\/[^\s]+] at the
    head of [s]: the text it matches, if it matches. *)
Definition linkedinUrlRegex_here (s : string) : option string :=
  rest ← strip_prefix "https://" s;
  let path (www rest : string) : option string :=
    rest ← strip_prefix "linkedin.com/posts/" rest;
    match span_nonspace rest with
    | ("", _) => None
    | (token, _) => Some ("https://" +:+ www +:+ "linkedin.com/posts/" +:+ token)
    end in
  match strip_prefix "www." rest ≫= path "www." with
  | Some url => Some url
  | None => path "" rest
  end.

(** All matches, left to right; after a match the search resumes where
    the match ended ([skip] counts the characters of it still to pass). *)
Fixpoint linkedinUrlRegex_scan (skip : nat) (s : string) : list string :=
  match s with
  | "" => []
  | String _ r =>
      match skip with
      | S k => linkedinUrlRegex_scan k r
      | 0 =>
          match linkedinUrlRegex_here s with
          | Some url => url :: linkedinUrlRegex_scan (String.length url - 1) r
          | None => linkedinUrlRegex_scan 0 r
          end
      end
  end.

(** The matches of the pattern in a text as a global search meets them:
    the pattern is tried at each character from the left; where it matches,
    the match is taken and the search goes on behind it. *)
Inductive matches_in : string → list string → Prop :=
| matches_end : matches_in "" []
| matches_pass c s urls :
    linkedinUrlRegex_here (String c s) = None →
    matches_in s urls →
    matches_in (String c s) urls
| matches_take url rest urls :
    url ≠ "" →
    linkedinUrlRegex_here (url +:+ rest) = Some url →
    matches_in rest urls →
    matches_in (url +:+ rest) (url :: urls).

(** [text.match(linkedinUrlRegex)]: [null] when nothing matches. *)
Definition match_linkedinUrlRegex (text : string) : option (list string) :=
  match linkedinUrlRegex_scan 0 text with
  | [] => None
  | urls => Some urls
  end.

(** The record of a shared post (lines 250 to 256). *)
Definition post_record (url : string) (message : message) (timestamp : string) : value :=
  VObj [ ("url", VStr url); ("userId", of_option (msg_user message));
         ("timestamp", VStr timestamp); ("channel", VStr (msg_channel message));
         ("messageText", of_option (msg_text message)) ].

(** [urls.forEach(url => ...)] around a captured [posts]. *)
Fixpoint push_posts (message : message) (urls : list string) (posts : value) : M value :=
  match urls with
  | [] => mret posts
  | url :: rest =>
      lift (JS.member posts);;
      t ← now env;
      posts ← lift (JS.push posts (post_record url message (iso t)));
      push_posts message rest posts
  end.

(** The records that [push_posts] builds when the clock has been read [t]
    times before. *)
Fixpoint post_records (message : message) (urls : list string) (t : nat) : list value :=
  match urls with
  | [] => []
  | url :: rest =>
      post_record url message (iso (clock env t)) :: post_records message rest (S t)
  end.

Definition encouragement (urls : list string) : string :=
  "Great post! 🎉 Team, show some love on this LinkedIn post: "
  +:+ match urls with
      | url :: _ => url
      | [] => "undefined"
      end.

Definition app_message (message : message) : M () :=
  let urls := msg_text message ≫= match_linkedinUrlRegex in
  match urls with
  | Some urls =>
      try_catch
        (invoke (ReactionsAdd (msg_channel message) (msg_ts message) "link")
           (reactions_add env (msg_channel message) (msg_ts message) "link");;
         posts ← loadData POSTS_FILE;
         posts ← push_posts message urls posts;
         saveData POSTS_FILE posts;;
         invoke (Say (encouragement urls) (msg_ts message))
           (say env (encouragement urls) (msg_ts message)))
        (λ error, console_error "Error handling LinkedIn URL:" error)
  | None => mret ()
  end.

(** *** The commands *)

Definition app_command_linkedin_prompt (command : command) : M () :=
  invoke Ack (ack env);;
  try_catch
    (postDailyPrompt (cmd_channel_id command);;
     invoke (Respond "Daily LinkedIn prompt posted! 🚀")
       (respond env "Daily LinkedIn prompt posted! 🚀"))
    (λ _,
       invoke (Respond "Error posting prompt. Please try again.")
         (respond env "Error posting prompt. Please try again.")).

Definition USAGE_HINT : string :=
  "Please provide a specific request! For example:" +:+ nl
  +:+ "• `/linkedin-machine give me post ideas about iPhone vs Android users`" +:+ nl
  +:+ "• `/linkedin-machine create a post about SMS delivery rates with an infographic idea`"
  +:+ nl
  +:+ "• `/linkedin-machine help me write about customer success stories`".

Definition LOADING : string :=
  "🎨 Generating your custom LinkedIn content and image... this may take a moment!".

Definition SORRY : string :=
  "Sorry, I had trouble generating that content. Please try again!".

Definition custom_text (result : custom_content) : string :=
  "🎯 **Custom LinkedIn Content**" +:+ nl +:+ nl +:+ textContent result.

Definition custom_blocks (result : custom_content) : list block :=
  let blocks :=
    [ SectionBlock ("🎯 *Custom LinkedIn Content*" +:+ nl +:+ nl +:+ textContent result) ] in
  let blocks :=
    if JS.ToBoolean (imageUrl result) then
      blocks ++ [ ImageBlock (imageUrl result) "Generated LinkedIn post graphic";
                  ContextBlock ("✨ *Generated image prompt:* " +:+ imagePrompt result) ]
    else
      blocks ++ [ ContextBlock
                    "💡 *Image generation failed, but you can manually create a graphic using the description above*" ] in
  blocks ++ [ ContextBlock
                "_Once you create this post, share the LinkedIn URL here so the team can engage! 💪_" ].

(** The record of a custom generation (lines 361 to 370). *)
Definition custom_record (id request : string) (result : custom_content)
    (timestamp channel_id : string) : value :=
  VObj [ ("id", VStr id); ("content", VStr (textContent result));
         ("request", VStr request); ("type", VStr "custom");
         ("imageUrl", imageUrl result); ("imagePrompt", VStr (imagePrompt result));
         ("timestamp", VStr timestamp); ("channel", VStr channel_id) ].

Definition app_command_linkedin_machine (command : command) : M () :=
  invoke Ack (ack env);;
  try_catch
    (let request := trim (cmd_text command) in
     if String.eqb request "" then
       invoke (Respond USAGE_HINT) (respond env USAGE_HINT)
     else
       invoke (Respond LOADING) (respond env LOADING);;
       result ← generateCustomContent request;
       invoke (PostMessage (cmd_channel_id command) (custom_text result) (custom_blocks result))
         (chat_postMessage env (cmd_channel_id command) (custom_text result)
            (custom_blocks result));;
       prompts ← loadData PROMPTS_FILE;
       lift (JS.member prompts);;
       id ← now env;
       t ← now env;
       prompts ←
         lift (JS.push prompts
                 (custom_record (epoch_ms id) request result (iso t)
                    (cmd_channel_id command)));
       saveData PROMPTS_FILE prompts)
    (λ error,
       console_error "Error generating custom content:" error;;
       invoke (Respond SORRY) (respond env SORRY)).

End app.
End App.

(** ** The script without images *)

(** The variant of [app.js] whose [generateCustomContent] returns a text and
    asks for no image (lines 660 to 715 and 860 to 915).  Its other functions
    are those of [App], line for line. *)
Module TextOnly.
Section app.
Context `{Platform} (env : Env).

Definition custom_user_content (request : string) : string :=
  "Create a LinkedIn post concept: " +:+ dq +:+ request +:+ dq +:+ nl +:+ nl
  +:+ "Provide:" +:+ nl +:+ "1. Hook/angle" +:+ nl +:+ "2. Key points" +:+ nl
  +:+ "3. Visual ideas if requested" +:+ nl +:+ "4. Hashtags" +:+ nl
  +:+ "5. Call-to-action".

Definition fallbackContent : string :=
  String.concat nl
    [ "📱 **iPhone vs Android Users - Post Idea**";
      "";
      "Hook: " +:+ dq
      +:+ "The SMS behavior difference between iPhone and Android users might surprise you..."
      +:+ dq;
      "";
      "Key Points:";
      "• iPhone users: 95% open rate, prefer shorter messages";
      "• Android users: 88% open rate, engage more with rich media";
      "• Timing matters: iPhone users respond faster (avg 3 min vs 8 min)";
      "";
      "Visual Idea: Create a side-by-side comparison graphic showing:";
      "- Response time charts";
      "- Message length preferences  ";
      "- Open rate statistics";
      "";
      "Hashtags: #MobileMessaging #SMS #CustomerEngagement #SendBlue";
      "";
      "CTA: " +:+ dq
      +:+ "What patterns have you noticed with your mobile users? Share your insights below! 👇"
      +:+ dq ].

Definition custom_chat_request (context request : string) : chat_request :=
  {| chat_model := "gpt-3.5-turbo";
     chat_system := context;
     chat_user := custom_user_content request;
     max_tokens := 300;
     temperature := 7 # 10 |}.

Definition generateCustomContent (request : string) : M string :=
  try_catch
    (previousPosts ← App.loadData env App.POSTS_FILE;
     context ← lift (App.generateCustomContent_context previousPosts);
     completion ←
       App.invoke (ChatCompletionsCreate (custom_chat_request context request))
         (chat_completions_create env (custom_chat_request context request));
     lift (App.first_choice completion))
    (λ error,
       console_error "OpenAI Error:" error;;
       mret fallbackContent).

Definition custom_text (customContent : string) : string :=
  "🎯 **Custom LinkedIn Content**" +:+ nl +:+ nl +:+ customContent.

Definition custom_blocks (customContent : string) : list block :=
  [ SectionBlock ("🎯 *Custom LinkedIn Content*" +:+ nl +:+ nl +:+ customContent);
    ContextBlock
      "_Once you create this post, share the LinkedIn URL here so the team can engage! 💪_" ].

(** The record of a custom generation (lines 901 to 908). *)
Definition custom_record (id customContent request timestamp channel_id : string) : value :=
  VObj [ ("id", VStr id); ("content", VStr customContent);
         ("request", VStr request); ("type", VStr "custom");
         ("timestamp", VStr timestamp); ("channel", VStr channel_id) ].

Definition app_command_linkedin_machine (command : command) : M () :=
  App.invoke Ack (ack env);;
  try_catch
    (let request := trim (cmd_text command) in
     if String.eqb request "" then
       App.invoke (Respond App.USAGE_HINT) (respond env App.USAGE_HINT)
     else
       customContent ← generateCustomContent request;
       App.invoke
         (PostMessage (cmd_channel_id command) (custom_text customContent)
            (custom_blocks customContent))
         (chat_postMessage env (cmd_channel_id command) (custom_text customContent)
            (custom_blocks customContent));;
       prompts ← App.loadData env App.PROMPTS_FILE;
       lift (JS.member prompts);;
       id ← now env;
       t ← now env;
       prompts ←
         lift (JS.push prompts
                 (custom_record (epoch_ms id) customContent request (iso t)
                    (cmd_channel_id command)));
       App.saveData env App.PROMPTS_FILE prompts)
    (λ error,
       console_error "Error generating custom content:" error;;
       App.invoke (Respond App.SORRY) (respond env App.SORRY)).

End app.
End TextOnly.

(** ** The start of the process *)

(** [ensureDataDir] and the function that starts the app (lines 25 to 31
    and 380 to 389).  They run before any handler and touch neither log:
    what they do is the sequence of their steps. *)
Module Boot.

(** What the host of the process answers: [fs.mkdir] with
    [{ recursive: true }], the variable [PORT] of the environment and
    [app.start]. *)
Record Host : Type := {
  mkdir : string → outcome ();
  PORT : option string;
  app_start : value → outcome ()
}.

Inductive step : Type :=
| Mkdir (path : string)
| AppStart (port : value)
| ConsoleError (label : string) (e : error)
| ConsoleLog (line : string).

(** A computation that leaves a trail of steps. *)
Definition P (A : Type) : Type := list step * outcome A.

#[export] Instance P_ret : MRet P := λ A a, ([], Returns a).
#[export] Instance P_bind : MBind P := λ A B f m,
  match m with
  | (steps, Returns a) => let (more, b) := f a in (steps ++ more, b)
  | (steps, Throws e) => (steps, Throws e)
  end.

Definition does {A} (s : step) (answer : outcome A) : P A := ([s], answer).

(** [try { body } catch (error) { handler }] *)
Definition attempt {A} (body : P A) (handler : error → P A) : P A :=
  match body with
  | (steps, Returns a) => (steps, Returns a)
  | (steps, Throws e) => let (more, b) := handler e in (steps ++ more, b)
  end.

Section boot.
Context (host : Host).

Definition DATA_DIR : string := "./data".

Definition ensureDataDir : P () :=
  attempt
    (does (Mkdir DATA_DIR) (mkdir host DATA_DIR))
    (λ error, does (ConsoleError "Error creating data directory:" error) (Returns ())).

(** [process.env.PORT || 3000]: the variable is a string when it is set,
    and the empty string counts as unset. *)
Definition port : value :=
  match PORT host with
  | Some p => if String.eqb p "" then VNum "3000" else VStr p
  | None => VNum "3000"
  end.

(** The text of [port] in a template literal. *)
Definition port_text (port : value) : string :=
  match port with
  | VStr p => p
  | _ => "3000"
  end.

Definition RUNNING (port : value) : string :=
  "⚡️ LinkedIn Machine is running on port " +:+ port_text port +:+ "!".

Definition main : P () :=
  ensureDataDir;;
  let port := port in
  does (AppStart port) (app_start host port);;
  does (ConsoleLog (RUNNING port)) (Returns ()).

End boot.
End Boot.

(** ** Reading the logs *)

Section logs.
Context `{Platform} (env : Env).

(** What [loadData] makes of a file system. *)
Definition stored_log (filename : string) (fs : gmap string string) : value :=
  match read_fails env filename with
  | Some _ => VArr []
  | None =>
      match fs !! filename with
      | Some data => default (VArr []) (JSON.parse data)
      | None => VArr []
      end
  end.

(** [word] occurs in [text], the case of the letters A to Z aside. *)
Definition mentions (text word : string) : Prop :=
  ∃ before hit after,
    text = before +:+ hit +:+ after ∧ toLowerCase hit = toLowerCase word.

(** The lines of a context tail, one per entry, oldest first. *)
Fixpoint bullets (entries : list string) : string :=
  match entries with
  | [] => ""
  | entry :: rest => "- " +:+ entry +:+ nl +:+ bullets rest
  end.

(** The calls made between two worlds. *)
Definition calls_since (w w' : World) : list call := drop (length (calls w)) (calls w').

Definition is_generation (c : call) : bool :=
  match c with
  | ChatCompletionsCreate _ | ImagesGenerate _ => true
  | _ => false
  end.

End logs.

(** ** Reading texts and entries *)

(** [s] holds a white-space character. *)
Fixpoint has_space (s : string) : bool :=
  match s with
  | "" => false
  | String _ r =>
      match space_width s with
      | 0 => has_space r
      | _ => true
      end
  end.

(** The [urls] lie in [text] in this order, none over another, each up to
    white space or to the end of the text. *)
Fixpoint found_in_order (text : string) (urls : list string) : Prop :=
  match urls with
  | [] => True
  | url :: rest =>
      ∃ before after,
        text = before +:+ url +:+ after
        ∧ (after = "" ∨ space_width after ≠ 0)
        ∧ found_in_order after rest
  end.

(** [text] holds a link to a post: the scheme, the host with or without
    [www.], the path and one more character that is not white space. *)
Definition holds_post_link (text : string) : Prop :=
  ∃ before www c after,
    (www = "www." ∨ www = "")
    ∧ text = before +:+ "https://" +:+ www +:+ "linkedin.com/posts/" +:+ String c after
    ∧ space_width (String c after) = 0.

(** The text that an entry of the posts log has to show: its [messageText]
    when that is a string and not empty. *)
Definition post_text (props : list (string * value)) : option string :=
  match JS.lookup_prop "messageText" props with
  | VStr s => if String.eqb s "" then None else Some s
  | _ => None
  end.

(** The line that an entry shows for [field] in a list of the scheduled
    context. *)
Definition shows `{Platform} (field : string) (props : list (string * value))
    (line : string) : Prop :=
  JS.ToString (JS.lookup_prop field props) = Returns line.

(** [head] is the first [n] code units of [s]: the characters of [s] up to
    that count, and the high surrogate of the next one when the count
    falls between its two code units. *)
Definition first_units (n : nat) (s head : string) : Prop :=
  ∃ kept rest,
    s = kept +:+ rest ∧ units s = units kept + units rest
    ∧ ((head = kept ∧ units kept = min n (units s))
       ∨ (units kept + 1 = n ∧ (∃ c r, rest = String c r ∧ astral c = true)
          ∧ head = kept +:+ high_half rest)).

(** An entry whose [messageText] is a string or is missing. *)
Definition texted_or_not (props : list (string * value)) : bool :=
  match JS.lookup_prop "messageText" props with
  | VStr _ | VUndef | VNull => true
  | _ => false
  end.

(** A record of strings, [null]s, booleans and absent fields. *)
Definition flat (props : list (string * value)) : bool :=
  forallb (λ kv, match kv.2 with
                 | VUndef | VNull | VBool _ | VStr _ => true
                 | _ => false
                 end) props.

(** A field that [JSON.stringify] writes: one whose value is not
    [undefined]. *)
Definition present (kv : string * value) : bool :=
  match kv.2 with
  | VUndef => false
  | _ => true
  end.

Definition is_response (c : call) : bool :=
  match c with
  | Respond _ => true
  | _ => false
  end.

(** ** Sample inputs *)

Module Samples.

(** Numbers do not occur in the samples; any platform does. *)
#[export] Instance platform : Platform := {|
  Number_toString lit := lit;
  Number_isFinite _ := true;
  Number_sign lit := if starts_with "-" lit then Lt else Gt;
  String_toNumber_sign _ := None
|}.

(** A clock that advances by a millisecond between two readings. *)
Definition ticking (n : nat) : instant :=
  match n with
  | 0 => {| iso := "2024-05-01T09:00:00.000Z"; epoch_ms := "1714554000000" |}
  | 1 => {| iso := "2024-05-01T09:00:00.001Z"; epoch_ms := "1714554000001" |}
  | _ => {| iso := "2024-05-01T09:00:00.002Z"; epoch_ms := "1714554000002" |}
  end.

(** Every collaborator answers. *)
Definition env_ok : Env := {|
  read_fails _ := None;
  write_fails _ := None;
  ack := Returns ();
  respond _ := Returns ();
  reactions_add _ _ _ := Returns ();
  say _ _ := Returns ();
  chat_postMessage _ _ _ := Returns "1714554000.000100";
  chat_completions_create _ := Returns ["Share one lesson from a customer call."];
  images_generate _ := Returns [Some "https://images.example/1.png"];
  clock := ticking
|}.

Definition timeout : error := Rejected "timeout".

(** The generation service rejects every completion. *)
Definition env_no_completion : Env := {|
  read_fails := read_fails env_ok; write_fails := write_fails env_ok;
  ack := ack env_ok; respond := respond env_ok;
  reactions_add := reactions_add env_ok; say := say env_ok;
  chat_postMessage := chat_postMessage env_ok;
  chat_completions_create _ := Throws timeout;
  images_generate := images_generate env_ok;
  clock := ticking
|}.

(** The generation service rejects every image. *)
Definition env_no_image : Env := {|
  read_fails := read_fails env_ok; write_fails := write_fails env_ok;
  ack := ack env_ok; respond := respond env_ok;
  reactions_add := reactions_add env_ok; say := say env_ok;
  chat_postMessage := chat_postMessage env_ok;
  chat_completions_create := chat_completions_create env_ok;
  images_generate _ := Throws timeout;
  clock := ticking
|}.

(** Slack rejects the reaction. *)
Definition env_no_reaction : Env := {|
  read_fails := read_fails env_ok; write_fails := write_fails env_ok;
  ack := ack env_ok; respond := respond env_ok;
  reactions_add _ _ _ := Throws timeout; say := say env_ok;
  chat_postMessage := chat_postMessage env_ok;
  chat_completions_create := chat_completions_create env_ok;
  images_generate := images_generate env_ok;
  clock := ticking
|}.

(** Slack rejects the reply. *)
Definition env_no_reply : Env := {|
  read_fails := read_fails env_ok; write_fails := write_fails env_ok;
  ack := ack env_ok; respond := respond env_ok;
  reactions_add := reactions_add env_ok; say _ _ := Throws timeout;
  chat_postMessage := chat_postMessage env_ok;
  chat_completions_create := chat_completions_create env_ok;
  images_generate := images_generate env_ok;
  clock := ticking
|}.

Definition disk_full : error := Rejected "ENOSPC".

(** The data directory cannot be written. *)
Definition env_read_only : Env := {|
  read_fails := read_fails env_ok; write_fails _ := Some disk_full;
  ack := ack env_ok; respond := respond env_ok;
  reactions_add := reactions_add env_ok; say := say env_ok;
  chat_postMessage := chat_postMessage env_ok;
  chat_completions_create := chat_completions_create env_ok;
  images_generate := images_generate env_ok;
  clock := ticking
|}.

(** The data directory cannot be read. *)
Definition env_unreadable : Env := {|
  read_fails _ := Some (Rejected "EACCES"); write_fails := write_fails env_ok;
  ack := ack env_ok; respond := respond env_ok;
  reactions_add := reactions_add env_ok; say := say env_ok;
  chat_postMessage := chat_postMessage env_ok;
  chat_completions_create := chat_completions_create env_ok;
  images_generate := images_generate env_ok;
  clock := ticking
|}.

(** A fresh installation: no file yet. *)
Definition fresh : World := {| files := ∅; console := []; calls := []; ticks := 0 |}.

Definition one_link : message := {|
  msg_text := Some "check this out https://linkedin.com/posts/abc123-xyz";
  msg_user := Some "U024BE7LH";
  msg_channel := "C061EG9SL";
  msg_ts := "1714553999.000200"
|}.

Definition two_links : message := {|
  msg_text :=
    Some "mine https://linkedin.com/posts/ana-1 and hers https://www.linkedin.com/posts/bea-2";
  msg_user := Some "U024BE7LH";
  msg_channel := "C061EG9SL";
  msg_ts := "1714553999.000300"
|}.

Definition no_link : message := {|
  msg_text := Some "lunch?";
  msg_user := Some "U024BE7LH";
  msg_channel := "C061EG9SL";
  msg_ts := "1714553999.000400"
|}.

(** An event without text, such as the notice of an edit. *)
Definition no_text : message := {|
  msg_text := None;
  msg_user := None;
  msg_channel := "C061EG9SL";
  msg_ts := "1714553999.000500"
|}.

Definition blank_command : command := {| cmd_text := "   "; cmd_channel_id := "C061EG9SL" |}.

Definition phones_command : command :=
  {| cmd_text := "iphone vs android users"; cmd_channel_id := "C061EG9SL" |}.

(** The posts log after [one_link] was heard on a fresh installation. *)
Definition heard_one : World := (App.app_message env_ok one_link fresh).2.

Definition broken_json : World :=
  {| files := {[ App.POSTS_FILE := "[{" ]}; console := []; calls := []; ticks := 0 |}.

(** The generation service answers every completion without a choice. *)
Definition env_no_choice : Env := {|
  read_fails := read_fails env_ok; write_fails := write_fails env_ok;
  ack := ack env_ok; respond := respond env_ok;
  reactions_add := reactions_add env_ok; say := say env_ok;
  chat_postMessage := chat_postMessage env_ok;
  chat_completions_create _ := Returns [];
  images_generate := images_generate env_ok;
  clock := ticking
|}.

(** Slack rejects every message posted to a channel. *)
Definition env_no_post : Env := {|
  read_fails := read_fails env_ok; write_fails := write_fails env_ok;
  ack := ack env_ok; respond := respond env_ok;
  reactions_add := reactions_add env_ok; say := say env_ok;
  chat_postMessage _ _ _ := Throws timeout;
  chat_completions_create := chat_completions_create env_ok;
  images_generate := images_generate env_ok;
  clock := ticking
|}.

(** Slack rejects every response to a command. *)
Definition env_no_response : Env := {|
  read_fails := read_fails env_ok; write_fails := write_fails env_ok;
  ack := ack env_ok; respond _ := Throws timeout;
  reactions_add := reactions_add env_ok; say := say env_ok;
  chat_postMessage := chat_postMessage env_ok;
  chat_completions_create := chat_completions_create env_ok;
  images_generate := images_generate env_ok;
  clock := ticking
|}.

(** A posts file that holds JSON, but no array. *)
Definition object_log : World :=
  {| files := {[ App.POSTS_FILE := "{}" ]}; console := []; calls := []; ticks := 0 |}.

Definition null_log : World :=
  {| files := {[ App.POSTS_FILE := "null" ]}; console := []; calls := []; ticks := 0 |}.

(** A link to LinkedIn that is not a link to a post. *)
Definition profile_link : message := {|
  msg_text := Some "my profile: https://www.linkedin.com/in/ana";
  msg_user := Some "U024BE7LH";
  msg_channel := "C061EG9SL";
  msg_ts := "1714553999.000600"
|}.

(** The record that [heard_one] holds. *)
Definition heard_record : list (string * value) :=
  [ ("url", VStr "https://linkedin.com/posts/abc123-xyz");
    ("userId", VStr "U024BE7LH");
    ("timestamp", VStr "2024-05-01T09:00:00.000Z");
    ("channel", VStr "C061EG9SL");
    ("messageText", VStr "check this out https://linkedin.com/posts/abc123-xyz") ].

Definition prompt_command : command := {| cmd_text := ""; cmd_channel_id := "C061EG9SL" |}.

(** A message posted by an integration: a link, and no user. *)
Definition bot_link : message := {|
  msg_text := Some "new post https://linkedin.com/posts/bot-1";
  msg_user := None;
  msg_channel := "C061EG9SL";
  msg_ts := "1714553999.000700"
|}.

(** A text of 165 code units in 176 bytes, and one of 98 code units in
    107 bytes. *)
Definition long_text : string :=
  "https://linkedin.com/posts/equipe-recit Très fière de notre équipe : le récit détaillé de notre dernière campagne de messagerie est en ligne, à lire et à partager 🎉".

Definition short_text : string :=
  "Un café ☕ et une idée : l'écoute d'abord, à chaque conversation, même très brève, avec nos clients".

Definition long_post : message := {|
  msg_text := Some long_text;
  msg_user := Some "U024BE7LH";
  msg_channel := "C061EG9SL";
  msg_ts := "1714553999.000800"
|}.

(** A posts file whose entry has for a [content] an object with a
    property [toString]. *)
Definition unprintable_log : World :=
  {| files :=
       {[ App.POSTS_FILE :=
            "[{" +:+ Text.dq +:+ "content" +:+ Text.dq +:+ ":{" +:+ Text.dq +:+ "toString"
            +:+ Text.dq +:+ ":" +:+ Text.dq +:+ "x" +:+ Text.dq +:+ "}}]" ]};
     console := []; calls := []; ticks := 0 |}.

(** A host that sets the port, and one that sets none and has no room
    for the data directory. *)
Definition host_ok : Boot.Host :=
  {| Boot.mkdir _ := Returns (); Boot.PORT := Some "8080"; Boot.app_start _ := Returns () |}.

Definition host_bare : Boot.Host :=
  {| Boot.mkdir _ := Throws disk_full; Boot.PORT := None; Boot.app_start _ := Returns () |}.

End Samples.

(** * Proofs *)

Module TextFacts.

Lemma append_assoc (a b c : string) : (a +:+ b) +:+ c = a +:+ (b +:+ c).
Proof. induction a as [|x a IH]; simpl; congruence. Qed.

Lemma append_nil_r (a : string) : a +:+ "" = a.
Proof. induction a as [|x a IH]; simpl; congruence. Qed.

Lemma length_append (a b : string) :
String.length (a +:+ b) = String.length a + String.length b.
Proof. induction a as [|x a IH]; simpl; congruence. Qed.


End TextFacts.

(** ** Reading back what [JSON.stringify] wrote *)

Module JSONFacts.
Import JSON TextFacts.

Section facts.
Context `{Platform}.

Ltac eval_at f :=
  match goal with
  | |- context [f ?c] => let e := eval vm_compute in (f c) in change (f c) with e
  end.

Lemma escape_item c r :
  parse_items (escape c +:+ r) =
  match parse_items r with
  | Some (l, rest) => Some (item_of c :: l, rest)
  | None => None
  end.
Proof.
  destruct c as [[] [] [] [] [] [] [] []]; eval_at escape; eval_at item_of;
    simpl; destruct (parse_items r) as [[? ?]|]; reflexivity.
Qed.

Lemma text_of_item c l : text_of_items (item_of c :: l) = String c (text_of_items l).
Proof.
  destruct c as [[] [] [] [] [] [] [] []]; eval_at item_of;
    try reflexivity; destruct l as [|[?|?] ?]; reflexivity.
Qed.

Lemma parse_items_quote s rest :
  parse_items (quote_chars s +:+ String DQ rest) = Some (map item_of (list_ascii_of_string s), rest).
Proof.
  induction s as [|c s IH]; simpl; [done|].
  by rewrite append_assoc, escape_item, IH.
Qed.

Lemma text_of_items_of s : text_of_items (map item_of (list_ascii_of_string s)) = s.
Proof.
  induction s as [|c s IH]; [done|].
  cbn [list_ascii_of_string map]. by rewrite text_of_item, IH.
Qed.

Lemma parse_string_quote s rest :
  parse_string (quote_chars s +:+ String DQ rest) = Some (s, rest).
Proof.
  unfold parse_string.
  by rewrite parse_items_quote, text_of_items_of.
Qed.

Lemma skip_blank w s : blank w = true → skip_ws (w +:+ s) = skip_ws s.
Proof.
  induction w as [|c w IH]; simpl; [done|].
  intros [Hc Hw]%andb_prop. rewrite Hc. auto.
Qed.

Lemma blank_app a b : blank (a +:+ b) = blank a && blank b.
Proof. induction a as [|c a IH]; simpl; [done|]. by rewrite IH, andb_assoc. Qed.

Lemma token_blank w s : blank w = true → token (w +:+ s) = token s.
Proof. intros Hw. unfold token. by rewrite skip_blank. Qed.

Lemma parse_value_blank fuel w s :
  blank w = true → parse_value fuel (w +:+ s) = parse_value fuel s.
Proof. intros Hw. destruct fuel; simpl; [done|]. by rewrite token_blank. Qed.

Lemma parse_elements_blank fuel w s :
  blank w = true → parse_elements fuel (w +:+ s) = parse_elements fuel s.
Proof. intros Hw. destruct fuel; simpl; [done|]. by rewrite parse_value_blank. Qed.

Lemma parse_members_blank fuel w s :
  blank w = true → parse_members fuel (w +:+ s) = parse_members fuel s.
Proof. intros Hw. destruct fuel; simpl; [done|]. by rewrite token_blank. Qed.


Lemma ser_arr ind elems :
  SerializeJSONProperty ind (VArr elems) =
  Some (wrap "[" "]" ind (ind +:+ gap) (ser_items (ind +:+ gap) elems)).
Proof.
  reflexivity.
Qed.

Lemma ser_obj ind props :
  SerializeJSONProperty ind (VObj props) =
  Some (wrap "{" "}" ind (ind +:+ gap) (ser_members (ind +:+ gap) props)).
Proof.
  simpl. do 2 f_equal. induction props as [|[k x] r IH]; simpl; [done|].
  rewrite IH. unfold ser_members at 2. cbn [omap list_omap]. simpl.
  by destruct (SerializeJSONProperty _ x).
Qed.

Lemma stored_arr elems : stored (VArr elems) = VArr (map stored_elem elems).
Proof.
  simpl. f_equal. induction elems as [|x r IH]; simpl; [done|].
  rewrite IH. by destruct x.
Qed.

Lemma stored_obj props : stored (VObj props) = VObj (omap stored_prop props).
Proof.
  simpl. f_equal. induction props as [|[k x] r IH]; simpl; [done|].
  rewrite IH. by destruct x.
Qed.

Lemma weight_arr elems :
  weight (VArr elems) = S (sum_list_with (λ x, 2 + weight x) elems).
Proof.
  reflexivity.
Qed.

Lemma weight_obj props :
  weight (VObj props) =
  S (sum_list_with (λ kv, match kv.2 with VUndef => 0 | x => 1 + weight x end) props).
Proof.
  simpl. f_equal. induction props as [|[k x] r IH]; simpl; [done|].
  rewrite IH. by destruct x.
Qed.

Lemma ser_None ind v : SerializeJSONProperty ind v = None ↔ v = VUndef.
Proof. destruct v as [| |[]| | | |]; simpl; split; congruence. Qed.

Lemma token_cons c r : is_ws c = false → token (String c r) = Some (c, r).
Proof. intros Hc. unfold token. simpl. by rewrite Hc. Qed.

Lemma parse_null fuel rest :
  parse_value (S fuel) ("null" +:+ rest) = Some (VNull, rest).
Proof. reflexivity. Qed.


Local Abbreviation reads_back x :=
  (storable x = true → ∀ ind txt fuel rest,
     blank ind = true → SerializeJSONProperty ind x = Some txt → weight x ≤ fuel →
     parse_value fuel (txt +:+ rest) = Some (stored x, rest)).

Lemma parse_item inner x fuel rest :
  reads_back x → storable x = true → blank inner = true → 1 + weight x ≤ fuel →
  parse_value fuel (default "null" (SerializeJSONProperty inner x) +:+ rest)
  = Some (stored_elem x, rest).
Proof.
  intros IH Hx Hin Hfuel.
  destruct (SerializeJSONProperty inner x) as [txt|] eqn:Htxt; simpl.
  - rewrite (IH Hx inner txt fuel rest Hin Htxt) by lia.
    by destruct x.
  - apply ser_None in Htxt as ->. destruct fuel; [lia|]. reflexivity.
Qed.


Lemma parse_elements_S fuel s :
  parse_elements (S fuel) s =
  '(v, r) ← parse_value fuel s;
  '(c, r') ← token r;
  if (code c =? 44)%N then
    '(vs, rest) ← parse_elements fuel r'; Some (v :: vs, rest)
  else if (code c =? 93)%N then Some ([v], r')
  else None.
Proof. reflexivity. Qed.

Lemma parse_members_S fuel s :
  parse_members (S fuel) s =
  '(q, r) ← token s;
  if (code q =? 34)%N then
    '(k, r1) ← parse_string r;
    '(colon, r2) ← token r1;
    if (code colon =? 58)%N then
      '(v, r3) ← parse_value fuel r2;
      '(c, r4) ← token r3;
      if (code c =? 44)%N then
        '(ms, rest) ← parse_members fuel r4; Some ((k, v) :: ms, rest)
      else if (code c =? 125)%N then Some ([(k, v)], r4)
      else None
    else None
  else None.
Proof. reflexivity. Qed.

Lemma concat_cons sep a l :
  l ≠ [] → String.concat sep (a :: l) = a +:+ sep +:+ String.concat sep l.
Proof. by destruct l. Qed.

Lemma token_close ind c rest :
  blank ind = true → is_ws c = false →
  token (String LF (ind +:+ String c rest)) = Some (c, rest).
Proof.
  intros Hind Hc. change (String LF (ind +:+ ?s)) with ((nl +:+ ind) +:+ s).
  rewrite token_blank by (by rewrite blank_app, Hind). by apply token_cons.
Qed.

Local Arguments String.concat : simpl never.
Local Arguments parse_value : simpl never.
Local Arguments parse_elements : simpl never.
Local Arguments parse_members : simpl never.
Local Arguments token : simpl never.
Local Arguments ser_items : simpl never.
Local Arguments ser_members : simpl never.

Lemma parse_elements_items inner ind elems rest fuel :
  Forall (λ x, reads_back x) elems → forallb storable elems = true →
  blank inner = true → blank ind = true → elems ≠ [] →
  sum_list_with (λ x, 2 + weight x) elems ≤ fuel →
  parse_elements fuel
    (String.concat (String "," (String LF inner)) (ser_items inner elems)
     +:+ String LF (ind +:+ String "]" rest))
  = Some (map stored_elem elems, rest).
Proof.
  intros IHs Hst Hin Hind. revert fuel.
  induction IHs as [|x r IHx _ IHr]; [done|]. intros fuel _ Hfuel.
  cbn [forallb] in Hst. apply andb_prop in Hst as [Hx Hr].
  destruct fuel as [|fuel]; [simpl in Hfuel; lia|].
  cbn [sum_list_with] in Hfuel.
  change (ser_items inner (x :: r))
    with (default "null" (SerializeJSONProperty inner x) :: ser_items inner r).
  rewrite parse_elements_S.
  destruct r as [|y r].
  - change (ser_items inner []) with (@nil string).
    change (String.concat ?s [?a]) with a.
    rewrite parse_item by (done || lia). simpl.
    rewrite (token_close ind "]") by done. reflexivity.
  - rewrite concat_cons by done. rewrite !append_assoc.
    rewrite parse_item by (done || lia). simpl.
    change (String LF (inner +:+ ?s)) with ((nl +:+ inner) +:+ s).
    rewrite parse_elements_blank by (by rewrite blank_app, Hin).
    rewrite IHr; [done|done|done|lia].
Qed.

Lemma ser_members_cons inner k x r :
  ser_members inner ((k, x) :: r) =
  match SerializeJSONProperty inner x with
  | Some txt => (QuoteJSONString k +:+ ": " +:+ txt) :: ser_members inner r
  | None => ser_members inner r
  end.
Proof.
  unfold ser_members. cbn [omap list_omap]. simpl.
  by destruct (SerializeJSONProperty inner x).
Qed.

Lemma stored_props_nil inner props :
  ser_members inner props = [] → omap stored_prop props = [].
Proof.
  induction props as [|[k x] r IH]; [done|]. rewrite ser_members_cons.
  destruct (SerializeJSONProperty inner x) eqn:E; [done|].
  apply ser_None in E as ->. exact IH.
Qed.

Lemma parse_members_text inner ind props rest fuel :
  Forall (λ kv, reads_back kv.2) props →
  forallb (λ kv, plain_key kv.1 && storable kv.2) props = true →
  blank inner = true → blank ind = true → ser_members inner props ≠ [] →
  sum_list_with (λ kv, match kv.2 with VUndef => 0 | x => 1 + weight x end) props ≤ fuel →
  parse_members fuel
    (String.concat (String "," (String LF inner)) (ser_members inner props)
     +:+ String LF (ind +:+ String "}" rest))
  = Some (omap stored_prop props, rest).
Proof.
  intros IHs Hst Hin Hind. revert fuel.
  induction IHs as [|[k x] r IHx _ IHr]; [done|]. intros fuel Hne Hfuel.
  cbn [forallb] in Hst. apply andb_prop in Hst as [[_ Hx]%andb_prop Hr].
  cbn [fst snd] in *.
  cbn [sum_list_with snd] in Hfuel.
  rewrite ser_members_cons in *.
  destruct (SerializeJSONProperty inner x) as [txt|] eqn:Htxt.
  2:{ apply ser_None in Htxt as ->. apply IHr; done. }
  assert (Hsx : stored_prop (k, x) = Some (k, stored x)).
  { destruct x; try done. }
  cbn [omap list_omap]. rewrite Hsx.
  assert (Hw : 1 + weight x ≤ fuel) by (destruct x; try done; lia).
  destruct fuel as [|fuel]; [lia|].
  rewrite parse_members_S.
  assert (Hread : ∀ tail,
    parse_value fuel (String " " (txt +:+ tail)) = Some (stored x, tail)).
  { intros tail. change (String " " (txt +:+ tail)) with (" " +:+ txt +:+ tail).
    rewrite parse_value_blank by done.
    apply (IHx Hx inner txt fuel tail Hin Htxt). lia. }
  destruct (ser_members inner r) as [|m ms] eqn:Hms.
  - change (String.concat ?s [?a]) with a.
    unfold QuoteJSONString. rewrite !append_assoc. simpl.
    rewrite parse_string_quote. simpl.
    rewrite Hread. simpl. rewrite (token_close ind "}") by done. simpl.
    by rewrite (stored_props_nil inner r).
  - rewrite concat_cons by done.
    unfold QuoteJSONString. rewrite !append_assoc. simpl.
    rewrite parse_string_quote. simpl.
    rewrite Hread. simpl.
    change (String LF (inner +:+ ?s)) with ((nl +:+ inner) +:+ s).
    rewrite parse_members_blank by (by rewrite blank_app, Hin).
    rewrite IHr; [done|done|done|].
    destruct x; try done; lia.
Qed.

Lemma foldl_define_prop acc ms :
  NoDup (acc ++ ms).*1 → forallb (λ kv, plain_key kv.1) ms = true →
  foldl define_prop acc ms = acc ++ ms.
Proof.
  revert acc. induction ms as [|[k v] ms IH]; intros acc Hnd Hpl.
  - by rewrite app_nil_r.
  - cbn [forallb fst] in Hpl. apply andb_prop in Hpl as [Hk Hpl].
    cbn [foldl]. unfold define_prop at 2.
    assert (Hnot : has_key k acc = false).
    { rewrite fmap_app in Hnd. apply NoDup_app in Hnd as (_ & Hdisj & _).
      clear -Hdisj. induction acc as [|[k' v'] acc IHacc]; [done|]. simpl.
      destruct (String.eqb_spec k k') as [->|Hne].
      - exfalso. apply (Hdisj k'); simpl; left.
      - apply IHacc. intros z Hz. apply Hdisj. by right. }
    rewrite Hnot. unfold plain_key in Hk.
    destruct (array_index k); [done|].
    rewrite IH; [by rewrite <- app_assoc| by rewrite <- app_assoc | done].
Qed.

Lemma parse_value_S fuel s :
  parse_value (S fuel) s =
  '(c, r) ← token s;
  if (code c =? 91)%N then
    '(c', r') ← token r;
    if (code c' =? 93)%N then Some (VArr [], r')
    else '(vs, rest) ← parse_elements fuel r; Some (VArr vs, rest)
  else if (code c =? 123)%N then
    '(c', r') ← token r;
    if (code c' =? 125)%N then Some (VObj [], r')
    else '(ms, rest) ← parse_members fuel r; Some (object_of ms, rest)
  else if (code c =? 34)%N then
    '(str, rest) ← parse_string r; Some (VStr str, rest)
  else parse_literal (String c r).
Proof. reflexivity. Qed.

Lemma wrap_head open close ind inner partial :
  ∃ t, wrap (String open "") close ind inner partial = String open t.
Proof. destruct partial; simpl; eauto. Qed.

Lemma ser_head ind v txt :
  storable v = true → SerializeJSONProperty ind v = Some txt →
  ∃ c t, txt = String c t ∧ is_ws c = false ∧ (code c =? 93)%N = false.
Proof.
  intros Hst Htxt. destruct v as [| |[]| | | |]; try done.
  1-4: injection Htxt as <-; eexists _, _; split; [reflexivity|done].
  - rewrite ser_arr in Htxt. injection Htxt as <-.
    destruct (wrap_head "[" "]" ind (ind +:+ gap) (ser_items (ind +:+ gap) elems)) as [t ->].
    eexists _, _; split; [reflexivity|done].
  - rewrite ser_obj in Htxt. injection Htxt as <-.
    destruct (wrap_head "{" "}" ind (ind +:+ gap) (ser_members (ind +:+ gap) props)) as [t ->].
    eexists _, _; split; [reflexivity|done].
Qed.

Lemma stored_prop_key k x k' x' : stored_prop (k, x) = Some (k', x') → k' = k.
Proof. unfold stored_prop. cbn [fst snd]. destruct x; intros [= <- _]; done. Qed.

Lemma stored_props_keys props :
  sublist (omap stored_prop props).*1 props.*1.
Proof.
  induction props as [|[k x] r IH]; [done|]. cbn [omap list_omap].
  destruct (stored_prop (k, x)) as [[k' x']|] eqn:E.
  - apply stored_prop_key in E as ->.
    cbn [fmap list_fmap fst]. by apply sublist_skip.
  - cbn [fmap list_fmap fst]. by apply sublist_cons.
Qed.

Lemma stored_props_plain props :
  forallb (λ kv, plain_key kv.1 && storable kv.2) props = true →
  forallb (λ kv, plain_key kv.1) (omap stored_prop props) = true.
Proof.
  induction props as [|[k x] r IH]; [done|]. cbn [forallb fst snd].
  intros [[Hk _]%andb_prop Hr]%andb_prop. cbn [omap list_omap].
  destruct (stored_prop (k, x)) as [[k' x']|] eqn:E; [|by apply IH].
  apply stored_prop_key in E as ->.
  cbn [forallb fst]. by rewrite Hk, IH.
Qed.


Lemma concat_head sep a l c t :
  a = String c t → ∃ t', String.concat sep (a :: l) = String c t'.
Proof. intros ->. destruct l; cbn [String.concat]; simpl; eauto. Qed.

Lemma item_head inner x :
  storable x = true →
  ∃ c t, default "null" (SerializeJSONProperty inner x) = String c t
         ∧ is_ws c = false ∧ (code c =? 93)%N = false.
Proof.
  intros Hx. destruct (SerializeJSONProperty inner x) as [txt|] eqn:E.
  - by apply (ser_head inner x).
  - by exists "n"%char, "ull".
Qed.

Theorem parse_serialized v : reads_back v.
Proof.
  induction v as [| |b|lit|s|elems IH|props IH] using value_nested_ind;
    intros Hst ind txt fuel rest Hind Htxt Hfuel; try done.
  - injection Htxt as <-. destruct fuel; [simpl in Hfuel; lia|]. reflexivity.
  - destruct fuel; [simpl in Hfuel; lia|]. by destruct b; injection Htxt as <-.
  - injection Htxt as <-. destruct fuel; [simpl in Hfuel; lia|].
    unfold QuoteJSONString. rewrite !append_assoc, parse_value_S. simpl.
    by rewrite parse_string_quote.
  - rewrite ser_arr in Htxt. injection Htxt as <-.
    rewrite stored_arr. rewrite weight_arr in Hfuel.
    destruct fuel as [|fuel]; [lia|].
    destruct elems as [|x r]; [reflexivity|].
    assert (Hin : blank (ind +:+ gap) = true) by (by rewrite blank_app, Hind).
    change (storable (VArr (x :: r))) with (forallb storable (x :: r)) in Hst.
    generalize dependent (ind +:+ gap). intros inner Hin.
    unfold wrap.
    change (ser_items inner (x :: r))
      with (default "null" (SerializeJSONProperty inner x) :: ser_items inner r) at 1.
    cbv iota.
    destruct (item_head inner x) as (c & t & Hitem & Hc & Hclose).
    { by apply andb_prop in Hst as [? _]. }
    destruct (concat_head (String "," (String LF inner)) _ (ser_items inner r) c t Hitem)
      as [t' Hcat].
    change (?a :: ser_items inner r) with (ser_items inner (x :: r)) in Hcat.
    rewrite parse_value_S. rewrite !append_assoc. simpl.
    change (String LF (inner +:+ ?s)) with ((nl +:+ inner) +:+ s).
    rewrite token_blank by (by rewrite blank_app, Hin).
    rewrite parse_elements_blank by (by rewrite blank_app, Hin).
    rewrite Hcat at 1. simpl. rewrite token_cons by done. simpl. rewrite Hclose.
    rewrite parse_elements_items; [done..|lia].
  - rewrite ser_obj in Htxt. injection Htxt as <-.
    rewrite stored_obj. rewrite weight_obj in Hfuel.
    destruct fuel as [|fuel]; [lia|].
    assert (Hin : blank (ind +:+ gap) = true) by (by rewrite blank_app, Hind).
    change (storable (VObj props))
      with (forallb (λ kv, plain_key kv.1 && storable kv.2) props
            && bool_decide (NoDup props.*1)) in Hst.
    apply andb_prop in Hst as [Hst Hnd]. apply bool_decide_eq_true in Hnd.
    generalize dependent (ind +:+ gap). intros inner Hin.
    assert (Hobj : object_of (omap stored_prop props) = VObj (omap stored_prop props)).
    { unfold object_of. rewrite foldl_define_prop; [done| |by apply stored_props_plain].
      eapply sublist_NoDup; [|apply stored_props_keys]; done. }
    unfold wrap.
    destruct (ser_members inner props) as [|m ms] eqn:Hms.
    { rewrite (stored_props_nil inner props) by done. reflexivity. }
    rewrite <- Hms.
    assert (Hcat : ∃ t', String.concat (String "," (String LF inner)) (ser_members inner props)
                         = String DQ t').
    { rewrite Hms. clear -Hms. revert m ms Hms.
      induction props as [|[k x] r IHr]; [done|]. intros m ms.
      rewrite ser_members_cons. destruct (SerializeJSONProperty inner x); [|by apply IHr].
      intros [= <- <-]. by eapply concat_head. }
    destruct Hcat as [t' Hcat].
    rewrite parse_value_S. rewrite !append_assoc. simpl.
    change (String LF (inner +:+ ?s)) with ((nl +:+ inner) +:+ s).
    rewrite token_blank by (by rewrite blank_app, Hin).
    rewrite parse_members_blank by (by rewrite blank_app, Hin).
    rewrite Hcat at 1. simpl.
    rewrite parse_members_text; [|done..|by rewrite Hms|lia].
    simpl. by rewrite Hobj.
Qed.

Local Abbreviation fits x :=
  (storable x = true → ∀ ind txt,
     SerializeJSONProperty ind x = Some txt → weight x ≤ String.length txt).

Lemma length_concat_cons sep a l :
  l ≠ [] →
  String.length (String.concat sep (a :: l))
  = String.length a + String.length sep + String.length (String.concat sep l).
Proof. intros Hl. rewrite concat_cons by done. rewrite !length_append. lia. Qed.

Lemma items_fit inner elems :
  Forall (λ x, fits x) elems → forallb storable elems = true →
  sum_list_with (λ x, 2 + weight x) elems ≤
  match ser_items inner elems with
  | [] => 0
  | items => 2 + String.length (String.concat (String "," (String LF inner)) items)
  end.
Proof.
  induction 1 as [|x r IHx _ IHr]; [done|]. cbn [forallb].
  intros [Hx Hr]%andb_prop. specialize (IHr Hr).
  change (ser_items inner (x :: r))
    with (default "null" (SerializeJSONProperty inner x) :: ser_items inner r).
  cbn [sum_list_with].
  assert (Hitem : weight x ≤ String.length (default "null" (SerializeJSONProperty inner x))).
  { destruct (SerializeJSONProperty inner x) as [txt|] eqn:E; simpl.
    - by apply (IHx Hx inner).
    - apply ser_None in E as ->. simpl. lia. }
  destruct r as [|y r].
  - change (ser_items inner []) with (@nil string).
    change (String.concat ?s [?a]) with a. simpl. lia.
  - rewrite length_concat_cons by done.
    change (ser_items inner (y :: r))
      with (default "null" (SerializeJSONProperty inner y) :: ser_items inner r) in IHr.
    cbv iota in IHr.
    change (?a :: ser_items inner r) with (ser_items inner (y :: r)) in IHr.
    cbn [String.length]. lia.
Qed.

Lemma members_fit inner props :
  Forall (λ kv, fits kv.2) props →
  forallb (λ kv, plain_key kv.1 && storable kv.2) props = true →
  sum_list_with (λ kv, match kv.2 with VUndef => 0 | x => 1 + weight x end) props ≤
  match ser_members inner props with
  | [] => 0
  | members => 2 + String.length (String.concat (String "," (String LF inner)) members)
  end.
Proof.
  induction 1 as [|[k x] r IHx _ IHr]; [done|]. cbn [forallb fst snd] in *.
  intros [[_ Hx]%andb_prop Hr]%andb_prop. specialize (IHr Hr).
  rewrite ser_members_cons. cbn [sum_list_with snd].
  destruct (SerializeJSONProperty inner x) as [txt|] eqn:E.
  2:{ apply ser_None in E as ->. exact IHr. }
  match goal with |- ?cx + _ ≤ _ => assert (Hw : cx ≤ 1 + String.length txt) end.
  { specialize (IHx Hx inner txt E). destruct x; cbv iota; lia. }
  assert (Hm : 4 + String.length txt
               ≤ String.length (QuoteJSONString k +:+ ": " +:+ txt)).
  { unfold QuoteJSONString. rewrite !length_append. simpl. lia. }
  destruct (ser_members inner r) as [|m ms]; cbv iota in IHr.
  - change (String.concat ?s [?a]) with a. lia.
  - rewrite length_concat_cons by done. cbn [String.length]. lia.
Qed.

Lemma length_wrap o c ind inner partial :
  partial ≠ [] →
  String.length (wrap (String o "") (String c "") ind inner partial)
  = 4 + String.length inner + String.length ind
    + String.length (String.concat ("," +:+ nl +:+ inner) partial).
Proof.
  intros Hp. unfold wrap. destruct partial; [done|].
  rewrite !length_append. simpl. lia.
Qed.

Theorem weight_fits v : fits v.
Proof.
  induction v as [| |b|lit|s|elems IH|props IH] using value_nested_ind;
    intros Hst ind txt Htxt; try done.
  - injection Htxt as <-. simpl. lia.
  - destruct b; injection Htxt as <-; simpl; lia.
  - injection Htxt as <-. unfold QuoteJSONString. rewrite !length_append. simpl. lia.
  - rewrite ser_arr in Htxt. injection Htxt as <-. rewrite weight_arr.
    change (storable (VArr elems)) with (forallb storable elems) in Hst.
    pose proof (items_fit (ind +:+ gap) elems IH Hst) as Hfit.
    destruct (ser_items (ind +:+ gap) elems) as [|i rest_items] eqn:E.
    + cbv iota in Hfit. change (String.length (wrap ?a ?b ?c ?d [])) with 2. lia.
    + cbv iota in Hfit. rewrite length_wrap by done.
      change (String.length (String.concat ?s ?l)) with (String.length (String.concat ("," +:+ nl +:+ ind +:+ gap) l)) in Hfit. lia.
  - rewrite ser_obj in Htxt. injection Htxt as <-. rewrite weight_obj.
    change (storable (VObj props))
      with (forallb (λ kv, plain_key kv.1 && storable kv.2) props
            && bool_decide (NoDup props.*1)) in Hst.
    apply andb_prop in Hst as [Hst _].
    pose proof (members_fit (ind +:+ gap) props IH Hst) as Hfit.
    destruct (ser_members (ind +:+ gap) props) as [|i rest_items] eqn:E.
    + cbv iota in Hfit. change (String.length (wrap ?a ?b ?c ?d [])) with 2. lia.
    + cbv iota in Hfit. rewrite length_wrap by done.
      change (String.length (String.concat ?s ?l)) with (String.length (String.concat ("," +:+ nl +:+ ind +:+ gap) l)) in Hfit. lia.
Qed.

(** Reading back the text that [stringify] wrote. *)
Theorem parse_stringify v txt :
  storable v = true → stringify v = Some txt → parse txt = Some (stored v).
Proof.
  intros Hst Htxt. unfold parse.
  rewrite <- (append_nil_r txt) at 2.
  rewrite (parse_serialized v Hst "" txt (S (String.length txt)) "" eq_refl Htxt).
  - reflexivity.
  - pose proof (weight_fits v Hst "" txt Htxt). lia.
Qed.
End facts.

(** *** The fuel of the reader *)

Section fuel.
Context `{Platform}.

Local Arguments parse_value : simpl never.
Local Arguments parse_elements : simpl never.
Local Arguments parse_members : simpl never.

(** More fuel reads the same. *)
Lemma parse_more_fuel f :
  (∀ s r f', f ≤ f' → parse_value f s = Some r → parse_value f' s = Some r)
  ∧ (∀ s r f', f ≤ f' → parse_elements f s = Some r → parse_elements f' s = Some r)
  ∧ (∀ s r f', f ≤ f' → parse_members f s = Some r → parse_members f' s = Some r).
Proof.
  induction f as [|f (IHv & IHe & IHm)]; [by repeat split|].
  repeat split; intros s r [|f'] Hle; try lia; assert (Hf : f ≤ f') by lia.
  - rewrite !parse_value_S. destruct (token s) as [[c t]|]; [|done].
    cbn [mbind option_bind].
    destruct (code c =? 91)%N.
    { destruct (token t) as [[c' t']|]; [|done]. cbn [mbind option_bind].
      destruct (code c' =? 93)%N; [done|].
      destruct (parse_elements f t) as [vs|] eqn:E; [|done].
      by rewrite (IHe _ _ f' Hf E). }
    destruct (code c =? 123)%N; [|done].
    destruct (token t) as [[c' t']|]; [|done]. cbn [mbind option_bind].
    destruct (code c' =? 125)%N; [done|].
    destruct (parse_members f t) as [ms|] eqn:E; [|done].
    by rewrite (IHm _ _ f' Hf E).
  - rewrite !parse_elements_S.
    destruct (parse_value f s) as [[v t]|] eqn:E; [|done].
    rewrite (IHv _ _ f' Hf E). cbn [mbind option_bind].
    destruct (token t) as [[c t']|]; [|done]. cbn [mbind option_bind].
    destruct (code c =? 44)%N; [|done].
    destruct (parse_elements f t') as [vs|] eqn:E'; [|done].
    by rewrite (IHe _ _ f' Hf E').
  - rewrite !parse_members_S. destruct (token s) as [[q t]|]; [|done].
    cbn [mbind option_bind]. destruct (code q =? 34)%N; [|done].
    destruct (parse_string t) as [[k t1]|]; [|done]. cbn [mbind option_bind].
    destruct (token t1) as [[colon t2]|]; [|done]. cbn [mbind option_bind].
    destruct (code colon =? 58)%N; [|done].
    destruct (parse_value f t2) as [[v t3]|] eqn:E; [|done].
    rewrite (IHv _ _ f' Hf E). cbn [mbind option_bind].
    destruct (token t3) as [[c t4]|]; [|done]. cbn [mbind option_bind].
    destruct (code c =? 44)%N; [|done].
    destruct (parse_members f t4) as [ms|] eqn:E'; [|done].
    by rewrite (IHm _ _ f' Hf E').
Qed.

Lemma skip_ws_length s : String.length (skip_ws s) ≤ String.length s.
Proof. induction s as [|c s IH]; simpl; [done|]. destruct (is_ws c); simpl; lia. Qed.

Lemma token_length s c r : token s = Some (c, r) → String.length r < String.length s.
Proof.
  unfold token. pose proof (skip_ws_length s) as Hle.
  destruct (skip_ws s); [done|]. intros [= <- <-]. simpl in Hle. lia.
Qed.

Lemma parse_items_length s l rest :
  parse_items s = Some (l, rest) → String.length rest < String.length s.
Proof.
  remember (String.length s) as n eqn:Hn. revert s l rest Hn.
  induction n as [n IH] using lt_wf_ind. intros s l rest ->.
  destruct s as [|c s]; [done|]. cbn [parse_items].
  destruct (code c =? 34)%N; [intros [= <- <-]; simpl; lia|].
  destruct (code c =? 92)%N.
  - destruct s as [|e s1]; [done|]. destruct (unescape e).
    + destruct (parse_items s1) as [[l1 rest1]|] eqn:E; [|done]. intros [= <- <-].
      apply (IH (String.length s1)) in E; simpl in *; try done; lia.
    + destruct (code e =? 117)%N; [|done].
      destruct s1 as [|h1 [|h2 [|h3 [|h4 s2]]]]; try done.
      destruct (hex4 h1 h2 h3 h4); [|done].
      destruct (parse_items s2) as [[l1 rest1]|] eqn:E; [|done]. intros [= <- <-].
      apply (IH (String.length s2)) in E; simpl in *; try done; lia.
  - destruct (code c <? 32)%N; [done|].
    destruct (parse_items s) as [[l1 rest1]|] eqn:E; [|done]. intros [= <- <-].
    apply (IH (String.length s)) in E; simpl in *; try done; lia.
Qed.

Lemma parse_string_length s str rest :
  parse_string s = Some (str, rest) → String.length rest < String.length s.
Proof.
  unfold parse_string. destruct (parse_items s) as [[l r]|] eqn:E; [|done].
  intros [= <- <-]. by eapply parse_items_length.
Qed.

Lemma strip_prefix_length p s r :
  strip_prefix p s = Some r → String.length s = String.length p + String.length r.
Proof.
  revert s. induction p as [|a p IH]; intros s; simpl.
  - by intros [= ->].
  - destruct s as [|b s]; [done|]. destruct (Ascii.eqb a b); [|done].
    intros Hr. simpl. by rewrite (IH s Hr).
Qed.

Lemma span_digits_length s ds rest :
  span_digits s = (ds, rest) → String.length rest ≤ String.length s.
Proof.
  revert ds rest. induction s as [|c s IH]; intros ds rest; cbn [span_digits].
  - by intros [= <- <-].
  - destruct (is_digit c).
    + destruct (span_digits s) as [d r]. intros [= <- <-]. specialize (IH d r eq_refl).
      simpl. lia.
    + intros [= <- <-]. lia.
Qed.

Lemma lex_number_length s lit rest :
  lex_number s = Some (lit, rest) → String.length rest < String.length s.
Proof.
  unfold lex_number.
  set (signed := match s with String "-" r => ("-", r) | _ => ("", s) end).
  assert (Hs : String.length signed.2 ≤ String.length s).
  { subst signed. destruct s as [|c s]; [done|].
    destruct (Ascii.eqb_spec c "-") as [->|Hc]; [simpl; lia|].
    destruct c as [[] [] [] [] [] [] [] []]; simpl; try lia. }
  destruct signed as [minus s0]. cbn [snd] in Hs.
  assert (Hint : ∀ i s1, lex_int s0 = Some (i, s1) → String.length s1 < String.length s0).
  { intros i s1. unfold lex_int. destruct s0 as [|c s0]; [done|].
    destruct (code c =? 48)%N; [intros [= <- <-]; simpl; lia|].
    destruct (is_digit c); [|done]. destruct (span_digits s0) as [ds r] eqn:E.
    intros [= <- <-]. apply span_digits_length in E. simpl. lia. }
  assert (Hfrac : ∀ s1 f s2, lex_frac s1 = Some (f, s2) → String.length s2 ≤ String.length s1).
  { intros s1 f s2. unfold lex_frac. destruct s1 as [|c s1]; [by intros [= <- <-]|].
    destruct (Ascii.eqb_spec c ".") as [->|Hc].
    - destruct (span_digits s1) as [ds r] eqn:E. apply span_digits_length in E.
      destruct ds; [done|]. intros [= <- <-]. simpl. lia.
    - destruct c as [[] [] [] [] [] [] [] []]; try (by intros [= <- <-]). done. }
  assert (Hexp : ∀ s2 e s3, lex_exp s2 = Some (e, s3) → String.length s3 ≤ String.length s2).
  { intros s2 e s3. unfold lex_exp. destruct s2 as [|c s2]; [by intros [= <- <-]|].
    destruct (_ || _)%N; [|by intros [= <- <-]].
    set (sg := match s2 with
               | String g r' => if ((code g =? 43) || (code g =? 45))%N
                                then (String g "", r') else ("", s2)
               | "" => ("", s2)
               end).
    assert (Hsg : String.length sg.2 ≤ String.length s2).
    { subst sg. destruct s2 as [|g s2]; [done|]. destruct (_ || _)%N; simpl; lia. }
    destruct sg as [sign r1]. cbn [snd] in Hsg.
    destruct (span_digits r1) as [ds r] eqn:E. apply span_digits_length in E.
    destruct ds; [done|]. intros [= <- <-]. simpl. lia. }
  destruct (lex_int s0) as [[i s1]|] eqn:Ei; [|done].
  destruct (lex_frac s1) as [[f s2]|] eqn:Ef; [|done].
  destruct (lex_exp s2) as [[e s3]|] eqn:Ee; [|done].
  intros [= <- <-]. specialize (Hint _ _ eq_refl).
  apply Hfrac in Ef. apply Hexp in Ee. lia.
Qed.

Lemma parse_literal_length s v rest :
  parse_literal s = Some (v, rest) → String.length rest < String.length s.
Proof.
  unfold parse_literal.
  destruct (strip_prefix "true" s) as [r|] eqn:E1.
  { intros [= <- <-]. apply strip_prefix_length in E1. simpl in E1. lia. }
  destruct (strip_prefix "false" s) as [r|] eqn:E2.
  { intros [= <- <-]. apply strip_prefix_length in E2. simpl in E2. lia. }
  destruct (strip_prefix "null" s) as [r|] eqn:E3.
  { intros [= <- <-]. apply strip_prefix_length in E3. simpl in E3. lia. }
  destruct (lex_number s) as [[lit r]|] eqn:E4; [|done].
  intros [= <- <-]. by eapply lex_number_length.
Qed.


(** A reading takes no more fuel than the characters it passes. *)
Lemma parse_fuel_consumed f :
  (∀ s v rest, parse_value f s = Some (v, rest) →
     String.length rest < String.length s
     ∧ ∀ k, String.length s ≤ k + String.length rest → parse_value k s = Some (v, rest))
  ∧ (∀ s vs rest, parse_elements f s = Some (vs, rest) →
       String.length rest < String.length s
       ∧ ∀ k, String.length s ≤ k + String.length rest →
              parse_elements k s = Some (vs, rest))
  ∧ (∀ s ms rest, parse_members f s = Some (ms, rest) →
       String.length rest < String.length s
       ∧ ∀ k, String.length s ≤ k + String.length rest →
              parse_members k s = Some (ms, rest)).
Proof.
  induction f as [|f (IHv & IHe & IHm)]; [by repeat split|].
  split; [|split].
  - intros s v rest. rewrite parse_value_S.
    destruct (token s) as [[c t]|] eqn:Ht; [|done].
    pose proof (token_length _ _ _ Ht) as Hlt. cbn [mbind option_bind].
    destruct (code c =? 91)%N eqn:E91.
    { destruct (token t) as [[c' t']|] eqn:Ht'; [|done].
      pose proof (token_length _ _ _ Ht') as Hlt'. cbn [mbind option_bind].
      destruct (code c' =? 93)%N eqn:E93.
      - intros [= <- <-]. split; [lia|]. intros [|k] Hk; [lia|].
        rewrite parse_value_S, Ht. cbn [mbind option_bind]. rewrite E91, Ht'.
        cbn [mbind option_bind]. by rewrite E93.
      - destruct (parse_elements f t) as [[vs rest0]|] eqn:E; [|done].
        intros [= <- <-]. destruct (IHe _ _ _ E) as [Hr Hk0]. split; [lia|].
        intros [|k] Hk; [lia|].
        rewrite parse_value_S, Ht. cbn [mbind option_bind]. rewrite E91, Ht'.
        cbn [mbind option_bind]. rewrite E93, Hk0 by lia. done. }
    destruct (code c =? 123)%N eqn:E123.
    { destruct (token t) as [[c' t']|] eqn:Ht'; [|done].
      pose proof (token_length _ _ _ Ht') as Hlt'. cbn [mbind option_bind].
      destruct (code c' =? 125)%N eqn:E125.
      - intros [= <- <-]. split; [lia|]. intros [|k] Hk; [lia|].
        rewrite parse_value_S, Ht. cbn [mbind option_bind]. rewrite E91, E123, Ht'.
        cbn [mbind option_bind]. by rewrite E125.
      - destruct (parse_members f t) as [[ms rest0]|] eqn:E; [|done].
        intros [= <- <-]. destruct (IHm _ _ _ E) as [Hr Hk0]. split; [lia|].
        intros [|k] Hk; [lia|].
        rewrite parse_value_S, Ht. cbn [mbind option_bind]. rewrite E91, E123, Ht'.
        cbn [mbind option_bind]. rewrite E125, Hk0 by lia. done. }
    destruct (code c =? 34)%N eqn:E34.
    { destruct (parse_string t) as [[str rest0]|] eqn:E; [|done].
      intros [= <- <-]. pose proof (parse_string_length _ _ _ E). split; [lia|].
      intros [|k] Hk; [lia|].
      rewrite parse_value_S, Ht. cbn [mbind option_bind]. by rewrite E91, E123, E34, E. }
    intros Hlit. pose proof (parse_literal_length _ _ _ Hlit) as Hl.
    assert (String.length (String c t) ≤ String.length s).
    { unfold token in Ht. pose proof (skip_ws_length s).
      destruct (skip_ws s); [done|]. by injection Ht as -> ->. }
    split; [lia|]. intros [|k] Hk; [lia|].
    rewrite parse_value_S, Ht. cbn [mbind option_bind]. by rewrite E91, E123, E34.
  - intros s vs rest. rewrite parse_elements_S.
    destruct (parse_value f s) as [[v t]|] eqn:E; [|done]. cbn [mbind option_bind].
    destruct (IHv _ _ _ E) as [Hv Hkv].
    destruct (token t) as [[c t']|] eqn:Ht; [|done].
    pose proof (token_length _ _ _ Ht) as Hlt. cbn [mbind option_bind].
    destruct (code c =? 44)%N eqn:E44.
    + destruct (parse_elements f t') as [[vs' rest0]|] eqn:E'; [|done].
      intros [= <- <-]. destruct (IHe _ _ _ E') as [Hr Hk0]. split; [lia|].
      intros [|k] Hk; [lia|].
      rewrite parse_elements_S, Hkv by lia. cbn [mbind option_bind]. rewrite Ht.
      cbn [mbind option_bind]. rewrite E44, Hk0 by lia. done.
    + destruct (code c =? 93)%N eqn:E93; [|done]. intros [= <- <-]. split; [lia|].
      intros [|k] Hk; [lia|].
      rewrite parse_elements_S, Hkv by lia. cbn [mbind option_bind]. rewrite Ht.
      cbn [mbind option_bind]. by rewrite E44, E93.
  - intros s ms rest. rewrite parse_members_S.
    destruct (token s) as [[q t]|] eqn:Hq; [|done].
    pose proof (token_length _ _ _ Hq) as Hlq. cbn [mbind option_bind].
    destruct (code q =? 34)%N eqn:E34; [|done].
    destruct (parse_string t) as [[key t1]|] eqn:Ekey; [|done].
    pose proof (parse_string_length _ _ _ Ekey) as Hlk. cbn [mbind option_bind].
    destruct (token t1) as [[colon t2]|] eqn:Hcolon; [|done].
    pose proof (token_length _ _ _ Hcolon) as Hlc. cbn [mbind option_bind].
    destruct (code colon =? 58)%N eqn:E58; [|done].
    destruct (parse_value f t2) as [[v t3]|] eqn:E; [|done]. cbn [mbind option_bind].
    destruct (IHv _ _ _ E) as [Hv Hkv].
    destruct (token t3) as [[c t4]|] eqn:Ht; [|done].
    pose proof (token_length _ _ _ Ht) as Hlt. cbn [mbind option_bind].
    destruct (code c =? 44)%N eqn:E44.
    + destruct (parse_members f t4) as [[ms' rest0]|] eqn:E'; [|done].
      intros [= <- <-]. destruct (IHm _ _ _ E') as [Hr Hk0]. split; [lia|].
      intros [|k] Hk; [lia|].
      rewrite parse_members_S, Hq. cbn [mbind option_bind]. rewrite E34, Ekey.
      cbn [mbind option_bind]. rewrite Hcolon. cbn [mbind option_bind].
      rewrite E58, Hkv by lia. cbn [mbind option_bind]. rewrite Ht.
      cbn [mbind option_bind]. rewrite E44, Hk0 by lia. done.
    + destruct (code c =? 125)%N eqn:E125; [|done]. intros [= <- <-]. split; [lia|].
      intros [|k] Hk; [lia|].
      rewrite parse_members_S, Hq. cbn [mbind option_bind]. rewrite E34, Ekey.
      cbn [mbind option_bind]. rewrite Hcolon. cbn [mbind option_bind].
      rewrite E58, Hkv by lia. cbn [mbind option_bind]. rewrite Ht.
      cbn [mbind option_bind]. by rewrite E44, E125.
Qed.

(** The fuel of [parse] is enough for every text: a text that some amount
    of fuel reads, [parse] reads. *)
Theorem parse_fuel_enough s fuel v rest :
  parse_value fuel s = Some (v, rest) → skip_ws rest = "" → parse s = Some v.
Proof.
  intros Hv Hrest. unfold parse.
  destruct (proj1 (parse_fuel_consumed fuel) _ _ _ Hv) as [_ Hk].
  rewrite (Hk (S (String.length s))) by lia. cbn [mbind option_bind]. by rewrite Hrest.
Qed.

End fuel.

End JSONFacts.

(** ** The script *)

Module AppFacts.
Import JSON TextFacts JSONFacts App.

(** *** The URL pattern *)

Section matching.

Lemma strip_prefix_Some p s r : strip_prefix p s = Some r → s = p +:+ r.
Proof.
  revert s. induction p as [|a p IH]; intros [|b s]; simpl; try congruence.
  destruct (Ascii.eqb_spec a b) as [->|]; [|done]. intros Hr. by rewrite (IH s Hr).
Qed.

Lemma span_nonspace_app s token rest :
  span_nonspace s = (token, rest) → s = token +:+ rest.
Proof.
  revert token rest. induction s as [|c s IH]; intros token rest.
  - by intros [= <- <-].
  - cbn [span_nonspace]. destruct (space_width (String c s)).
    + destruct (span_nonspace s) as [t r]. intros [= <- <-]. by rewrite (IH t r).
    + by intros [= <- <-].
Qed.

(** What the pattern matches at the head of a text: the scheme, the host
    with or without [www.], the path and a token that is not empty. *)
Lemma linkedinUrlRegex_here_shape s url :
  linkedinUrlRegex_here s = Some url →
  ∃ www token rest,
    (www = "www." ∨ www = "") ∧ token ≠ ""
    ∧ url = "https://" +:+ www +:+ "linkedin.com/posts/" +:+ token
    ∧ s = url +:+ rest
    ∧ span_nonspace (token +:+ rest) = (token, rest).
Proof.
  unfold linkedinUrlRegex_here.
  destruct (strip_prefix "https://" s) as [r0|] eqn:H0; [|done]. cbn [mbind option_bind].
  apply strip_prefix_Some in H0 as ->.
  assert (Hpath : ∀ www r, 
    (strip_prefix "linkedin.com/posts/" r ≫= λ rest,
       match span_nonspace rest with
       | ("", _) => None
       | (token, _) => Some ("https://" +:+ www +:+ "linkedin.com/posts/" +:+ token)
       end) = Some url →
    ∃ token rest, token ≠ ""
      ∧ url = "https://" +:+ www +:+ "linkedin.com/posts/" +:+ token
      ∧ r = "linkedin.com/posts/" +:+ token +:+ rest
      ∧ span_nonspace (token +:+ rest) = (token, rest)).
  { intros www r. destruct (strip_prefix "linkedin.com/posts/" r) as [r1|] eqn:H1; [|done].
    cbn [mbind option_bind]. apply strip_prefix_Some in H1 as ->.
    destruct (span_nonspace r1) as [token rest] eqn:Hspan.
    pose proof (span_nonspace_app _ _ _ Hspan) as ->.
    destruct token as [|c token]; [done|]. intros [= <-].
    by exists (String c token), rest. }
  destruct (strip_prefix "www." r0) as [r1|] eqn:Hwww; cbn [mbind option_bind].
  - apply strip_prefix_Some in Hwww as ->.
    destruct (_ ≫= _) as [url'|] eqn:Hw.
    + intros [= ->]. destruct (Hpath "www." r1 Hw) as (token & rest & Hne & -> & -> & Hspan).
      exists "www.", token, rest. split; [by left|]. split; [done|]. split; [done|].
      split; [|done]. by rewrite !append_assoc.
    + intros Hno. destruct (Hpath "" _ Hno) as (token & rest & _ & _ & Hr & _). done.
  - intros Hno. destruct (Hpath "" r0 Hno) as (token & rest & Hne & -> & -> & Hspan).
    exists "", token, rest. split; [by right|]. split; [done|]. split; [done|].
    split; [|done]. by rewrite !append_assoc.
Qed.

Lemma linkedinUrlRegex_scan_skip a rest :
  linkedinUrlRegex_scan (String.length a) (a +:+ rest) = linkedinUrlRegex_scan 0 rest.
Proof.
  induction a as [|c a IH]; [by destruct rest|]. cbn [String.length]. simpl. exact IH.
Qed.

(** The scan finds the matches of a global search, in the order of the
    text. *)
Theorem linkedinUrlRegex_scan_matches text :
  matches_in text (linkedinUrlRegex_scan 0 text).
Proof.
  remember (String.length text) as n eqn:Hn. revert text Hn.
  induction n as [n IH] using lt_wf_ind. intros text ->.
  destruct text as [|c r]; [constructor|]. cbn [linkedinUrlRegex_scan].
  destruct (linkedinUrlRegex_here (String c r)) as [url|] eqn:Hhere.
  - destruct (linkedinUrlRegex_here_shape _ _ Hhere)
      as (www & token & rest & _ & Hne & Hurl & Hs & _).
    assert (Hurl' : ∃ u, url = String c u).
    { destruct url as [|c' u]; [by rewrite Hurl in *; destruct www as [|]|].
      injection Hs as -> _. by exists u. }
    destruct Hurl' as [u ->]. injection Hs as ->.
    replace (String.length (String c u) - 1) with (String.length u) by (cbn; lia).
    rewrite linkedinUrlRegex_scan_skip.
    change (String c (u +:+ rest)) with (String c u +:+ rest) in *.
    apply matches_take; [done|done|].
    apply (IH (String.length rest)); [|done].
    rewrite length_append. cbn [String.length]. lia.
  - apply matches_pass; [done|]. apply (IH (String.length r)); [cbn; lia|done].
Qed.

End matching.

Section facts.
Context `{Platform} (env : Env).

Lemma stored_defined v : defined v = true → stored v = v.
Proof.
  induction v as [| |b|lit|s|elems IH|props IH] using value_nested_ind; try done.
  - change (defined (VArr elems)) with (forallb defined elems).
    intros Hd. rewrite stored_arr. f_equal.
    induction IH as [|x r IHx _ IHr]; [done|].
    cbn [forallb] in Hd. apply andb_prop in Hd as [Hx Hr].
    cbn [map]. rewrite IHr by done. f_equal.
    destruct x; try done; by apply IHx.
  - change (defined (VObj props)) with (forallb (λ kv, defined kv.2) props).
    intros Hd. rewrite stored_obj. f_equal.
    induction IH as [|[k x] r IHx _ IHr]; [done|].
    cbn [forallb snd] in *. apply andb_prop in Hd as [Hx Hr].
    cbn [omap list_omap]. rewrite IHr by done.
    assert (stored_prop (k, x) = Some (k, x)) as ->; [|done].
    specialize (IHx Hx). unfold stored_prop. cbn [fst snd].
    destruct x; try done; by rewrite IHx.
Qed.

Lemma loadData_returns filename w :
  loadData env filename w = (Returns (stored_log env filename (files w)), w).
Proof.
  unfold loadData, stored_log, try_catch, readFile, mbind, M_bind, mret, M_ret, throw.
  destruct (read_fails env filename); [done|].
  destruct (files w !! filename) as [data|]; [|done].
  by destruct (JSON.parse data).
Qed.

Lemma saveData_written filename data text w :
  write_fails env filename = None → JSON.stringify data = Some text →
  saveData env filename data w = (Returns (), set_files <[filename := text]> w).
Proof.
  intros Hw Ht. unfold saveData, try_catch, writeFile. by rewrite Ht, Hw.
Qed.

Lemma saveData_rejected filename data text e w :
  write_fails env filename = Some e → JSON.stringify data = Some text →
  saveData env filename data w = (Returns (), log_error "Error saving data:" e w).
Proof.
  intros Hw Ht. unfold saveData, try_catch, writeFile. by rewrite Ht, Hw.
Qed.

Lemma saveData_undefined filename w :
  saveData env filename VUndef w = (Returns (), log_error "Error saving data:" TypeError w).
Proof. reflexivity. Qed.

Lemma stringify_None v : JSON.stringify v = None ↔ v = VUndef.
Proof. apply ser_None. Qed.

Lemma saveData_total filename data w :
  ∃ w', saveData env filename data w = (Returns (), w').
Proof.
  unfold saveData, try_catch, writeFile, throw, console_error.
  destruct (JSON.stringify data); [destruct (write_fails env filename)|]; eauto.
Qed.

Lemma stored_log_written filename data text fs :
  read_fails env filename = None → storable data = true →
  JSON.stringify data = Some text →
  stored_log env filename (<[filename := text]> fs) = stored data.
Proof.
  intros Hr Hs Ht. unfold stored_log. rewrite Hr, lookup_insert_eq.
  by rewrite (parse_stringify data text Hs Ht).
Qed.

(** C7: the log store never raises.  A file that is absent, unreadable or
    not JSON loads as the empty array and the world is left as it was; a
    save that fails writes one line to the console, changes nothing else
    and returns; [loadData] and [saveData] return in every world. *)
Theorem log_store_degrades_silently filename w :
  (files w !! filename = None →
     loadData env filename w = (Returns (VArr []), w))
  ∧ (∀ e, read_fails env filename = Some e →
       loadData env filename w = (Returns (VArr []), w))
  ∧ (∀ data, files w !! filename = Some data → JSON.parse data = None →
       loadData env filename w = (Returns (VArr []), w))
  ∧ (∀ data text e, JSON.stringify data = Some text →
       write_fails env filename = Some e →
       saveData env filename data w
       = (Returns (), log_error "Error saving data:" e w))
  ∧ (∀ data, JSON.stringify data = None →
       saveData env filename data w
       = (Returns (), log_error "Error saving data:" TypeError w))
  ∧ (∃ v, loadData env filename w = (Returns v, w))
  ∧ (∀ data, ∃ w', saveData env filename data w = (Returns (), w')).
Proof.
  repeat split.
  - intros Habs. rewrite loadData_returns. unfold stored_log. rewrite Habs.
    by destruct (read_fails env filename).
  - intros e He. rewrite loadData_returns. unfold stored_log. by rewrite He.
  - intros data Hdata Hbad. rewrite loadData_returns. unfold stored_log.
    rewrite Hdata, Hbad. by destruct (read_fails env filename).
  - intros data text e Ht He. by apply saveData_rejected with text.
  - intros data ->%stringify_None. apply saveData_undefined.
  - eexists. apply loadData_returns.
  - intros data. apply saveData_total.
Qed.

(** A field of the record read back is the field of the record saved, as
    the file keeps it; a field that was [undefined] is absent and reads as
    [undefined]. *)
Lemma get_stored props k :
  NoDup props.*1 →
  JS.lookup_prop k (omap stored_prop props) = stored (JS.lookup_prop k props).
Proof.
  induction props as [|[k' x] r IH]; [done|]. cbn [fmap list_fmap fst].
  intros [Hk' Hr]%NoDup_cons. cbn [omap list_omap JS.lookup_prop].
  destruct (String.eqb_spec k k') as [->|Hne].
  - destruct (stored_prop (k', x)) as [[k1 x1]|] eqn:E.
    + unfold stored_prop in E. cbn [fst snd] in E. cbn [JS.lookup_prop].
      destruct x; simplify_eq; by rewrite String.eqb_refl.
    + assert (x = VUndef) as -> by (unfold stored_prop in E; by destruct x).
      rewrite (IH Hr). clear -Hk'.
      induction r as [|[k2 x2] r IHr]; [done|]. cbn [JS.lookup_prop].
      destruct (String.eqb_spec k' k2) as [->|Hne].
      * exfalso. apply Hk'. cbn. left.
      * apply IHr. intros Hin. apply Hk'. cbn. by right.
  - destruct (stored_prop (k', x)) as [[k1 x1]|] eqn:E; [|by apply IH].
    apply stored_prop_key in E as ->. cbn [JS.lookup_prop].
    apply String.eqb_neq in Hne. rewrite Hne. by apply IH.
Qed.

Lemma stored_flat props k :
  flat props = true → stored (JS.lookup_prop k props) = JS.lookup_prop k props.
Proof.
  induction props as [|[k' x] r IH]; [done|]. cbn [flat forallb snd JS.lookup_prop].
  intros [Hx Hr]%andb_prop. destruct (String.eqb k k'); [by destruct x|by apply IH].
Qed.

Lemma stored_props_flat props :
  flat props = true → omap stored_prop props = List.filter present props.
Proof.
  induction props as [|[k x] r IH]; [done|]. cbn [flat forallb snd].
  intros [Hx Hr]%andb_prop. cbn [omap list_omap List.filter].
  fold (omap stored_prop r). rewrite (IH Hr). by destruct x.
Qed.

(** C6 (amended): saving a sequence of records and loading it again, when
    the file can be written and read, yields as many records in the same
    order: the record at each place comes back at that place.  A record
    without [undefined] comes back as it was.  A record of strings,
    [null]s, booleans and fields holding [undefined] comes back as its
    fields in their order without those that hold [undefined], and every
    field of it reads as it did before the save, a field left out as
    [undefined].  The sequence loaded is the sequence saved when no
    record holds [undefined]. *)
Theorem save_then_load filename records w :
  write_fails env filename = None → read_fails env filename = None →
  forallb storable records = true →
  ∃ w' loaded,
    saveData env filename (VArr records) w = (Returns (), w')
    ∧ loadData env filename w' = (Returns (VArr loaded), w')
    ∧ length loaded = length records
    ∧ (∀ i record, records !! i = Some record →
         ∃ back,
           loaded !! i = Some back
           ∧ (defined record = true → back = record)
           ∧ (∀ props, record = VObj props → flat props = true →
                back = VObj (List.filter present props)
                ∧ ∀ k, JS.get back k = JS.get record k))
    ∧ (forallb defined records = true → loaded = records).
Proof.
  intros Hw Hr Hrec.
  destruct (JSON.stringify (VArr records)) as [text|] eqn:Ht;
    [|by apply stringify_None in Ht].
  exists (set_files <[filename := text]> w), (map stored_elem records).
  split; [by apply saveData_written|]. split; [|split; [|split]].
  - rewrite loadData_returns. cbn [files set_files].
    by rewrite (stored_log_written filename (VArr records) text), stored_arr.
  - apply length_map.
  - intros i record Hi. exists (stored_elem record). split; [|split].
    + change (map stored_elem records) with (stored_elem <$> records).
      by rewrite list_lookup_fmap, Hi.
    + intros Hd. destruct record; try done; by apply stored_defined.
    + intros props -> Hflat. cbn [stored_elem]. rewrite stored_obj.
      rewrite (stored_props_flat props Hflat). split; [done|].
      intros k. cbn [JS.get]. f_equal.
      rewrite <- (stored_props_flat props Hflat).
      assert (Hs : storable (VObj props) = true).
      { apply (proj1 (forallb_forall _ _) Hrec). by eapply list_elem_of_In, list_elem_of_lookup_2. }
      cbn [storable] in Hs. apply andb_prop in Hs as [_ Hnd%bool_decide_eq_true].
      by rewrite get_stored, stored_flat.
  - intros Hd. assert (Hsame : stored (VArr records) = VArr records)
      by (by apply stored_defined).
    rewrite stored_arr in Hsame. by injection Hsame.
Qed.

(** *** The listener *)

Lemma world_eta w :
  {| files := files w; console := console w; calls := calls w; ticks := ticks w |} = w.
Proof. by destruct w. Qed.

Lemma push_posts_array message urls old w :
  push_posts env message urls (VArr old) w
  = (Returns (VArr (old ++ post_records env message urls (ticks w))),
     {| files := files w; console := console w; calls := calls w;
        ticks := length urls + ticks w |}).
Proof.
  revert old w. induction urls as [|url rest IH]; intros old w.
  - cbn. by rewrite app_nil_r, world_eta.
  - cbn [push_posts]. unfold mbind, M_bind, lift, now. cbn [JS.member JS.push].
    rewrite IH. cbn. rewrite <- app_assoc. do 2 f_equal. lia.
Qed.

Lemma push_posts_null message url rest w :
  push_posts env message (url :: rest) VNull w = (Throws TypeError, w).
Proof. reflexivity. Qed.

Lemma storable_post_record url message t :
  storable (post_record url message t) = true.
Proof. unfold post_record. by destruct (msg_user message), (msg_text message). Qed.

Lemma storable_post_records message urls t :
  forallb storable (post_records env message urls t) = true.
Proof.
  revert t. induction urls as [|url rest IH]; intros t; [done|].
  cbn [post_records forallb]. by rewrite storable_post_record, IH.
Qed.

Lemma length_post_records message urls t :
  length (post_records env message urls t) = length urls.
Proof. revert t. induction urls as [|url rest IH]; intros t; cbn; [done|]. by rewrite IH. Qed.

Lemma forallb_json_value l :
  forallb json_value l = true → forallb storable l = true ∧ forallb defined l = true.
Proof.
  induction l as [|x r IH]; [done|]. cbn [forallb].
  intros [[Hx1 Hx2]%andb_prop Hr]%andb_prop. destruct (IH Hr) as [-> ->].
  by rewrite Hx1, Hx2.
Qed.

Lemma stored_elems_app old new :
  forallb defined old = true →
  stored (VArr (old ++ new)) = VArr (old ++ map stored_elem new).
Proof.
  intros Hd. rewrite stored_arr, map_app. do 2 f_equal.
  assert (Hold : stored (VArr old) = VArr old) by (by apply stored_defined).
  rewrite stored_arr in Hold. by injection Hold.
Qed.

(** C10: a message event without a text makes the listener do nothing:
    it returns and leaves the world as it was. *)
Theorem listener_ignores_missing_text message w :
  msg_text message = None → app_message env message w = (Returns (), w).
Proof. intros Htext. unfold app_message. by rewrite Htext. Qed.


Lemma stored_post_records message urls t :
  map stored_elem (post_records env message urls t)
  = map stored (post_records env message urls t).
Proof. revert t. induction urls as [|url rest IH]; intros t; cbn; [done|]. by rewrite IH. Qed.

Lemma calls_since_app w w' l : calls w' = calls w ++ l → calls_since w w' = l.
Proof. intros Hc. unfold calls_since. rewrite Hc. by rewrite drop_app_length. Qed.

(** The run of the listener on a message with links, as far as the save. *)
Lemma listener_saves message text url rest old w :
  msg_text message = Some text →
  linkedinUrlRegex_scan 0 text = url :: rest →
  reactions_add env (msg_channel message) (msg_ts message) "link" = Returns () →
  read_fails env POSTS_FILE = None → write_fails env POSTS_FILE = None →
  stored_log env POSTS_FILE (files w) = VArr old → forallb json_value old = true →
  ∃ posts_text,
    app_message env message w
    = try_catch
        (invoke (Say (encouragement (url :: rest)) (msg_ts message))
           (say env (encouragement (url :: rest)) (msg_ts message)))
        (λ error, console_error "Error handling LinkedIn URL:" error)
        {| files := <[POSTS_FILE := posts_text]> (files w);
           console := console w;
           calls := calls w ++ [ReactionsAdd (msg_channel message) (msg_ts message) "link"];
           ticks := S (length rest) + ticks w |}
    ∧ stored_log env POSTS_FILE (<[POSTS_FILE := posts_text]> (files w))
      = VArr (old ++ map stored (post_records env message (url :: rest) (ticks w))).
Proof.
  intros Htext Hscan Hreact Hread Hwrite Hlog Hold.
  apply forallb_json_value in Hold as [Hst Hdef].
  set (new := post_records env message (url :: rest) (ticks w)).
  assert (Hs : storable (VArr (old ++ new)) = true).
  { change (forallb storable (old ++ new) = true).
    rewrite forallb_app, Hst. apply storable_post_records. }
  destruct (JSON.stringify (VArr (old ++ new))) as [posts_text|] eqn:Ht;
    [|by apply stringify_None in Ht].
  exists posts_text. split.
  - unfold app_message. rewrite Htext. cbn [mbind option_bind].
    unfold match_linkedinUrlRegex. rewrite Hscan.
    unfold try_catch, mbind, M_bind, invoke, perform. rewrite Hreact.
    rewrite loadData_returns. cbn [files record_call]. rewrite Hlog.
    rewrite push_posts_array. cbn [ticks record_call].
    fold new. rewrite (saveData_written _ _ posts_text) by done.
    reflexivity.
  - rewrite (stored_log_written _ (VArr (old ++ new)) posts_text) by done.
    rewrite stored_elems_app by done. subst new. by rewrite stored_post_records.
Qed.

Lemma listener_total message w :
  ∃ w', app_message env message w = (Returns (), w').
Proof.
  unfold app_message. destruct (msg_text message ≫= match_linkedinUrlRegex); [|by eexists].
  unfold try_catch.
  match goal with |- context [match ?b w with _ => _ end] => destruct (b w) as [[[]|e] w1] end;
    by eexists.
Qed.

Lemma stored_post_record_fields url message text t :
  msg_text message = Some text →
  let r := stored (post_record url message t) in
  JS.get r "url" = Returns (VStr url)
  ∧ JS.get r "userId" = Returns (of_option (msg_user message))
  ∧ JS.get r "timestamp" = Returns (VStr t)
  ∧ JS.get r "channel" = Returns (VStr (msg_channel message))
  ∧ JS.get r "messageText" = Returns (VStr text).
Proof.
  intros Htext. unfold post_record. rewrite Htext.
  by destruct (msg_user message).
Qed.

(** C1 (amended): what the listener does is decided by the matches of the
    URL pattern in the text.  Without a match it does nothing.  With the
    matches [url :: rest], when Slack accepts the reaction and the reply
    and the posts log is an array of JSON values in a file that can be
    read and written, it adds one record per match to the end of the log,
    in the order of the matches, each with the url of its match, the
    user, channel and text of the message and the time read from the
    clock when that record was built; it adds one reaction and posts one
    reply in the thread, naming [url]. *)
Theorem listener_effects message w :
  (msg_text message ≫= match_linkedinUrlRegex = None →
     app_message env message w = (Returns (), w))
  ∧ (∀ text url rest old,
       msg_text message = Some text →
       linkedinUrlRegex_scan 0 text = url :: rest →
       reactions_add env (msg_channel message) (msg_ts message) "link" = Returns () →
       say env (encouragement (url :: rest)) (msg_ts message) = Returns () →
       read_fails env POSTS_FILE = None → write_fails env POSTS_FILE = None →
       stored_log env POSTS_FILE (files w) = VArr old → forallb json_value old = true →
       ∃ w' new,
         app_message env message w = (Returns (), w')
         ∧ matches_in text (url :: rest)
         ∧ stored_log env POSTS_FILE (files w') = VArr (old ++ new)
         ∧ new = map stored (post_records env message (url :: rest) (ticks w))
         ∧ length new = S (length rest)
         ∧ Forall2 (λ u r, JS.get r "url" = Returns (VStr u)
                           ∧ JS.get r "userId" = Returns (of_option (msg_user message))
                           ∧ JS.get r "channel" = Returns (VStr (msg_channel message))
                           ∧ JS.get r "messageText" = Returns (VStr text))
             (url :: rest) new
         ∧ (∀ i r, new !! i = Some r →
              JS.get r "timestamp" = Returns (VStr (iso (clock env (ticks w + i)))))
         ∧ calls_since w w'
           = [ ReactionsAdd (msg_channel message) (msg_ts message) "link";
               Say ("Great post! 🎉 Team, show some love on this LinkedIn post: " +:+ url)
                 (msg_ts message) ]
         ∧ console w' = console w).
Proof.
  split.
  - intros Hnone. unfold app_message. by rewrite Hnone.
  - intros text url rest old Htext Hscan Hreact Hsay Hread Hwrite Hlog Hold.
    destruct (listener_saves message text url rest old w) as (posts_text & Hrun & Hafter);
      try done.
    unfold try_catch, invoke, perform in Hrun. rewrite Hsay in Hrun.
    eexists _, _. split; [exact Hrun|]. cbn [files record_call console calls].
    split; [rewrite <- Hscan; apply linkedinUrlRegex_scan_matches|].
    split; [exact Hafter|]. split; [reflexivity|].
    split; [by rewrite length_map, length_post_records|].
    split; [|split; [|split]].
    + generalize (ticks w). generalize (url :: rest). clear -Htext.
      induction l as [|u l IH]; intros t; [by constructor|].
      cbn [post_records map]. constructor; [|apply IH].
      destruct (stored_post_record_fields u message text (iso (clock env t)) Htext)
        as (? & ? & ? & ? & ?).
      done.
    + generalize (ticks w). generalize (url :: rest). clear -Htext.
      induction l as [|u l IH]; intros t i r; [done|].
      cbn [post_records map]. destruct i as [|i]; cbn.
      * intros [= <-]. rewrite Nat.add_0_r.
        by apply (stored_post_record_fields u message text (iso (clock env t)) Htext).
      * intros Hr. rewrite <- Nat.add_succ_comm. by apply IH.
    + apply calls_since_app. cbn. by rewrite <- app_assoc.
    + reflexivity.
Qed.

(** *** The two generators, run *)

Lemma generateContentPrompt_run w :
  generateContentPrompt env w =
  match generateContentPrompt_context (stored_log env POSTS_FILE (files w))
          (stored_log env PROMPTS_FILE (files w)) with
  | Throws e => (Returns daily_fallback, log_error "Error generating prompt:" e w)
  | Returns context =>
      let asked := record_call (ChatCompletionsCreate (daily_chat_request context)) w in
      match chat_completions_create env (daily_chat_request context) ≫= first_choice with
      | Returns content => (Returns content, asked)
      | Throws e => (Returns daily_fallback, log_error "Error generating prompt:" e asked)
      end
  end.
Proof.
  unfold generateContentPrompt, try_catch, mbind at 1 2 3 4, M_bind.
  rewrite !loadData_returns. unfold lift.
  destruct (generateContentPrompt_context _ _) as [context|e]; [|done].
  unfold invoke, perform.
  destruct (chat_completions_create env (daily_chat_request context)) as [[|c cs]|e]; done.
Qed.

Lemma generateCustomContent_run request w :
  generateCustomContent env request w =
  match generateCustomContent_context (stored_log env POSTS_FILE (files w)) with
  | Throws e => (Returns custom_fallback, log_error "OpenAI Error:" e w)
  | Returns context =>
      let chat := custom_chat_request context request in
      let asked := record_call (ChatCompletionsCreate chat) w in
      match chat_completions_create env chat ≫= first_choice with
      | Throws e => (Returns custom_fallback, log_error "OpenAI Error:" e asked)
      | Returns text =>
          let prompt := generateCustomContent_imagePrompt request in
          let drawn := record_call (ImagesGenerate (dalle_request prompt)) asked in
          match images_generate env (dalle_request prompt) ≫= first_url with
          | Returns url =>
              (Returns {| textContent := text; imageUrl := url; imagePrompt := prompt |},
               drawn)
          | Throws e =>
              (Returns {| textContent := text; imageUrl := VNull; imagePrompt := prompt |},
               log_error "Image generation failed:" e drawn)
          end
      end
  end.
Proof.
  unfold generateCustomContent, try_catch, mbind at 1 2 3 4 5, M_bind.
  rewrite !loadData_returns. unfold lift.
  destruct (generateCustomContent_context _) as [context|e]; [|done].
  unfold invoke, perform.
  destruct (chat_completions_create env (custom_chat_request context request))
    as [[|c cs]|e]; [done| |done].
  cbn [first_choice mbind outcome_bind].
  unfold mbind, M_bind.
  destruct (images_generate env _) as [[|u us]|e]; done.
Qed.

Lemma stored_log_appended filename old record text fs :
  read_fails env filename = None →
  forallb json_value old = true → json_value record = true →
  JSON.stringify (VArr (old ++ [record])) = Some text →
  stored_log env filename (<[filename := text]> fs) = VArr (old ++ [record]).
Proof.
  intros Hr Hold [Hs Hd]%andb_prop Ht.
  apply forallb_json_value in Hold as [Hst Hdef].
  rewrite (stored_log_written _ (VArr (old ++ [record])) text); [|done| |done].
  - apply stored_defined. change (forallb defined (old ++ [record]) = true).
    rewrite forallb_app, Hdef. cbn. by rewrite Hd.
  - change (forallb storable (old ++ [record]) = true).
    rewrite forallb_app, Hst. cbn. by rewrite Hs.
Qed.

Lemma stringify_array l : ∃ text, JSON.stringify (VArr l) = Some text.
Proof.
  destruct (JSON.stringify (VArr l)) eqn:E; [by eexists|]. by apply stringify_None in E.
Qed.

(** [postDailyPrompt] once the prompt is there. *)
Lemma postDailyPrompt_logs channelId prompt ts old w w1 :
  generateContentPrompt env w = (Returns prompt, w1) →
  chat_postMessage env channelId (daily_text prompt) (daily_blocks prompt) = Returns ts →
  read_fails env PROMPTS_FILE = None → write_fails env PROMPTS_FILE = None →
  stored_log env PROMPTS_FILE (files w1) = VArr old → forallb json_value old = true →
  ∃ w', postDailyPrompt env channelId w = (Returns (Some ts), w')
        ∧ stored_log env PROMPTS_FILE (files w')
          = VArr (old ++ [daily_record ts prompt (iso (clock env (ticks w1))) channelId])
        ∧ calls w' = calls w1 ++ [PostMessage channelId (daily_text prompt) (daily_blocks prompt)]
        ∧ console w' = console w1.
Proof.
  intros Hgen Hpost Hread Hwrite Hlog Hold.
  set (record := daily_record ts prompt (iso (clock env (ticks w1))) channelId).
  destruct (stringify_array (old ++ [record])) as [text Ht].
  unfold postDailyPrompt, try_catch, mbind at 1 2, M_bind. rewrite Hgen.
  unfold invoke, perform, mbind, M_bind. rewrite Hpost.
  rewrite loadData_returns. cbn [files record_call]. rewrite Hlog.
  unfold lift, now. cbn [JS.member JS.push ticks record_call]. fold record.
  rewrite (saveData_written _ _ text) by done.
  eexists. split; [reflexivity|]. cbn [files set_files tick record_call calls console].
  split; [|done].
  by apply stored_log_appended.
Qed.

(** The custom command once the content is there. *)
Lemma custom_command_logs command result ts old w w1 :
  trim (cmd_text command) ≠ "" →
  ack env = Returns () → respond env LOADING = Returns () →
  generateCustomContent env (trim (cmd_text command))
    (record_call (Respond LOADING) (record_call Ack w)) = (Returns result, w1) →
  chat_postMessage env (cmd_channel_id command) (custom_text result) (custom_blocks result)
  = Returns ts →
  read_fails env PROMPTS_FILE = None → write_fails env PROMPTS_FILE = None →
  stored_log env PROMPTS_FILE (files w1) = VArr old → forallb json_value old = true →
  json_value (imageUrl result) = true →
  ∃ w', app_command_linkedin_machine env command w = (Returns (), w')
        ∧ stored_log env PROMPTS_FILE (files w')
          = VArr (old ++ [custom_record (epoch_ms (clock env (ticks w1)))
                            (trim (cmd_text command)) result
                            (iso (clock env (S (ticks w1)))) (cmd_channel_id command)])
        ∧ calls w' = calls w1 ++ [PostMessage (cmd_channel_id command) (custom_text result)
                                    (custom_blocks result)]
        ∧ console w' = console w1.
Proof.
  intros Hreq Hack Hload Hgen Hpost Hread Hwrite Hlog Hold Himg.
  set (record := custom_record (epoch_ms (clock env (ticks w1)))
                   (trim (cmd_text command)) result
                   (iso (clock env (S (ticks w1)))) (cmd_channel_id command)).
  destruct (stringify_array (old ++ [record])) as [text Ht].
  unfold app_command_linkedin_machine, mbind at 1, M_bind, invoke at 1, perform.
  rewrite Hack. unfold try_catch.
  apply String.eqb_neq in Hreq. rewrite Hreq.
  unfold mbind at 1, M_bind, invoke at 1, perform. rewrite Hload.
  unfold mbind at 1, M_bind. rewrite Hgen.
  unfold invoke, perform, mbind, M_bind. rewrite Hpost.
  rewrite loadData_returns. cbn [files record_call]. rewrite Hlog.
  unfold lift, now. cbn [JS.member JS.push ticks record_call tick]. fold record.
  rewrite (saveData_written _ _ text) by done.
  eexists. split; [reflexivity|]. cbn [files set_files tick record_call calls console].
  split; [|done].
  apply stored_log_appended; try done.
  subst record. unfold custom_record, json_value in *.
  apply andb_prop in Himg as [Hs Hd]. cbn. by rewrite Hs, Hd.
Qed.

Lemma failing_daily w :
  (∀ chat, ∃ e, chat_completions_create env chat = Throws e) →
  ∃ w1, generateContentPrompt env w = (Returns daily_fallback, w1)
        ∧ files w1 = files w ∧ ticks w1 = ticks w.
Proof.
  intros Hfail. rewrite generateContentPrompt_run.
  destruct (generateContentPrompt_context _ _) as [context|e]; [|by eexists].
  destruct (Hfail (daily_chat_request context)) as [e ->]. by eexists.
Qed.

Lemma failing_custom request w :
  (∀ chat, ∃ e, chat_completions_create env chat = Throws e) →
  ∃ w1, generateCustomContent env request w = (Returns custom_fallback, w1)
        ∧ files w1 = files w ∧ ticks w1 = ticks w.
Proof.
  intros Hfail. rewrite generateCustomContent_run.
  destruct (generateCustomContent_context _) as [context|e]; [|by eexists].
  cbv zeta. destruct (Hfail (custom_chat_request context request)) as [e ->]. by eexists.
Qed.

(** C2: when the generation service rejects every completion, each
    generator returns its fixed fallback, the text written out below, and
    does not raise; and the posting pipelines, when Slack accepts the post
    and the prompts log is an array of JSON values in a file that can be
    read and written, add a record to the end of the prompts log whose
    [content] is that fallback: after [postDailyPrompt] the [ts] of the
    message, the fallback, the time and the channel; after the command
    [/linkedin-machine] the time in milliseconds, the fallback, the
    request, the [type] custom, [null] for the image, the fixed prompt of
    the fallback, the time and the channel. *)
Theorem fallback_on_failing_backend w :
  (∀ chat, ∃ e, chat_completions_create env chat = Throws e) →
  (∃ w1, generateContentPrompt env w = (Returns daily_fallback, w1))
  ∧ (∀ request, ∃ w1, generateCustomContent env request w = (Returns custom_fallback, w1))
  ∧ (∀ channelId ts old,
       chat_postMessage env channelId (daily_text daily_fallback)
         (daily_blocks daily_fallback) = Returns ts →
       read_fails env PROMPTS_FILE = None → write_fails env PROMPTS_FILE = None →
       stored_log env PROMPTS_FILE (files w) = VArr old → forallb json_value old = true →
       ∃ w', postDailyPrompt env channelId w = (Returns (Some ts), w')
             ∧ stored_log env PROMPTS_FILE (files w')
               = VArr (old ++ [VObj [ ("id", VStr ts);
                                      ("content", VStr daily_fallback);
                                      ("timestamp", VStr (iso (clock env (ticks w))));
                                      ("channel", VStr channelId) ]]))
  ∧ (∀ command ts old,
       trim (cmd_text command) ≠ "" →
       ack env = Returns () → respond env LOADING = Returns () →
       chat_postMessage env (cmd_channel_id command) (custom_text custom_fallback)
         (custom_blocks custom_fallback) = Returns ts →
       read_fails env PROMPTS_FILE = None → write_fails env PROMPTS_FILE = None →
       stored_log env PROMPTS_FILE (files w) = VArr old → forallb json_value old = true →
       ∃ w', app_command_linkedin_machine env command w = (Returns (), w')
             ∧ stored_log env PROMPTS_FILE (files w')
               = VArr (old ++ [VObj [ ("id", VStr (epoch_ms (clock env (ticks w))));
                                      ("content", VStr (textContent custom_fallback));
                                      ("request", VStr (trim (cmd_text command)));
                                      ("type", VStr "custom");
                                      ("imageUrl", VNull);
                                      ("imagePrompt",
                                       VStr "Professional iPhone vs Android comparison infographic");
                                      ("timestamp", VStr (iso (clock env (S (ticks w)))));
                                      ("channel", VStr (cmd_channel_id command)) ]]))
  ∧ daily_fallback
    = "💡 **Daily LinkedIn Prompt**" +:+ nl +:+ nl
      +:+ "Share a quick tip about how businesses can improve their customer communication. What's one SMS/messaging mistake you see companies make, and how can they fix it?"
      +:+ nl +:+ nl
      +:+ "• Include a real example (anonymized)" +:+ nl
      +:+ "• Add your perspective on why it matters" +:+ nl
      +:+ "• End with a question to encourage engagement"
  ∧ custom_fallback
    = {| textContent :=
           "📱 **iPhone vs Android Users - Post Idea**" +:+ nl +:+ nl
           +:+ "Hook: " +:+ dq
           +:+ "The SMS behavior difference between iPhone and Android users might surprise you..."
           +:+ dq +:+ nl +:+ nl
           +:+ "Key Points:" +:+ nl
           +:+ "• iPhone users: 95% open rate, prefer shorter messages" +:+ nl
           +:+ "• Android users: 88% open rate, engage more with rich media" +:+ nl
           +:+ "• Timing matters: iPhone users respond faster (avg 3 min vs 8 min)"
           +:+ nl +:+ nl
           +:+ "Hashtags: #MobileMessaging #SMS #CustomerEngagement #SendBlue" +:+ nl +:+ nl
           +:+ "CTA: " +:+ dq
           +:+ "What patterns have you noticed with your mobile users? Share your insights below! 👇"
           +:+ dq;
         imageUrl := VNull;
         imagePrompt := "Professional iPhone vs Android comparison infographic" |}.
Proof.
  intros Hfail. split; [|split; [|split; [|split; [|split]]]].
  - destruct (failing_daily w Hfail) as (w1 & ? & _). by eexists.
  - intros request. destruct (failing_custom request w Hfail) as (w1 & ? & _). by eexists.
  - intros channelId ts old Hpost Hread Hwrite Hlog Hold.
    destruct (failing_daily w Hfail) as (w1 & Hgen & Hfiles & Hticks).
    destruct (postDailyPrompt_logs channelId daily_fallback ts old w w1)
      as (w' & Hrun & Hafter & _); try done; [by rewrite Hfiles|].
    exists w'. split; [done|]. rewrite Hafter, Hticks. reflexivity.
  - intros command ts old Hreq Hack Hload Hpost Hread Hwrite Hlog Hold.
    destruct (failing_custom (trim (cmd_text command))
                (record_call (Respond LOADING) (record_call Ack w)) Hfail)
      as (w1 & Hgen & Hfiles & Hticks).
    destruct (custom_command_logs command custom_fallback ts old w w1)
      as (w' & Hrun & Hafter & _); try done; [by rewrite Hfiles|].
    exists w'. cbn [ticks record_call] in Hticks. split; [done|].
    rewrite Hafter, Hticks. reflexivity.
  - reflexivity.
  - reflexivity.
Qed.

(** C8: when the completion is answered with a text and the image call
    fails, [generateCustomContent] returns that text with a [null] image
    and the prompt of the heuristic; it does not raise and the failure is
    written to the console. *)
Theorem image_failure_keeps_text request context text e w :
  generateCustomContent_context (stored_log env POSTS_FILE (files w)) = Returns context →
  chat_completions_create env (custom_chat_request context request) ≫= first_choice
  = Returns text →
  images_generate env (dalle_request (generateCustomContent_imagePrompt request))
    ≫= first_url = Throws e →
  ∃ w', generateCustomContent env request w
        = (Returns {| textContent := text; imageUrl := VNull;
                      imagePrompt := generateCustomContent_imagePrompt request |}, w')
        ∧ console w' = console w ++ [("Image generation failed:", e)]
        ∧ calls_since w w'
          = [ ChatCompletionsCreate (custom_chat_request context request);
              ImagesGenerate (dalle_request (generateCustomContent_imagePrompt request)) ]
        ∧ files w' = files w.
Proof.
  intros Hctx Hchat Himg. rewrite generateCustomContent_run, Hctx. cbv zeta.
  rewrite Hchat, Himg. eexists. split; [reflexivity|].
  cbn [console log_error record_call calls files]. repeat split.
  apply calls_since_app. cbn. by rewrite <- app_assoc.
Qed.

(** C4: a custom command whose text is empty or white space calls no
    generation service and changes no file; when Slack accepts the
    acknowledgement and the response, the handler responds with the usage
    hint and returns. *)
Theorem empty_request_rejected command w :
  trim (cmd_text command) = "" →
  ∃ r w', app_command_linkedin_machine env command w = (r, w')
          ∧ files w' = files w
          ∧ Forall (λ c, is_generation c = false) (calls_since w w')
          ∧ (ack env = Returns () → respond env USAGE_HINT = Returns () →
             r = Returns ()
             ∧ calls_since w w' = [Ack; Respond USAGE_HINT]
             ∧ console w' = console w).
Proof.
  intros Hreq.
  unfold app_command_linkedin_machine, try_catch, mbind, M_bind, invoke, perform,
    console_error.
  rewrite Hreq. cbn [String.eqb].
  destruct (ack env) as [[]|e0].
  - destruct (respond env USAGE_HINT) as [[]|e1].
    + eexists _, _. split; [reflexivity|]. cbn [files record_call calls console].
      split; [done|].
      rewrite (calls_since_app w _ [Ack; Respond USAGE_HINT])
        by (cbn; by rewrite <- app_assoc).
      repeat split; by repeat constructor.
    + destruct (respond env SORRY) as [[]|e2];
        (eexists _, _; split; [reflexivity|]; cbn [files record_call log_error calls console];
         split; [done|];
         rewrite (calls_since_app w _ [Ack; Respond USAGE_HINT; Respond SORRY])
           by (cbn; by rewrite <- !app_assoc);
         split; [by repeat constructor|done]).
  - eexists _, _. split; [reflexivity|]. cbn [files record_call calls console].
    split; [done|]. rewrite (calls_since_app w _ [Ack]) by done.
    split; [by repeat constructor|done].
Qed.

(** C9 (amended): on a message with links the handler never raises.  A
    rejected reaction ends the run: the error is written to the console,
    the log is not touched and no reply is posted.  A rejected reply after
    the save leaves the new records in the log and is written to the
    console.  A rejected write does not end the run: [saveData] writes it
    to the console, the file stays as it was and the reply is posted all
    the same. *)
Theorem listener_failures message text url rest w :
  msg_text message = Some text →
  linkedinUrlRegex_scan 0 text = url :: rest →
  let react := ReactionsAdd (msg_channel message) (msg_ts message) "link" in
  let reply := Say (encouragement (url :: rest)) (msg_ts message) in
  (∀ e, reactions_add env (msg_channel message) (msg_ts message) "link" = Throws e →
     app_message env message w
     = (Returns (), log_error "Error handling LinkedIn URL:" e (record_call react w)))
  ∧ (∀ e old,
       reactions_add env (msg_channel message) (msg_ts message) "link" = Returns () →
       read_fails env POSTS_FILE = None → write_fails env POSTS_FILE = None →
       stored_log env POSTS_FILE (files w) = VArr old → forallb json_value old = true →
       say env (encouragement (url :: rest)) (msg_ts message) = Throws e →
       ∃ w', app_message env message w = (Returns (), w')
             ∧ stored_log env POSTS_FILE (files w')
               = VArr (old ++ map stored (post_records env message (url :: rest) (ticks w)))
             ∧ console w' = console w ++ [("Error handling LinkedIn URL:", e)]
             ∧ calls_since w w' = [react; reply])
  ∧ (∀ e old,
       reactions_add env (msg_channel message) (msg_ts message) "link" = Returns () →
       stored_log env POSTS_FILE (files w) = VArr old →
       write_fails env POSTS_FILE = Some e →
       say env (encouragement (url :: rest)) (msg_ts message) = Returns () →
       ∃ w', app_message env message w = (Returns (), w')
             ∧ files w' = files w
             ∧ console w' = console w ++ [("Error saving data:", e)]
             ∧ calls_since w w' = [react; reply])
  ∧ (∃ w', app_message env message w = (Returns (), w')).
Proof.
  intros Htext Hscan react reply. repeat split.
  - intros e Hreact. unfold app_message. rewrite Htext. cbn [mbind option_bind].
    unfold match_linkedinUrlRegex. rewrite Hscan.
    unfold try_catch, mbind, M_bind, invoke, perform. by rewrite Hreact.
  - intros e old Hreact Hread Hwrite Hlog Hold Hsay.
    destruct (listener_saves message text url rest old w) as (posts_text & Hrun & Hafter);
      try done.
    unfold try_catch, invoke, perform in Hrun. rewrite Hsay in Hrun.
    eexists. split; [exact Hrun|]. cbn [files record_call log_error console calls].
    split; [exact Hafter|]. split; [done|].
    apply calls_since_app. cbn. by rewrite <- app_assoc.
  - intros e old Hreact Hlog Hwrite Hsay.
    destruct (stringify_array (old ++ post_records env message (url :: rest) (ticks w)))
      as [posts_text Ht].
    unfold app_message. rewrite Htext. cbn [mbind option_bind].
    unfold match_linkedinUrlRegex. rewrite Hscan.
    unfold try_catch at 1, mbind, M_bind, invoke, perform. rewrite Hreact.
    rewrite loadData_returns. cbn [files record_call]. rewrite Hlog.
    rewrite push_posts_array. cbn [ticks record_call].
    rewrite (saveData_rejected _ _ posts_text e) by done.
    rewrite Hsay. eexists. split; [reflexivity|].
    cbn [files record_call log_error console calls]. repeat split.
    apply calls_since_app. cbn. by rewrite <- app_assoc.
  - apply listener_total.
Qed.
End facts.

(** *** The image prompt *)

Section heuristic.
Context `{Platform}.

Lemma toLowerCase_app a b : toLowerCase (a +:+ b) = toLowerCase a +:+ toLowerCase b.
Proof. induction a as [|c a IH]; simpl; congruence. Qed.

Lemma toLowerCase_split text a b :
  toLowerCase text = a +:+ b →
  ∃ ta tb, text = ta +:+ tb ∧ toLowerCase ta = a ∧ toLowerCase tb = b.
Proof.
  revert text. induction a as [|c a IH]; intros text Ht.
  - by exists "", text.
  - destruct text as [|d text]; [done|]. simpl in Ht. injection Ht as Hc Ht.
    destruct (IH text Ht) as (ta & tb & -> & Ha & Hb).
    exists (String d ta), tb. simpl. by rewrite Hc, Ha.
Qed.

Lemma starts_with_spec p s : starts_with p s = true ↔ ∃ rest, s = p +:+ rest.
Proof.
  revert s. induction p as [|a p IH]; intros s; simpl.
  - split; [by exists s|done].
  - destruct s as [|b s]; [split; [done|by intros [? ?]]|].
    rewrite andb_true_iff, IH. split.
    + intros [->%Ascii.eqb_eq [rest ->]]. by exists rest.
    + intros [rest [= -> ->]]. split; [apply Ascii.eqb_refl|by exists rest].
Qed.

Lemma includes_spec s needle :
  includes s needle = true ↔ ∃ before after, s = before +:+ needle +:+ after.
Proof.
  induction s as [|c s IH]; simpl.
  - rewrite orb_false_r, starts_with_spec. split.
    + intros [rest ->]. by exists "", rest.
    + intros ([|? before] & after & Hs); [by exists after|done].
  - rewrite orb_true_iff, starts_with_spec, IH. split.
    + intros [[rest ->]|(before & after & ->)].
      * by exists "", rest.
      * by exists (String c before), after.
    + intros ([|d before] & after & Hs).
      * left. by exists after.
      * right. injection Hs as -> ->. by exists before, after.
Qed.

(** [request.toLowerCase().includes(word)] finds the word in any casing. *)
Lemma includes_lower_mentions text word :
  toLowerCase word = word →
  includes (toLowerCase text) word = true ↔ mentions text word.
Proof.
  intros Hword. rewrite includes_spec. unfold mentions. rewrite Hword. split.
  - intros (before & after & Ht).
    destruct (toLowerCase_split _ _ _ Ht) as (tb & rest & -> & Hb & Hrest).
    destruct (toLowerCase_split _ _ _ Hrest) as (hit & ta & -> & Hhit & Ha).
    by exists tb, hit, ta.
  - intros (before & hit & after & -> & Hhit).
    exists (toLowerCase before), (toLowerCase after).
    by rewrite !toLowerCase_app, Hhit.
Qed.

(** C3: the image prompt is decided by four tests on the request, tried
    in order, the first that holds winning: both "iphone" and "android"
    occur (in any casing); else "chart", "graph" or "data" occurs; else
    "comparison" occurs; else the generic prompt, written around the
    request as it came.  One of the four cases holds for every request,
    and the prompt depends on nothing else: whatever the services answer
    and whatever the files hold, a content that is not the fallback
    carries the prompt of the table, and an image is asked for with no
    other prompt. *)
Theorem image_prompt_decision_table request :
  let both := mentions request "iphone" ∧ mentions request "android" in
  let data :=
    mentions request "chart" ∨ mentions request "graph" ∨ mentions request "data" in
  let comparison := mentions request "comparison" in
  let prompt := generateCustomContent_imagePrompt request in
  (both →
   prompt = "Professional infographic comparing iPhone vs Android messaging statistics, split-screen design with phone silhouettes, clean charts showing engagement rates, modern blue and white color scheme, business style")
  ∧ (¬ both → data →
     prompt = "Professional business chart or infographic about SMS messaging and customer communication, clean design, corporate colors, data visualization")
  ∧ (¬ both → ¬ data → comparison →
     prompt = "Professional comparison infographic for business messaging, side-by-side layout, clean corporate design, blue and white theme")
  ∧ (¬ both → ¬ data → ¬ comparison →
     prompt = "Professional LinkedIn post graphic about " +:+ request
              +:+ ", business style infographic, clean design, corporate blue and white colors, modern layout")
  ∧ (both ∨ (¬ both ∧ data) ∨ (¬ both ∧ ¬ data ∧ comparison)
     ∨ (¬ both ∧ ¬ data ∧ ¬ comparison))
  ∧ (∀ env w,
       ∃ result w',
         generateCustomContent env request w = (Returns result, w')
         ∧ (result = custom_fallback ∨ imagePrompt result = prompt)
         ∧ ∀ image, In (ImagesGenerate image) (calls_since w w') →
                    image = dalle_request prompt).
Proof.
  intros both data comparison prompt. subst both data comparison prompt.
  rewrite <- !includes_lower_mentions by done.
  split; [|split; [|split; [|split; [|split]]]].
  6:{ intros env w. rewrite generateCustomContent_run.
      destruct (generateCustomContent_context _) as [context|e].
      - cbv zeta. destruct (_ ≫= _) as [text|e].
        + destruct (_ ≫= _) as [url|e]; eexists _, _; (split; [reflexivity|]);
            (split; [by right|]); intros image;
            rewrite (calls_since_app w _
                       [ChatCompletionsCreate
                          (custom_chat_request context request);
                        ImagesGenerate
                          (dalle_request (generateCustomContent_imagePrompt request))])
              by (cbn; by rewrite <- app_assoc);
            intros [?|[[= <-]|[]]]; done.
        + eexists _, _. split; [reflexivity|]. split; [by left|]. intros image.
          rewrite (calls_since_app w _
                     [ChatCompletionsCreate (custom_chat_request context request)])
            by done.
          by intros [?|[]].
      - eexists _, _. split; [reflexivity|]. split; [by left|]. intros image.
        rewrite (calls_since_app w _ []) by (cbn; by rewrite app_nil_r).
        by intros []. }
  all: unfold generateCustomContent_imagePrompt, IPHONE_ANDROID_PROMPT, DATA_PROMPT,
         COMPARISON_PROMPT, generic_prompt;
       destruct (includes (toLowerCase request) "iphone"),
         (includes (toLowerCase request) "android"),
         (includes (toLowerCase request) "chart"),
         (includes (toLowerCase request) "graph"),
         (includes (toLowerCase request) "data"),
         (includes (toLowerCase request) "comparison"); cbn [andb orb];
       try (intuition congruence).
Qed.
End heuristic.

(** *** The context tails *)

Section contexts.
Context `{Platform}.

Lemma each_field_lines field (entries : list (list (string * value))) lines context :
  Forall2 (shows field) entries lines →
  JS.each
    (λ entry context,
       content ← JS.get entry field;
       content ← JS.ToString content;
       Returns (context +:+ "- " +:+ content +:+ nl))
    (map VObj entries) context
  = Returns (context +:+ bullets lines).
Proof.
  intros Hall. revert context.
  induction Hall as [|props line entries lines Hline _ IH]; intros context.
  - cbn. by rewrite append_nil_r.
  - cbn [map JS.each JS.get mbind outcome_bind]. unfold shows in Hline. rewrite Hline.
    cbn [mbind outcome_bind]. rewrite IH. cbn [bullets].
    by rewrite !append_assoc.
Qed.

Lemma slice_last_map {A B} (f : A → B) n (l : list A) :
  slice_last n (map f l) = map f (slice_last n l).
Proof. unfold slice_last. by rewrite length_map, skipn_map. Qed.

(** The context of the scheduled generation over two logs of objects:
    the [content] of the last ten entries of the posts log, then the
    [content] of the last five entries of the prompts log, each tail in
    the order of the log. *)
Lemma scheduled_context_tails (posts prompts : list (list (string * value)))
    (post_lines prompt_lines : list string) :
  Forall2 (shows "content") (slice_last 10 posts) post_lines →
  Forall2 (shows "content") (slice_last 5 prompts) prompt_lines →
  generateContentPrompt_context (VArr (map VObj posts)) (VArr (map VObj prompts))
  = Returns
      (IDENTITY
       +:+ match posts with
           | [] => ""
           | _ => nl +:+ nl +:+ "Here are some recent successful posts from the team:"
                  +:+ nl +:+ bullets post_lines
           end
       +:+ match prompts with
           | [] => ""
           | _ => nl +:+ nl +:+ "Avoid repeating these recent prompts:" +:+ nl
                  +:+ bullets prompt_lines
           end).
Proof.
  intros Hposts Hprompts. unfold generateContentPrompt_context.
  destruct posts as [|p posts]; destruct prompts as [|q prompts].
  - reflexivity.
  - cbn [map JS.length_gt_zero mbind outcome_bind JS.slice_neg JS.forEach].
    change (VObj q :: map VObj prompts) with (map VObj (q :: prompts)).
    rewrite slice_last_map, (each_field_lines _ _ prompt_lines) by done.
    by rewrite !append_assoc.
  - cbn [map JS.length_gt_zero mbind outcome_bind JS.slice_neg JS.forEach].
    change (VObj p :: map VObj posts) with (map VObj (p :: posts)).
    rewrite slice_last_map, (each_field_lines _ _ post_lines) by done.
    cbn [mbind outcome_bind]. by rewrite !append_assoc, append_nil_r.
  - cbn [map JS.length_gt_zero mbind outcome_bind JS.slice_neg JS.forEach].
    change (VObj p :: map VObj posts) with (map VObj (p :: posts)).
    change (VObj q :: map VObj prompts) with (map VObj (q :: prompts)).
    rewrite !slice_last_map, (each_field_lines _ _ post_lines) by done.
    cbn [mbind outcome_bind].
    rewrite (each_field_lines _ _ prompt_lines) by done. by rewrite !append_assoc.
Qed.

Lemma each_text_lines (entries : list (list (string * value))) (texts : list string) context :
  Forall2 (λ props text, JS.lookup_prop "messageText" props = VStr text ∧ text ≠ "")
    entries texts →
  JS.each
    (λ post context,
       messageText ← JS.get post "messageText";
       if JS.ToBoolean messageText then
         head ← JS.substring_to 100 messageText;
         Returns (context +:+ "- " +:+ head +:+ nl)
       else Returns context)
    (map VObj entries) context
  = Returns (context +:+ bullets (map (substring0 100) texts)).
Proof.
  intros Hall. revert context.
  induction Hall as [|props text entries texts [Htext Hne] _ IH]; intros context.
  - cbn. by rewrite append_nil_r.
  - cbn [map JS.each JS.get mbind outcome_bind]. rewrite Htext.
    cbn [JS.ToBoolean]. apply String.eqb_neq in Hne. rewrite Hne.
    cbn [negb JS.substring_to mbind outcome_bind]. rewrite IH. cbn [bullets].
    by rewrite !append_assoc.
Qed.

(** The context of the custom generation over a posts log whose entries
    have a text: the first hundred code units of the [messageText] of the
    last five entries, in the order of the log. *)
Lemma custom_context_tail (posts : list (list (string * value))) (texts : list string) :
  Forall2 (λ props text, JS.lookup_prop "messageText" props = VStr text ∧ text ≠ "")
    posts texts →
  generateCustomContent_context (VArr (map VObj posts))
  = Returns
      (IDENTITY
       +:+ match posts with
           | [] => ""
           | _ => nl +:+ nl +:+ "Recent team posts:" +:+ nl
                  +:+ bullets (map (substring0 100) (slice_last 5 texts))
           end).
Proof.
  intros Hall. unfold generateCustomContent_context.
  destruct Hall as [|props text posts texts Hhd Htl].
  - reflexivity.
  - cbn [map JS.length_gt_zero mbind outcome_bind JS.slice_neg JS.forEach].
    change (VObj props :: map VObj posts) with (map VObj (props :: posts)).
    rewrite slice_last_map.
    rewrite (each_text_lines _ (slice_last 5 (text :: texts))).
    + by rewrite !append_assoc.
    + unfold slice_last.
      assert (Hlen : length (props :: posts) = length (text :: texts)).
      { cbn. f_equal. by eapply Forall2_length. }
      rewrite Hlen. apply Forall2_drop. by constructor.
Qed.

(** A record that the listener wrote has no [content]. *)
Lemma post_record_content url message t :
  ∃ props, stored (post_record url message t) = VObj props
           ∧ JS.lookup_prop "content" props = VUndef.
Proof.
  unfold post_record. destruct (msg_user message), (msg_text message); by eexists.
Qed.

(** Over a posts log that the listener wrote, the scheduled context lists
    the word "undefined" once per entry of the tail. *)
Lemma scheduled_context_of_heard_posts (heard : list (string * message * string)) :
  heard ≠ [] →
  generateContentPrompt_context
    (VArr (map (λ '(url, message, t), stored (post_record url message t)) heard))
    (VArr [])
  = Returns
      (IDENTITY +:+ nl +:+ nl +:+ "Here are some recent successful posts from the team:"
       +:+ nl +:+ bullets (replicate (min 10 (length heard)) "undefined")).
Proof.
  intros Hne.
  assert (Hobjs : ∃ posts,
    map (λ '(url, message, t), stored (post_record url message t)) heard = map VObj posts
    ∧ length posts = length heard
    ∧ Forall (λ props, JS.lookup_prop "content" props = VUndef) posts).
  { clear Hne. induction heard as [|[[url message] t] heard (posts & Heq & Hlen & Hall)].
    - by exists [].
    - destruct (post_record_content url message t) as (props & Hp & Hc).
      exists (props :: posts). cbn [map]. rewrite Hp, Heq. cbn. by rewrite Hlen; auto. }
  destruct Hobjs as (posts & -> & Hlen & Hall).
  change (VArr []) with (VArr (map VObj [])).
  assert (Htail : Forall (λ props, JS.lookup_prop "content" props = VUndef)
                    (slice_last 10 posts)) by (by apply Forall_drop).
  assert (Hn : length (slice_last 10 posts) = min 10 (length heard)).
  { unfold slice_last. rewrite length_drop. lia. }
  rewrite (scheduled_context_tails posts [] (replicate (min 10 (length heard)) "undefined") []).
  - rewrite append_nil_r. destruct posts as [|p posts]; [by destruct heard|]. done.
  - rewrite <- Hn. clear -Htail.
    induction Htail as [|props l Hc _ IH]; [constructor|].
    cbn [length replicate]. constructor; [|done]. unfold shows. by rewrite Hc.
  - constructor.
Qed.
End contexts.

(** *** The links that are heard *)

Section urls.

Lemma space_width_prefix a b : a ≠ "" → space_width (a +:+ b) = 0 → space_width a = 0.
Proof.
  intros Ha. destruct a as [|x [|y [|z a]]]; [done|..]; destruct b as [|u [|v b]];
    cbn [String.append]; unfold space_width; repeat case_match; congruence.
Qed.

Lemma span_nonspace_no_space s token rest :
  span_nonspace s = (token, rest) → has_space token = false.
Proof.
  revert token rest. induction s as [|c s IH]; intros token rest.
  - by intros [= <- <-].
  - cbn [span_nonspace]. destruct (space_width (String c s)) eqn:Hc.
    + destruct (span_nonspace s) as [t r] eqn:Hs. intros [= <- <-].
      pose proof (span_nonspace_app _ _ _ Hs) as ->.
      cbn [has_space]. rewrite (space_width_prefix (String c t) r) by done.
      by apply (IH t r).
    + by intros [= <- <-].
Qed.

Lemma span_nonspace_rest s token rest :
  span_nonspace s = (token, rest) → rest = "" ∨ space_width rest ≠ 0.
Proof.
  revert token rest. induction s as [|c s IH]; intros token rest.
  - intros [= <- <-]. by left.
  - cbn [span_nonspace]. destruct (space_width (String c s)) eqn:Hc.
    + destruct (span_nonspace s) as [t r] eqn:Hs. intros [= <- <-]. by apply (IH t r).
    + intros [= <- <-]. right. by rewrite Hc.
Qed.

Lemma has_space_cons c s :
  (code c <? 128)%N = true → space_width (String c "") = 0 →
  has_space (String c s) = has_space s.
Proof.
  intros Hc Hw. cbn [has_space].
  assert (space_width (String c s) = 0) as ->; [|done].
  revert Hw. unfold space_width.
  apply N.ltb_lt in Hc.
  destruct (_ || _)%bool; [done|]. intros _.
  destruct s as [|b [|d s]]; [done|..];
    repeat (case_match; try done);
    repeat match goal with
    | H : (_ && _)%bool = true |- _ => apply andb_prop in H as [? ?]
    | H : (_ =? _)%N = true |- _ => apply N.eqb_eq in H
    end; lia.
Qed.

Lemma matched_url_no_space www token :
  www = "www." ∨ www = "" → has_space token = false →
  has_space ("https://" +:+ www +:+ "linkedin.com/posts/" +:+ token) = false.
Proof.
  intros [->| ->] Ht; cbn [String.append]; by rewrite !has_space_cons by reflexivity.
Qed.

Lemma append_inv_head a b c : a +:+ b = a +:+ c → b = c.
Proof. induction a as [|x a IH]; [done|]. intros [= Hbc]. by apply IH. Qed.

Lemma found_in_order_pass c s urls :
  found_in_order s urls → found_in_order (String c s) urls.
Proof.
  destruct urls as [|url rest]; [done|]. cbn [found_in_order].
  intros (before & after & -> & Hafter & Hrest). by exists (String c before), after.
Qed.

Lemma scan_first text url urls :
  linkedinUrlRegex_scan 0 text = url :: urls →
  ∃ before s, text = before +:+ s ∧ linkedinUrlRegex_here s = Some url.
Proof.
  induction text as [|c r IH]; [done|]. cbn [linkedinUrlRegex_scan].
  destruct (linkedinUrlRegex_here (String c r)) as [u|] eqn:Hhere.
  - intros [= -> _]. by exists "", (String c r).
  - intros (before & s & -> & Hs)%IH. by exists (String c before), s.
Qed.

Lemma here_scan before s url :
  linkedinUrlRegex_here s = Some url → linkedinUrlRegex_scan 0 (before +:+ s) ≠ [].
Proof.
  intros Hs. induction before as [|c b IH].
  - destruct s as [|c r]; [cbv in Hs; discriminate Hs|]. cbn [String.append linkedinUrlRegex_scan]. by rewrite Hs.
  - change (String c b +:+ s) with (String c (b +:+ s)). cbn [linkedinUrlRegex_scan].
    by destruct (linkedinUrlRegex_here (String c (b +:+ s))).
Qed.

Lemma strip_prefix_app p s : strip_prefix p (p +:+ s) = Some s.
Proof. induction p as [|a p IH]; [by destruct s|]. cbn. by rewrite Ascii.eqb_refl. Qed.

Lemma here_post_link www c after :
  www = "www." ∨ www = "" → space_width (String c after) = 0 →
  ∃ url, linkedinUrlRegex_here ("https://" +:+ www +:+ "linkedin.com/posts/" +:+ String c after)
         = Some url.
Proof.
  intros Hwww Hc. unfold linkedinUrlRegex_here.
  rewrite strip_prefix_app. cbn [mbind option_bind].
  assert (Hpath : ∀ w, ∃ url,
    (strip_prefix "linkedin.com/posts/" ("linkedin.com/posts/" +:+ String c after) ≫= λ rest,
       match span_nonspace rest with
       | ("", _) => None
       | (token, _) => Some ("https://" +:+ w +:+ "linkedin.com/posts/" +:+ token)
       end) = Some url).
  { intros w. rewrite strip_prefix_app. cbn [mbind option_bind span_nonspace].
    rewrite Hc. destruct (span_nonspace after). by eexists. }
  destruct Hwww as [->| ->].
  - rewrite strip_prefix_app. cbn [mbind option_bind].
    destruct (Hpath "www.") as [url ->]. by exists url.
  - change ("" +:+ ?x) with x.
    assert (strip_prefix "www." ("linkedin.com/posts/" +:+ String c after) = None) as ->
      by reflexivity.
    cbn [mbind option_bind]. apply Hpath.
Qed.

(** X1: every match of the URL pattern is the scheme, the host with or
    without [www.], the path of a post and a token that is not empty, and
    holds no white space. *)
Theorem matched_urls_shape text :
  Forall (λ url, ∃ www token,
            (www = "www." ∨ www = "") ∧ token ≠ ""
            ∧ url = "https://" +:+ www +:+ "linkedin.com/posts/" +:+ token
            ∧ has_space url = false)
    (linkedinUrlRegex_scan 0 text).
Proof.
  induction (linkedinUrlRegex_scan_matches text) as [|c s urls _ _ IH|url rest urls _ Hhere _ IH];
    [constructor|exact IH|].
  constructor; [|exact IH].
  destruct (linkedinUrlRegex_here_shape _ _ Hhere)
    as (www & token & rest' & Hwww & Hne & -> & _ & Hspan).
  exists www, token. repeat split; try done.
  apply matched_url_no_space; [done|]. by apply span_nonspace_no_space in Hspan.
Qed.

(** X2: the matches lie in the text in the order in which they are listed,
    none over another, and each runs up to white space or to the end of
    the text. *)
Theorem matched_urls_in_order text :
  found_in_order text (linkedinUrlRegex_scan 0 text).
Proof.
  induction (linkedinUrlRegex_scan_matches text) as [|c s urls _ _ IH|url rest urls _ Hhere _ IH].
  - done.
  - by apply found_in_order_pass.
  - cbn [found_in_order]. exists "", rest. split; [done|]. split; [|done].
    destruct (linkedinUrlRegex_here_shape _ _ Hhere)
      as (www & token & rest' & _ & _ & _ & ->%append_inv_head & Hspan).
    by apply span_nonspace_rest in Hspan.
Qed.

Lemma match_iff_post_link text :
  linkedinUrlRegex_scan 0 text ≠ [] ↔ holds_post_link text.
Proof.
  split.
  - destruct (linkedinUrlRegex_scan 0 text) as [|url urls] eqn:Hscan; [done|]. intros _.
    destruct (scan_first _ _ _ Hscan) as (before & s & -> & Hs).
    destruct (linkedinUrlRegex_here_shape _ _ Hs)
      as (www & token & rest & Hwww & Hne & -> & -> & Hspan).
    destruct token as [|c token]; [done|].
    exists before, www, c, (token +:+ rest). split; [done|]. split.
    + by rewrite !append_assoc.
    + change (String c token +:+ rest) with (String c (token +:+ rest)) in Hspan.
      cbn [span_nonspace] in Hspan. by destruct (space_width _).
  - intros (before & www & c & after & Hwww & -> & Hc).
    destruct (here_post_link www c after Hwww Hc) as [url Hurl].
    by apply here_scan with url.
Qed.

End urls.

(** *** The listener, whatever it is answered *)

Section listener.
Context `{Platform} (env : Env).

Lemma push_posts_frame message urls posts w :
  ∃ r w1, push_posts env message urls posts w = (r, w1)
          ∧ files w1 = files w ∧ console w1 = console w ∧ calls w1 = calls w.
Proof.
  revert posts w. induction urls as [|url rest IH]; intros posts w; [by eexists _, _|].
  cbn [push_posts]. unfold mbind, M_bind, lift, now.
  destruct posts as [| |b|lit|s|elems|props]; cbn [JS.member JS.push];
    try (by eexists _, _).
  destruct (IH (VArr (elems ++ [post_record url message (iso (clock env (ticks w)))])) (tick w))
    as (r & w1 & -> & ? & ? & ?).
  by eexists _, _.
Qed.

Lemma push_posts_no_array message url rest v w :
  (∀ l, v ≠ VArr l) →
  ∃ w1, push_posts env message (url :: rest) v w = (Throws TypeError, w1)
        ∧ files w1 = files w ∧ console w1 = console w ∧ calls w1 = calls w.
Proof.
  intros Hv. cbn [push_posts]. unfold mbind, M_bind, lift, now.
  destruct v as [| |b|lit|s|elems|props]; cbn [JS.member JS.push];
    try (by eexists); by destruct (Hv elems).
Qed.

Lemma saveData_frame filename data w :
  ∃ w', saveData env filename data w = (Returns (), w')
        ∧ calls w' = calls w ∧ ticks w' = ticks w
        ∧ (∀ f, f ≠ filename → files w' !! f = files w !! f)
        ∧ (files w' = files w ∨ console w' = console w).
Proof.
  unfold saveData, try_catch, writeFile, throw, console_error.
  destruct (JSON.stringify data) as [text|]; [destruct (write_fails env filename)|];
    eexists; (split; [reflexivity|]); cbn; repeat split; auto.
  intros f Hf. by rewrite lookup_insert_ne.
Qed.

Lemma app_message_links message text url rest w :
  msg_text message = Some text → linkedinUrlRegex_scan 0 text = url :: rest →
  app_message env message w
  = try_catch
      (invoke (ReactionsAdd (msg_channel message) (msg_ts message) "link")
         (reactions_add env (msg_channel message) (msg_ts message) "link");;
       posts ← loadData env POSTS_FILE;
       posts ← push_posts env message (url :: rest) posts;
       saveData env POSTS_FILE posts;;
       invoke (Say (encouragement (url :: rest)) (msg_ts message))
         (say env (encouragement (url :: rest)) (msg_ts message)))
      (λ error, console_error "Error handling LinkedIn URL:" error) w.
Proof.
  intros Htext Hscan. unfold app_message. rewrite Htext. cbn [mbind option_bind].
  unfold match_linkedinUrlRegex. by rewrite Hscan.
Qed.

(** X3: the listener returns in every world, whatever Slack and the file
    system answer.  It changes no file but the posts log, calls no
    generation service, and what it asks of Slack is the reaction, then
    the reply in the thread, or the reaction alone, or nothing. *)
Theorem listener_keeps_to_its_log message w :
  ∃ w' asked reply,
    app_message env message w = (Returns (), w')
    ∧ (∀ f, f ≠ POSTS_FILE → files w' !! f = files w !! f)
    ∧ calls w' = calls w ++ asked
    ∧ asked `prefix_of` [ ReactionsAdd (msg_channel message) (msg_ts message) "link";
                          Say reply (msg_ts message) ].
Proof.
  destruct (msg_text message ≫= match_linkedinUrlRegex) as [urls|] eqn:Hurls.
  - unfold app_message. rewrite Hurls.
    unfold try_catch, mbind at 1, M_bind, invoke at 1, perform.
    destruct (reactions_add env _ _ _) as [[]|e].
    + unfold mbind at 1, M_bind. rewrite loadData_returns.
      unfold mbind at 1, M_bind.
      destruct (push_posts_frame message urls (stored_log env POSTS_FILE (files (record_call
         (ReactionsAdd (msg_channel message) (msg_ts message) "link") w)))
         (record_call (ReactionsAdd (msg_channel message) (msg_ts message) "link") w))
        as (r & w1 & -> & Hf1 & _ & Hc1).
      destruct r as [posts|e].
      * unfold mbind at 1, M_bind.
        destruct (saveData_frame POSTS_FILE posts w1) as (w2 & -> & Hc2 & _ & Hf2 & _).
        unfold invoke, perform.
        exists (match say env (encouragement urls) (msg_ts message) with
                | Returns _ => record_call (Say (encouragement urls) (msg_ts message)) w2
                | Throws e =>
                    log_error "Error handling LinkedIn URL:" e
                      (record_call (Say (encouragement urls) (msg_ts message)) w2)
                end), [ReactionsAdd (msg_channel message) (msg_ts message) "link";
                       Say (encouragement urls) (msg_ts message)], (encouragement urls).
        destruct (say env _ _) as [[]|e]; cbn [console_error files calls record_call log_error];
          (split; [done|]); (split; [by intros f Hf; rewrite Hf2, Hf1|]);
          (split; [|done]); rewrite Hc2, Hc1; cbn; by rewrite <- app_assoc.
      * eexists _, [ReactionsAdd (msg_channel message) (msg_ts message) "link"], "".
        split; [reflexivity|]. cbn [files calls log_error]. split; [by intros; rewrite Hf1|].
        split; [by rewrite Hc1|]. by eexists.
    + eexists _, [ReactionsAdd (msg_channel message) (msg_ts message) "link"], "".
      split; [reflexivity|]. cbn. split; [done|]. split; [done|]. by eexists.
  - exists w, [], "". unfold app_message. rewrite Hurls. split; [done|]. split; [done|].
    split; [by rewrite app_nil_r|]. by eexists.
Qed.

(** X4: the listener acts on a message exactly when its text holds a link
    to a post: then it asks Slack for the reaction; on any other text it
    leaves the world as it was. *)
Theorem listener_trigger message text w :
  msg_text message = Some text →
  (holds_post_link text →
     ∃ w' more, app_message env message w = (Returns (), w')
                ∧ calls w' = calls w ++ ReactionsAdd (msg_channel message) (msg_ts message) "link"
                                        :: more)
  ∧ (¬ holds_post_link text → app_message env message w = (Returns (), w)).
Proof.
  intros Htext. split.
  - intros Hlink%match_iff_post_link.
    destruct (linkedinUrlRegex_scan 0 text) as [|url rest] eqn:Hscan; [done|].
    destruct (listener_total env message w) as [w' Hrun]. exists w'.
    rewrite (app_message_links message text url rest) in Hrun |- * by done.
    rewrite Hrun.
    unfold try_catch, mbind at 1, M_bind, invoke at 1, perform in Hrun.
    destruct (reactions_add env _ _ _) as [[]|e].
    + unfold mbind at 1, M_bind in Hrun. rewrite loadData_returns in Hrun.
      unfold mbind at 1, M_bind in Hrun.
      destruct (push_posts_frame message (url :: rest) (stored_log env POSTS_FILE (files (record_call
         (ReactionsAdd (msg_channel message) (msg_ts message) "link") w)))
         (record_call (ReactionsAdd (msg_channel message) (msg_ts message) "link") w))
        as (r & w1 & Hpush & _ & _ & Hc1).
      rewrite Hpush in Hrun. destruct r as [posts|e].
      * unfold mbind at 1, M_bind in Hrun.
        destruct (saveData_frame POSTS_FILE posts w1) as (w2 & Hsave & Hc2 & _).
        rewrite Hsave in Hrun. unfold invoke, perform in Hrun.
        exists [Say (encouragement (url :: rest)) (msg_ts message)]. split; [done|].
        destruct (say env _ _) as [[]|e]; injection Hrun as <-;
          cbn [calls record_call log_error]; rewrite Hc2, Hc1; cbn; by rewrite <- app_assoc.
      * exists []. split; [done|]. injection Hrun as <-. cbn. by rewrite Hc1.
    + exists []. split; [done|]. by injection Hrun as <-.
  - intros Hno. unfold app_message. rewrite Htext. cbn [mbind option_bind].
    unfold match_linkedinUrlRegex.
    destruct (linkedinUrlRegex_scan 0 text) as [|url rest] eqn:Hscan; [done|].
    destruct Hno. apply match_iff_post_link. by rewrite Hscan.
Qed.

(** X5: a posts file that is not JSON is replaced: the listener takes the
    log for empty and writes the records of the message alone, without a
    word on the console. *)
Theorem corrupt_log_is_replaced message text url rest data w :
  msg_text message = Some text →
  linkedinUrlRegex_scan 0 text = url :: rest →
  reactions_add env (msg_channel message) (msg_ts message) "link" = Returns () →
  say env (encouragement (url :: rest)) (msg_ts message) = Returns () →
  read_fails env POSTS_FILE = None → write_fails env POSTS_FILE = None →
  files w !! POSTS_FILE = Some data → JSON.parse data = None →
  ∃ w', app_message env message w = (Returns (), w')
        ∧ stored_log env POSTS_FILE (files w')
          = VArr (map stored (post_records env message (url :: rest) (ticks w)))
        ∧ files w' !! POSTS_FILE ≠ Some data
        ∧ console w' = console w.
Proof.
  intros Htext Hscan Hreact Hsay Hread Hwrite Hdata Hbad.
  assert (Hlog : stored_log env POSTS_FILE (files w) = VArr []).
  { unfold stored_log. by rewrite Hread, Hdata, Hbad. }
  destruct (listener_saves env message text url rest [] w) as (posts_text & Hrun & Hafter);
    try done.
  unfold try_catch, invoke, perform in Hrun. rewrite Hsay in Hrun.
  eexists. split; [exact Hrun|]. cbn [files record_call console].
  split; [exact Hafter|]. split; [|done].
  rewrite lookup_insert_eq. intros [= ->].
  unfold stored_log in Hafter. rewrite Hread, lookup_insert_eq, Hbad in Hafter.
  done.
Qed.

(** X6: a posts file that holds JSON other than an array stops the
    listener after the reaction: pushing a record raises, the error is
    written to the console, the file is left as it was and no reply is
    posted. *)
Theorem log_that_is_no_array_stops_listener message text url rest v w :
  msg_text message = Some text →
  linkedinUrlRegex_scan 0 text = url :: rest →
  reactions_add env (msg_channel message) (msg_ts message) "link" = Returns () →
  stored_log env POSTS_FILE (files w) = v → (∀ l, v ≠ VArr l) →
  ∃ w', app_message env message w = (Returns (), w')
        ∧ files w' = files w
        ∧ calls_since w w' = [ReactionsAdd (msg_channel message) (msg_ts message) "link"]
        ∧ console w' = console w ++ [("Error handling LinkedIn URL:", TypeError)].
Proof.
  intros Htext Hscan Hreact Hlog Hv.
  rewrite (app_message_links message text url rest) by done.
  unfold try_catch, mbind at 1, M_bind, invoke at 1, perform. rewrite Hreact.
  unfold mbind at 1, M_bind. rewrite loadData_returns. cbn [files record_call]. rewrite Hlog.
  unfold mbind at 1, M_bind.
  destruct (push_posts_no_array message url rest v
              (record_call (ReactionsAdd (msg_channel message) (msg_ts message) "link") w) Hv)
    as (w1 & -> & Hf & Hco & Hca).
  eexists. split; [reflexivity|]. cbn [files console calls log_error].
  rewrite Hf, Hco. split; [done|]. split; [|done].
  apply calls_since_app. cbn [calls log_error]. by rewrite Hca.
Qed.

Lemma json_value_stored_post_records message urls t :
  forallb json_value (map stored (post_records env message urls t)) = true.
Proof.
  revert t. induction urls as [|url rest IH]; intros t; [done|].
  cbn [post_records map forallb]. rewrite IH, andb_true_r.
  unfold post_record. by destruct (msg_user message), (msg_text message).
Qed.

(** X7: the listener does not look for a link it has already recorded: a
    message heard twice is recorded twice, the second records behind the
    first. *)
Theorem heard_twice_recorded_twice message text url rest old w :
  msg_text message = Some text →
  linkedinUrlRegex_scan 0 text = url :: rest →
  reactions_add env (msg_channel message) (msg_ts message) "link" = Returns () →
  say env (encouragement (url :: rest)) (msg_ts message) = Returns () →
  read_fails env POSTS_FILE = None → write_fails env POSTS_FILE = None →
  stored_log env POSTS_FILE (files w) = VArr old → forallb json_value old = true →
  ∃ w1 w2,
    app_message env message w = (Returns (), w1)
    ∧ app_message env message w1 = (Returns (), w2)
    ∧ stored_log env POSTS_FILE (files w2)
      = VArr (old
              ++ map stored (post_records env message (url :: rest) (ticks w))
              ++ map stored (post_records env message (url :: rest)
                               (S (length rest) + ticks w))).
Proof.
  intros Htext Hscan Hreact Hsay Hread Hwrite Hlog Hold.
  destruct (listener_saves env message text url rest old w) as (text1 & Hrun1 & Hafter1);
    try done.
  unfold try_catch, invoke, perform in Hrun1. rewrite Hsay in Hrun1.
  match type of Hrun1 with _ = (_, ?w1) =>
    destruct (listener_saves env message text url rest
                (old ++ map stored (post_records env message (url :: rest) (ticks w))) w1)
      as (text2 & Hrun2 & Hafter2); try done
  end.
  { by rewrite forallb_app, Hold, json_value_stored_post_records. }
  unfold try_catch, invoke, perform in Hrun2. rewrite Hsay in Hrun2.
  eexists _, _. split; [exact Hrun1|]. split; [exact Hrun2|].
  cbn [files record_call ticks] in *. rewrite Hafter2. by rewrite <- app_assoc.
Qed.

End listener.

(** *** The generators, whatever they are answered *)

Section generators.
Context `{Platform} (env : Env).

(** X8: [generateContentPrompt] returns in every world and changes no file.
    It asks for one completion at most; its result is the first choice of
    that completion, or else the fixed fallback with the error on the
    console. *)
Theorem generateContentPrompt_contract w :
  ∃ prompt w' asked,
    generateContentPrompt env w = (Returns prompt, w')
    ∧ files w' = files w ∧ ticks w' = ticks w
    ∧ calls w' = calls w ++ asked
    ∧ ((∃ chat more,
          asked = [ChatCompletionsCreate chat]
          ∧ chat_completions_create env chat = Returns (prompt :: more)
          ∧ console w' = console w)
       ∨ (prompt = daily_fallback
          ∧ (asked = [] ∨ ∃ chat, asked = [ChatCompletionsCreate chat])
          ∧ ∃ e, console w' = console w ++ [("Error generating prompt:", e)])).
Proof.
  rewrite generateContentPrompt_run.
  destruct (generateContentPrompt_context _ _) as [context|e].
  - cbv zeta.
    destruct (chat_completions_create env (daily_chat_request context)) as [[|c cs]|e] eqn:Hchat;
      cbn [mbind outcome_bind first_choice].
    + eexists _, _, [_]. split; [reflexivity|]. cbn. repeat split. right.
      split; [done|]. split; [right; by eexists|by eexists].
    + eexists _, _, [_]. split; [reflexivity|]. cbn. repeat split. left. by eexists _, _.
    + eexists _, _, [_]. split; [reflexivity|]. cbn. repeat split. right.
      split; [done|]. split; [right; by eexists|by eexists].
  - eexists _, _, []. split; [reflexivity|]. cbn. rewrite app_nil_r. repeat split. right.
    split; [done|]. split; [by left|by eexists].
Qed.

(** X9: [generateCustomContent] returns in every world and changes no file.
    Either it returns the fixed fallback, with the error on the console
    and no image asked for; or it returns the first choice of the
    completion with the prompt of the heuristic, and the image is the
    [url] of the first image generated, or [null] with the error on the
    console. *)
Theorem generateCustomContent_contract request w :
  let prompt := generateCustomContent_imagePrompt request in
  ∃ result w' asked,
    generateCustomContent env request w = (Returns result, w')
    ∧ files w' = files w ∧ ticks w' = ticks w
    ∧ calls w' = calls w ++ asked
    ∧ ((result = custom_fallback
        ∧ (asked = [] ∨ ∃ chat, asked = [ChatCompletionsCreate chat])
        ∧ ∃ e, console w' = console w ++ [("OpenAI Error:", e)])
       ∨ (∃ chat text more,
            asked = [ChatCompletionsCreate chat; ImagesGenerate (dalle_request prompt)]
            ∧ chat_completions_create env chat = Returns (text :: more)
            ∧ textContent result = text ∧ imagePrompt result = prompt
            ∧ ((∃ url others,
                  images_generate env (dalle_request prompt) = Returns (url :: others)
                  ∧ imageUrl result = of_option url ∧ console w' = console w)
               ∨ (imageUrl result = VNull
                  ∧ ∃ e, console w' = console w ++ [("Image generation failed:", e)])))).
Proof.
  intros prompt. rewrite generateCustomContent_run.
  destruct (generateCustomContent_context _) as [context|e].
  - cbv zeta.
    destruct (chat_completions_create env (custom_chat_request context request))
      as [[|c cs]|e] eqn:Hchat; cbn [mbind outcome_bind first_choice].
    + eexists _, _, [_]. split; [reflexivity|]. cbn. repeat split. left.
      split; [done|]. split; [right; by eexists|by eexists].
    + fold prompt.
      destruct (images_generate env (dalle_request prompt)) as [[|u us]|e] eqn:Himg;
        cbn [mbind outcome_bind first_url];
        (eexists _, _, [_; _]; split; [reflexivity|]; cbn [files ticks calls console
           record_call log_error textContent imagePrompt imageUrl];
         split; [done|]; split; [done|]; split; [by rewrite <- app_assoc|]; right;
         exists (custom_chat_request context request), c, cs;
         split; [done|]; split; [done|]; split; [done|]; split; [done|]).
      * right. split; [done|]. by eexists.
      * left. by exists u, us.
      * right. split; [done|]. by eexists.
    + eexists _, _, [_]. split; [reflexivity|]. cbn. repeat split. left.
      split; [done|]. split; [right; by eexists|by eexists].
  - eexists _, _, []. split; [reflexivity|]. cbn. rewrite app_nil_r. repeat split. left.
    split; [done|]. split; [by left|by eexists].
Qed.

Lemma each_throws {A S} (f : A → S → outcome S) l s e :
  (∀ x s e, f x s = Throws e → e = TypeError) → JS.each f l s = Throws e → e = TypeError.
Proof.
  intros Hf. revert s. induction l as [|x l IH]; intros s; [done|]. cbn [JS.each].
  destruct (f x s) as [s'|e'] eqn:Hx; cbn [mbind outcome_bind].
  - apply IH.
  - intros [= <-]. by apply (Hf x s).
Qed.

Lemma ToString_throws v e : JS.ToString v = Throws e → e = TypeError.
Proof.
  revert e. induction v as [| |b|lit|s|elems IH|props IH] using value_nested_ind;
    intros e; try done.
  - by destruct b.
  - cbn [JS.ToString].
    match goal with |- context [mbind _ (?g elems)] => set (go := g) end.
    assert (Hgo : ∀ e, go elems = Throws e → e = TypeError).
    { clear e. induction IH as [|x l Hx _ IHl]; intros e; [done|].
      assert (Hrest : ∀ e, (texts ← go l; Returns ("" :: texts)) = Throws e → e = TypeError).
      { intros e'. destruct (go l) as [texts|e0] eqn:Hl; [done|].
        intros [= <-]. by apply IHl. }
      destruct x; try apply Hrest; cbn [go]; fold go;
        (destruct (JS.ToString _) as [text|e0] eqn:Hx0; cbn [mbind outcome_bind];
         [|intros [= <-]; by apply Hx];
         destruct (go l) as [texts|e1] eqn:Hl; cbn [mbind outcome_bind]; [done|];
         intros [= <-]; by apply IHl). }
    destruct (go elems) as [texts|e0] eqn:Hl; cbn [mbind outcome_bind]; [done|].
    intros [= <-]. by apply Hgo.
  - cbn [JS.ToString]. destruct (JSON.has_key "toString" props); congruence.
Qed.

Lemma gt_zero_throws v e : JS.gt_zero v = Throws e → e = TypeError.
Proof.
  destruct v; try done; unfold JS.gt_zero;
    (destruct (JS.ToString _) as [text|e0] eqn:Ht; cbn [mbind outcome_bind]; [done|];
     intros [= <-]; by apply ToString_throws in Ht).
Qed.

Lemma length_gt_zero_throws v e : JS.length_gt_zero v = Throws e → e = TypeError.
Proof. destruct v; cbn [JS.length_gt_zero]; try congruence. apply gt_zero_throws. Qed.

Lemma slice_neg_throws n v e : JS.slice_neg n v = Throws e → e = TypeError.
Proof. destruct v; cbn; congruence. Qed.

Lemma forEach_throws {S} v (f : value → S → outcome S) s e :
  (∀ x s e, f x s = Throws e → e = TypeError) → JS.forEach v f s = Throws e → e = TypeError.
Proof. intros Hf. destruct v; cbn; try congruence. by apply each_throws. Qed.

Lemma get_throws v k e : JS.get v k = Throws e → e = TypeError.
Proof. destruct v; cbn; congruence. Qed.

Lemma substring_to_throws n v e : JS.substring_to n v = Throws e → e = TypeError.
Proof. destruct v; cbn; congruence. Qed.

Lemma custom_context_throws v e :
  generateCustomContent_context v = Throws e → e = TypeError.
Proof.
  unfold generateCustomContent_context.
  destruct (JS.length_gt_zero v) as [[]|e0] eqn:Hlen; cbn [mbind outcome_bind].
  - destruct (JS.slice_neg 5 v) as [recent|e1] eqn:Hslice; cbn [mbind outcome_bind].
    + apply forEach_throws. intros post context e2.
      destruct (JS.get post "messageText") as [text|e3] eqn:Hget; cbn [mbind outcome_bind].
      * destruct (JS.ToBoolean text); [|done].
        destruct (JS.substring_to 100 text) as [head|e4] eqn:Hsub; cbn [mbind outcome_bind];
          [done|]. intros [= <-]. by apply substring_to_throws in Hsub.
      * intros [= <-]. by apply get_throws in Hget.
    + intros [= <-]. by apply slice_neg_throws in Hslice.
  - done.
  - intros [= <-]. by apply length_gt_zero_throws in Hlen.
Qed.

Lemma field_lines_throws field v context e :
  JS.forEach v
    (λ entry context,
       content ← JS.get entry field;
       content ← JS.ToString content;
       Returns (context +:+ "- " +:+ content +:+ nl)) context = Throws e →
  e = TypeError.
Proof.
  apply forEach_throws. intros entry c e0.
  destruct (JS.get entry field) as [x|e1] eqn:Hget; cbn [mbind outcome_bind];
    [|intros [= <-]; by apply get_throws in Hget].
  destruct (JS.ToString x) as [text|e1] eqn:Htext; cbn [mbind outcome_bind]; [done|].
  intros [= <-]. by apply ToString_throws in Htext.
Qed.

Lemma daily_context_throws posts prompts e :
  generateContentPrompt_context posts prompts = Throws e → e = TypeError.
Proof.
  unfold generateContentPrompt_context.
  destruct (JS.length_gt_zero posts) as [some|e0] eqn:Hlen; cbn [mbind outcome_bind];
    [|intros [= <-]; by apply length_gt_zero_throws in Hlen].
  match goal with |- context [mbind _ ?m] => destruct m as [context|e1] eqn:Hposts end;
    cbn [mbind outcome_bind].
  - destruct (JS.length_gt_zero prompts) as [[]|e0] eqn:Hlen2; cbn [mbind outcome_bind];
      [|done|intros [= <-]; by apply length_gt_zero_throws in Hlen2].
    destruct (JS.slice_neg 5 prompts) as [recent|e1] eqn:Hslice; cbn [mbind outcome_bind];
      [apply field_lines_throws|intros [= <-]; by apply slice_neg_throws in Hslice].
  - intros [= <-]. destruct some; [|done].
    destruct (JS.slice_neg 10 posts) as [recent|e2] eqn:Hslice; cbn [mbind outcome_bind] in Hposts.
    + by apply field_lines_throws in Hposts.
    + injection Hposts as <-. by apply slice_neg_throws in Hslice.
Qed.

(** X10: a completion that comes without a choice is an error like any
    other: each generator returns its fallback, writes the [TypeError] to
    the console, and the custom one asks for no image. *)
Theorem empty_choices_fallback request w :
  (∀ chat, chat_completions_create env chat = Returns []) →
  (∃ w', generateContentPrompt env w = (Returns daily_fallback, w')
         ∧ console w' = console w ++ [("Error generating prompt:", TypeError)])
  ∧ (∃ w', generateCustomContent env request w = (Returns custom_fallback, w')
           ∧ console w' = console w ++ [("OpenAI Error:", TypeError)]
           ∧ Forall (λ c, ∀ image, c ≠ ImagesGenerate image) (calls_since w w')).
Proof.
  intros Hnone. split.
  - rewrite generateContentPrompt_run.
    destruct (generateContentPrompt_context _ _) as [context|e] eqn:Hctx.
    + cbv zeta. rewrite Hnone. by eexists.
    + apply daily_context_throws in Hctx as ->. by eexists.
  - rewrite generateCustomContent_run.
    destruct (generateCustomContent_context _) as [context|e] eqn:Hctx.
    + cbv zeta. rewrite Hnone. eexists. split; [reflexivity|]. split; [done|].
      rewrite (calls_since_app w _ [ChatCompletionsCreate (custom_chat_request context request)])
        by done.
      by repeat constructor.
    + apply custom_context_throws in Hctx as ->. eexists. split; [reflexivity|].
      split; [done|]. rewrite (calls_since_app w _ []) by (cbn; by rewrite app_nil_r).
      constructor.
Qed.

(** X11: a posts log that holds [null], or an array with a [null] among
    the entries that the context is drawn from, makes each generator
    return its fallback without a call to the generation service. *)
Theorem null_in_posts_log_fallback request w :
  let posts := stored_log env POSTS_FILE (files w) in
  ((posts = VNull ∨ ∃ entries, posts = VArr entries ∧ VNull ∈ slice_last 10 entries) →
     generateContentPrompt env w
     = (Returns daily_fallback, log_error "Error generating prompt:" TypeError w))
  ∧ ((posts = VNull ∨ ∃ entries, posts = VArr entries ∧ VNull ∈ slice_last 5 entries) →
       generateCustomContent env request w
       = (Returns custom_fallback, log_error "OpenAI Error:" TypeError w)).
Proof.
  intros posts.
  assert (Heach : ∀ {S} (f : value → S → outcome S) l s,
            (∀ s, f VNull s = Throws TypeError) → VNull ∈ l →
            (∀ x s e, f x s = Throws e → e = TypeError) →
            JS.each f l s = Throws TypeError).
  { intros S f l s Hnull Hin Hf. revert s.
    induction l as [|x l IH]; intros s; [by apply elem_of_nil in Hin|].
    cbn [JS.each]. destruct (f x s) as [s'|e] eqn:Hx; cbn [mbind outcome_bind].
    - apply IH. apply elem_of_cons in Hin as [<-|Hin]; [|done].
      by rewrite Hnull in Hx.
    - by rewrite (Hf x s e Hx). }
  split.
  - intros Hposts. rewrite generateContentPrompt_run. fold posts.
    assert (∃ e, generateContentPrompt_context posts
                   (stored_log env PROMPTS_FILE (files w)) = Throws e) as [e Hctx].
    { destruct Hposts as [->|(entries & -> & Hin)]; [by eexists|].
      unfold generateContentPrompt_context.
      assert (JS.length_gt_zero (VArr entries) = Returns true) as ->.
      { destruct entries; [by apply elem_of_nil in Hin|done]. }
      cbn [mbind outcome_bind JS.slice_neg JS.forEach].
      rewrite Heach; [by eexists|done|done|].
      intros entry c e0.
      destruct (JS.get entry "content") as [x|e1] eqn:Hget; cbn [mbind outcome_bind];
        [|intros [= <-]; by apply get_throws in Hget].
      destruct (JS.ToString x) as [text|e1] eqn:Htext; cbn [mbind outcome_bind]; [done|].
      intros [= <-]. by apply ToString_throws in Htext. }
    rewrite Hctx. by apply daily_context_throws in Hctx as ->.
  - intros Hposts. rewrite generateCustomContent_run. fold posts.
    assert (∃ e, generateCustomContent_context posts = Throws e) as [e Hctx].
    { destruct Hposts as [->|(entries & -> & Hin)]; [by eexists|].
      unfold generateCustomContent_context.
      assert (JS.length_gt_zero (VArr entries) = Returns true) as ->.
      { destruct entries; [by apply elem_of_nil in Hin|done]. }
      cbn [mbind outcome_bind JS.slice_neg JS.forEach].
      rewrite Heach; [by eexists|done|done|].
      intros post c e0.
      destruct (JS.get post "messageText") as [text|e3] eqn:Hget; cbn [mbind outcome_bind].
      - destruct (JS.ToBoolean text); [|done].
        destruct (JS.substring_to 100 text) as [head|e4] eqn:Hsub; cbn [mbind outcome_bind];
          [done|]. intros [= <-]. by apply substring_to_throws in Hsub.
      - intros [= <-]. by apply get_throws in Hget. }
    rewrite Hctx. by apply custom_context_throws in Hctx as ->.
Qed.

End generators.

Section tails.
Context `{Platform} (env : Env).

Lemma units_high_half s : units (high_half s) = 1.
Proof. reflexivity. Qed.

(** What [substring0_from] keeps of a text, read from the same point. *)
Lemma substring0_from_spec k n s :
  ∃ kept rest,
    s = kept +:+ rest ∧ units_from k s = units_from k kept + units rest
    ∧ ((substring0_from k n s = kept ∧ units_from k kept = min n (units_from k s))
       ∨ (units_from k kept + 1 = n ∧ (∃ c r, rest = String c r ∧ astral c = true)
          ∧ substring0_from k n s = kept +:+ high_half rest)).
Proof.
  revert k n. induction s as [|c r IH]; intros k n.
  - exists "", "". split; [done|]. split; [done|]. left. split; [by destruct k, n|].
    cbn. lia.
  - destruct k as [|k].
    + destruct n as [|n].
      * exists "", (String c r). split; [done|]. split; [reflexivity|]. left. split; reflexivity.
      * cbn [substring0_from units_from]. destruct (astral c) eqn:Hc.
        -- destruct n as [|n].
           ++ exists "", (String c r). split; [done|].
              split; [unfold units; cbn [units_from]; by rewrite Hc|]. right.
              split; [done|]. split; [by exists c, r|done].
           ++ destruct (IH (tail_bytes c) n) as (kept & rest & -> & Hu & Hcut).
              exists (String c kept), rest. split; [done|].
              cbn [units_from]. rewrite Hc. split; [lia|].
              destruct Hcut as [[-> Hk]|(Hk & Hrest & ->)]; [left|right].
              ** split; [done|]. lia.
              ** split; [lia|]. by split.
        -- destruct (IH (tail_bytes c) n) as (kept & rest & -> & Hu & Hcut).
           exists (String c kept), rest. split; [done|].
           cbn [units_from]. rewrite Hc. split; [lia|].
           destruct Hcut as [[-> Hk]|(Hk & Hrest & ->)]; [left|right].
           ** split; [done|]. lia.
           ** split; [lia|]. by split.
    + cbn [substring0_from units_from].
      destruct (IH k n) as (kept & rest & -> & Hu & Hcut).
      exists (String c kept), rest. split; [done|]. cbn [units_from]. split; [done|].
      destruct Hcut as [[-> Hk]|(Hk & Hrest & ->)]; [left|right]; by repeat split.
Qed.

Lemma substring0_first_units n s : first_units n s (substring0 n s).
Proof. apply (substring0_from_spec 0 n s). Qed.

Lemma substring0_from_short k n s : units_from k s ≤ n → substring0_from k n s = s.
Proof.
  revert k n. induction s as [|c r IH]; intros k n; [done|].
  destruct k as [|k]; cbn [substring0_from units_from].
  - destruct (astral c) eqn:Hc.
    + destruct n as [|[|n]]; [lia|lia|]. intros Hn. rewrite IH by lia. done.
    + destruct n as [|n]; [lia|]. intros Hn. by rewrite IH by lia.
  - intros Hn. by rewrite IH.
Qed.

Lemma forallb_drop {A} (f : A → bool) n l :
  forallb f l = true → forallb f (drop n l) = true.
Proof.
  revert l. induction n as [|n IH]; intros [|x l]; try done.
  cbn [forallb drop]. intros [_ Hl]%andb_prop. by apply IH.
Qed.

Lemma each_texted (entries : list (list (string * value))) context :
  forallb texted_or_not entries = true →
  JS.each
    (λ post context,
       messageText ← JS.get post "messageText";
       if JS.ToBoolean messageText then
         head ← JS.substring_to 100 messageText;
         Returns (context +:+ "- " +:+ head +:+ nl)
       else Returns context)
    (map VObj entries) context
  = Returns (context +:+ bullets (map (substring0 100) (omap post_text entries))).
Proof.
  revert context. induction entries as [|props entries IH]; intros context.
  - intros _. cbn. by rewrite append_nil_r.
  - cbn [forallb]. intros [Hp Hrest]%andb_prop.
    cbn [map JS.each JS.get mbind outcome_bind omap list_omap].
    unfold texted_or_not in Hp. unfold post_text.
    destruct (JS.lookup_prop "messageText" props) as [| |b|lit|s|elems|fields]; try done;
      cbn [JS.ToBoolean]; try by apply IH.
    destruct (String.eqb s ""); cbn [negb]; [by apply IH|].
    cbn [JS.substring_to mbind outcome_bind map bullets]. rewrite IH by done.
    by rewrite !append_assoc.
Qed.

Lemma first_units_lines texts :
  Forall2 (first_units 100) texts (map (substring0 100) texts).
Proof.
  induction texts as [|text texts IH]; constructor; [apply substring0_first_units|done].
Qed.

(** X12: the context of the custom generation is drawn from the last five
    entries of the posts log: it lists, in the order of the log, the first
    hundred code units of the text of those that have one, and passes
    over an entry whose [messageText] is missing, [null] or empty.  The
    header is there as soon as the log has an entry.  A text of a hundred
    code units or less is listed whole. *)
Theorem custom_context_skips_untexted (posts : list (list (string * value))) :
  forallb texted_or_not posts = true →
  ∃ lines,
    generateCustomContent_context (VArr (map VObj posts))
    = Returns
        (IDENTITY
         +:+ match posts with
             | [] => ""
             | _ => nl +:+ nl +:+ "Recent team posts:" +:+ nl +:+ bullets lines
             end)
    ∧ Forall2 (first_units 100) (omap post_text (slice_last 5 posts)) lines
    ∧ Forall2 (λ text line, units text ≤ 100 → line = text)
        (omap post_text (slice_last 5 posts)) lines.
Proof.
  intros Hall. exists (map (substring0 100) (omap post_text (slice_last 5 posts))).
  split; [|split].
  - unfold generateCustomContent_context.
    destruct posts as [|props posts]; [reflexivity|].
    cbn [map JS.length_gt_zero mbind outcome_bind JS.slice_neg JS.forEach].
    change (VObj props :: map VObj posts) with (map VObj (props :: posts)).
    rewrite slice_last_map, each_texted; [by rewrite !append_assoc|].
    by apply forallb_drop.
  - apply first_units_lines.
  - generalize (omap post_text (slice_last 5 posts)). intros texts.
    induction texts as [|text texts IH]; constructor; [|done].
    intros Hshort. by apply substring0_from_short.
Qed.

Lemma each_field_raises field (entries : list (list (string * value))) context :
  Exists (λ props, JS.ToString (JS.lookup_prop field props) = Throws TypeError) entries →
  ∃ e,
    JS.each
      (λ entry context,
         content ← JS.get entry field;
         content ← JS.ToString content;
         Returns (context +:+ "- " +:+ content +:+ nl))
      (map VObj entries) context
    = Throws e.
Proof.
  intros Hex. revert context. induction Hex as [props l Hp|props l _ IH]; intros context.
  - cbn [map JS.each JS.get mbind outcome_bind]. rewrite Hp. by eexists.
  - cbn [map JS.each JS.get mbind outcome_bind].
    destruct (JS.ToString (JS.lookup_prop field props)) as [text|e]; [|by eexists].
    cbn [mbind outcome_bind]. apply IH.
Qed.

(** X13: over logs that hold arrays of objects, [generateContentPrompt]
    asks for one completion when the [content] of every entry that it
    lists has a text, and the system message of it is the identity of the
    team, then the [content] of the last ten entries of the posts log and
    of the last five entries of the prompts log, each list under its
    header, in the order of the log, and left out with its header when the
    log is empty.  When the [content] of one of these entries has no
    text, an object with a property [toString] of its own, no completion
    is asked for and the result is the fallback. *)
Theorem scheduled_request_context (posts prompts : list (list (string * value))) w :
  stored_log env POSTS_FILE (files w) = VArr (map VObj posts) →
  stored_log env PROMPTS_FILE (files w) = VArr (map VObj prompts) →
  (∀ post_lines prompt_lines,
     Forall2 (shows "content") (slice_last 10 posts) post_lines →
     Forall2 (shows "content") (slice_last 5 prompts) prompt_lines →
     let context :=
       IDENTITY
       +:+ match posts with
           | [] => ""
           | _ => nl +:+ nl +:+ "Here are some recent successful posts from the team:"
                  +:+ nl +:+ bullets post_lines
           end
       +:+ match prompts with
           | [] => ""
           | _ => nl +:+ nl +:+ "Avoid repeating these recent prompts:" +:+ nl
                  +:+ bullets prompt_lines
           end in
     ∃ prompt w',
       generateContentPrompt env w = (Returns prompt, w')
       ∧ calls w' = calls w ++ [ChatCompletionsCreate (daily_chat_request context)])
  ∧ (Exists (λ props, JS.ToString (JS.lookup_prop "content" props) = Throws TypeError)
       (slice_last 10 posts ++ slice_last 5 prompts) →
     generateContentPrompt env w
     = (Returns daily_fallback, log_error "Error generating prompt:" TypeError w)).
Proof.
  intros Hposts Hprompts. split.
  - intros post_lines prompt_lines Hpl Hql context.
    rewrite generateContentPrompt_run, Hposts, Hprompts.
    rewrite (scheduled_context_tails posts prompts post_lines prompt_lines) by done.
    fold context. cbv zeta.
    destruct (chat_completions_create env (daily_chat_request context) ≫= first_choice);
      by eexists _, _.
  - intros Hex. rewrite generateContentPrompt_run, Hposts, Hprompts.
    assert (∃ e, generateContentPrompt_context (VArr (map VObj posts))
                   (VArr (map VObj prompts)) = Throws e) as [e Hctx].
    { unfold generateContentPrompt_context.
      apply Exists_app in Hex as [Hex|Hex].
      - destruct posts as [|p posts]; [by apply Exists_nil in Hex|].
        cbn [map JS.length_gt_zero mbind outcome_bind JS.slice_neg JS.forEach].
        change (VObj p :: map VObj posts) with (map VObj (p :: posts)).
        rewrite (slice_last_map VObj 10).
        match goal with
        | |- context [JS.each _ _ ?context] =>
            destruct (each_field_raises "content" _ context Hex) as [e ->]
        end.
        by eexists.
      - destruct prompts as [|q prompts]; [by apply Exists_nil in Hex|].
        destruct (JS.length_gt_zero (VArr (map VObj posts))) as [some|e]; [|by eexists].
        cbn [mbind outcome_bind].
        match goal with |- context [mbind _ ?m] => destruct m as [context|e] end;
          [|by eexists].
        cbn [map JS.length_gt_zero mbind outcome_bind JS.slice_neg JS.forEach].
        change (VObj q :: map VObj prompts) with (map VObj (q :: prompts)).
        rewrite slice_last_map.
        match goal with
        | |- context [JS.each _ _ ?context] =>
            destruct (each_field_raises "content" _ context Hex) as [e ->]
        end.
        by eexists. }
    rewrite Hctx. by apply daily_context_throws in Hctx as ->.
Qed.

End tails.

(** *** The commands, whatever they are answered *)

Section commands.
Context `{Platform} (env : Env).

(** [postDailyPrompt] once the prompt is there, whatever Slack and the
    file system answer. *)
Lemma postDailyPrompt_run channelId prompt w w1 :
  generateContentPrompt env w = (Returns prompt, w1) →
  postDailyPrompt env channelId w =
  let posted :=
    record_call (PostMessage channelId (daily_text prompt) (daily_blocks prompt)) w1 in
  match chat_postMessage env channelId (daily_text prompt) (daily_blocks prompt) with
  | Throws e => (Returns None, log_error "Error posting daily prompt:" e posted)
  | Returns ts =>
      match stored_log env PROMPTS_FILE (files w1) with
      | VArr old =>
          (Returns (Some ts),
           (saveData env PROMPTS_FILE
              (VArr (old ++ [daily_record ts prompt (iso (clock env (ticks w1))) channelId]))
              (tick posted)).2)
      | VUndef | VNull =>
          (Returns None, log_error "Error posting daily prompt:" TypeError posted)
      | _ => (Returns None, log_error "Error posting daily prompt:" TypeError (tick posted))
      end
  end.
Proof.
  intros Hgen. unfold postDailyPrompt, try_catch, mbind at 1 2, M_bind. rewrite Hgen.
  unfold invoke, perform, mbind, M_bind. cbv zeta.
  destruct (chat_postMessage env channelId _ _) as [ts|e]; [|done].
  rewrite loadData_returns. cbn [files record_call].
  destruct (stored_log env PROMPTS_FILE (files w1)) as [| |b|lit|s|old|props]; try done.
  unfold lift, now. cbn [JS.member JS.push ticks record_call].
  match goal with |- context [saveData env ?f ?d ?w0] =>
    destruct (saveData_total env f d w0) as [w2 ->] end.
  done.
Qed.

Lemma generateContentPrompt_frame w :
  ∃ prompt w1 asked,
    generateContentPrompt env w = (Returns prompt, w1)
    ∧ files w1 = files w ∧ ticks w1 = ticks w ∧ calls w1 = calls w ++ asked
    ∧ Forall (λ c, is_generation c = true) asked.
Proof.
  rewrite generateContentPrompt_run.
  destruct (generateContentPrompt_context _ _) as [context|e].
  - cbv zeta. destruct (_ ≫= _); eexists _, _, [_]; (split; [reflexivity|]); cbn;
      repeat split; by repeat constructor.
  - eexists _, _, []. split; [reflexivity|]. cbn. rewrite app_nil_r. by repeat split.
Qed.

Lemma generateCustomContent_frame request w :
  ∃ result w1 asked,
    generateCustomContent env request w = (Returns result, w1)
    ∧ files w1 = files w ∧ ticks w1 = ticks w ∧ calls w1 = calls w ++ asked
    ∧ Forall (λ c, is_generation c = true) asked.
Proof.
  rewrite generateCustomContent_run.
  destruct (generateCustomContent_context _) as [context|e].
  - cbv zeta. destruct (_ ≫= _) as [text|e].
    + destruct (_ ≫= _); eexists _, _, [_; _]; (split; [reflexivity|]); cbn;
        rewrite <- app_assoc; repeat split; by repeat constructor.
    + eexists _, _, [_]. split; [reflexivity|]. cbn. repeat split; by repeat constructor.
  - eexists _, _, []. split; [reflexivity|]. cbn. rewrite app_nil_r. by repeat split.
Qed.

Lemma postDailyPrompt_frame channelId w :
  ∃ r w' asked,
    postDailyPrompt env channelId w = (Returns r, w')
    ∧ calls w' = calls w ++ asked
    ∧ Forall (λ c, is_response c = false) asked
    ∧ (∀ f, f ≠ PROMPTS_FILE → files w' !! f = files w !! f).
Proof.
  destruct (generateContentPrompt_frame w) as (prompt & w1 & asked & Hgen & Hf & _ & Hc & Hgs).
  assert (Hasked : Forall (λ c, is_response c = false) asked).
  { eapply Forall_impl; [exact Hgs|]. by intros []. }
  rewrite (postDailyPrompt_run channelId prompt w w1 Hgen). cbv zeta.
  set (post := PostMessage channelId (daily_text prompt) (daily_blocks prompt)).
  assert (Hposted : Forall (λ c, is_response c = false) (asked ++ [post])).
  { apply Forall_app. split; [done|]. by repeat constructor. }
  destruct (chat_postMessage env channelId _ _) as [ts|e].
  - destruct (stored_log env PROMPTS_FILE (files w1)) as [| |b|lit|s|old|props];
      try (eexists _, _, (asked ++ [post]); split; [reflexivity|];
           cbn [calls files log_error record_call tick]; rewrite Hc, Hf, <- app_assoc;
           by repeat split).
    match goal with |- context [saveData env ?f ?d ?w0] =>
      destruct (saveData_frame env f d w0) as (w2 & -> & Hc2 & _ & Hf2 & _) end.
    eexists _, _, (asked ++ [post]). split; [reflexivity|]. cbn [snd].
    rewrite Hc2. cbn [calls tick record_call]. rewrite Hc, <- app_assoc.
    split; [done|]. split; [done|]. intros f Hne. rewrite (Hf2 f Hne). cbn. by rewrite Hf.
  - eexists _, _, (asked ++ [post]). split; [reflexivity|].
    cbn [calls files log_error record_call]. rewrite Hc, Hf, <- app_assoc. by repeat split.
Qed.

(** X14: what can go wrong in [postDailyPrompt] once the prompt is there.
    When Slack rejects the post, nothing is saved and the result is
    [undefined].  When the prompts log holds JSON other than an array, the
    message is posted all the same, nothing is saved and the result is
    [undefined].  When the write is rejected, the result is the posted
    message as if the record had been saved.  Each failure is written to
    the console and none is raised. *)
Theorem postDailyPrompt_failures channelId prompt w w1 :
  generateContentPrompt env w = (Returns prompt, w1) →
  let post := PostMessage channelId (daily_text prompt) (daily_blocks prompt) in
  (∀ e, chat_postMessage env channelId (daily_text prompt) (daily_blocks prompt) = Throws e →
     postDailyPrompt env channelId w
     = (Returns None, log_error "Error posting daily prompt:" e (record_call post w1)))
  ∧ (∀ ts v,
       chat_postMessage env channelId (daily_text prompt) (daily_blocks prompt) = Returns ts →
       stored_log env PROMPTS_FILE (files w1) = v → (∀ l, v ≠ VArr l) →
       ∃ w', postDailyPrompt env channelId w = (Returns None, w')
             ∧ files w' = files w1
             ∧ calls w' = calls w1 ++ [post]
             ∧ console w' = console w1 ++ [("Error posting daily prompt:", TypeError)])
  ∧ (∀ ts old e,
       chat_postMessage env channelId (daily_text prompt) (daily_blocks prompt) = Returns ts →
       stored_log env PROMPTS_FILE (files w1) = VArr old →
       write_fails env PROMPTS_FILE = Some e →
       ∃ w', postDailyPrompt env channelId w = (Returns (Some ts), w')
             ∧ files w' = files w1
             ∧ calls w' = calls w1 ++ [post]
             ∧ console w' = console w1 ++ [("Error saving data:", e)]).
Proof.
  intros Hgen post. rewrite (postDailyPrompt_run channelId prompt w w1 Hgen). cbv zeta.
  fold post. split; [|split].
  - by intros e ->.
  - intros ts v -> <- Hv.
    destruct (stored_log env PROMPTS_FILE (files w1)) as [| |b|lit|s|old|props];
      try (by eexists); by destruct (Hv old).
  - intros ts old e -> -> Hw.
    destruct (stringify_array
                (old ++ [daily_record ts prompt (iso (clock env (ticks w1))) channelId]))
      as [text Ht].
    rewrite (saveData_rejected env _ _ text e) by done. by eexists.
Qed.

Lemma prompt_command_run command r w w1 :
  ack env = Returns () →
  postDailyPrompt env (cmd_channel_id command) (record_call Ack w) = (Returns r, w1) →
  app_command_linkedin_prompt env command w =
  let answered := record_call (Respond "Daily LinkedIn prompt posted! 🚀") w1 in
  match respond env "Daily LinkedIn prompt posted! 🚀" with
  | Returns _ => (Returns (), answered)
  | Throws _ =>
      (respond env "Error posting prompt. Please try again.",
       record_call (Respond "Error posting prompt. Please try again.") answered)
  end.
Proof.
  intros Hack Hpost.
  unfold app_command_linkedin_prompt, mbind at 1, M_bind, invoke at 1, perform.
  rewrite Hack. unfold try_catch, mbind, M_bind. rewrite Hpost.
  unfold invoke, perform. by destruct (respond env "Daily LinkedIn prompt posted! 🚀") as [[]|e].
Qed.

(** X15: the command [/linkedin-prompt].  A rejected acknowledgement is
    raised and nothing else is done.  Otherwise the command answers that
    the prompt was posted, whatever became of the prompt: a failure of
    the generation, of the post or of the save does not reach it.  The
    other answer is given only when Slack rejected the first one. *)
Theorem prompt_command_answers command w :
  (∀ e, ack env = Throws e →
     app_command_linkedin_prompt env command w = (Throws e, record_call Ack w))
  ∧ (ack env = Returns () →
     ∃ w' between,
       Forall (λ c, is_response c = false) between
       ∧ match respond env "Daily LinkedIn prompt posted! 🚀" with
         | Returns _ =>
             app_command_linkedin_prompt env command w = (Returns (), w')
             ∧ calls w' = calls w ++ [Ack] ++ between
                          ++ [Respond "Daily LinkedIn prompt posted! 🚀"]
         | Throws _ =>
             app_command_linkedin_prompt env command w
             = (respond env "Error posting prompt. Please try again.", w')
             ∧ calls w' = calls w ++ [Ack] ++ between
                          ++ [ Respond "Daily LinkedIn prompt posted! 🚀";
                               Respond "Error posting prompt. Please try again." ]
         end).
Proof.
  split.
  - intros e He. unfold app_command_linkedin_prompt, mbind, M_bind, invoke, perform.
    by rewrite He.
  - intros Hack.
    destruct (postDailyPrompt_frame (cmd_channel_id command) (record_call Ack w))
      as (r & w1 & asked & Hpost & Hc & Hasked & _).
    rewrite (prompt_command_run command r w w1) by done. cbv zeta.
    cbn [calls record_call] in Hc.
    destruct (respond env "Daily LinkedIn prompt posted! 🚀") as [[]|e];
      eexists _, asked; (split; [done|]); (split; [reflexivity|]);
      cbn [calls record_call]; rewrite Hc; by rewrite <- !app_assoc.
Qed.

(** The custom command once the content is there, whatever Slack and the
    file system answer. *)
Lemma custom_command_run command result w w1 :
  trim (cmd_text command) ≠ "" →
  ack env = Returns () → respond env LOADING = Returns () →
  generateCustomContent env (trim (cmd_text command))
    (record_call (Respond LOADING) (record_call Ack w)) = (Returns result, w1) →
  app_command_linkedin_machine env command w =
  let posted :=
    record_call (PostMessage (cmd_channel_id command) (custom_text result)
                   (custom_blocks result)) w1 in
  let sorry e w :=
    (respond env SORRY,
     record_call (Respond SORRY) (log_error "Error generating custom content:" e w)) in
  match chat_postMessage env (cmd_channel_id command) (custom_text result)
          (custom_blocks result) with
  | Throws e => sorry e posted
  | Returns _ =>
      match stored_log env PROMPTS_FILE (files w1) with
      | VArr old =>
          saveData env PROMPTS_FILE
            (VArr (old ++ [custom_record (epoch_ms (clock env (ticks w1)))
                             (trim (cmd_text command)) result
                             (iso (clock env (S (ticks w1)))) (cmd_channel_id command)]))
            (tick (tick posted))
      | VUndef | VNull => sorry TypeError posted
      | _ => sorry TypeError (tick (tick posted))
      end
  end.
Proof.
  intros Hreq Hack Hload Hgen.
  unfold app_command_linkedin_machine, mbind at 1, M_bind, invoke at 1, perform.
  rewrite Hack. unfold try_catch.
  apply String.eqb_neq in Hreq. rewrite Hreq.
  unfold mbind at 1, M_bind, invoke at 1, perform. rewrite Hload.
  unfold mbind at 1, M_bind. rewrite Hgen.
  unfold invoke, perform, mbind, M_bind, console_error. cbv zeta.
  destruct (chat_postMessage env (cmd_channel_id command) _ _) as [ts|e]; [|done].
  rewrite loadData_returns. cbn [files record_call].
  destruct (stored_log env PROMPTS_FILE (files w1)) as [| |b|lit|s|old|props]; try done.
  unfold lift, now. cbn [JS.member JS.push ticks record_call tick].
  match goal with |- context [saveData env ?f ?d ?w0] =>
    destruct (saveData_total env f d w0) as [w2 Hsave] end.
  by rewrite Hsave.
Qed.

(** X16: what can go wrong in the command [/linkedin-machine] on a request
    that is not empty.  When Slack rejects the notice that the content is
    being generated, no generation service is called.  When Slack rejects
    the post, nothing is saved.  In both cases the error is written to
    the console and the command answers that it had trouble.  When the
    write of the prompts log is rejected, the command returns as if the
    record had been saved, with the error of the write on the console. *)
Theorem custom_command_failures command w :
  trim (cmd_text command) ≠ "" → ack env = Returns () →
  (∀ e, respond env LOADING = Throws e →
     app_command_linkedin_machine env command w
     = (respond env SORRY,
        record_call (Respond SORRY)
          (log_error "Error generating custom content:" e
             (record_call (Respond LOADING) (record_call Ack w)))))
  ∧ (∀ result w1,
       respond env LOADING = Returns () →
       generateCustomContent env (trim (cmd_text command))
         (record_call (Respond LOADING) (record_call Ack w)) = (Returns result, w1) →
       let post :=
         PostMessage (cmd_channel_id command) (custom_text result) (custom_blocks result) in
       (∀ e, chat_postMessage env (cmd_channel_id command) (custom_text result)
               (custom_blocks result) = Throws e →
          app_command_linkedin_machine env command w
          = (respond env SORRY,
             record_call (Respond SORRY)
               (log_error "Error generating custom content:" e (record_call post w1))))
       ∧ (∀ ts old e,
            chat_postMessage env (cmd_channel_id command) (custom_text result)
              (custom_blocks result) = Returns ts →
            stored_log env PROMPTS_FILE (files w1) = VArr old →
            write_fails env PROMPTS_FILE = Some e →
            ∃ w', app_command_linkedin_machine env command w = (Returns (), w')
                  ∧ files w' = files w1
                  ∧ calls w' = calls w1 ++ [post]
                  ∧ console w' = console w1 ++ [("Error saving data:", e)])).
Proof.
  intros Hreq Hack. split.
  - intros e Hload.
    unfold app_command_linkedin_machine, mbind at 1, M_bind, invoke at 1, perform.
    rewrite Hack. unfold try_catch.
    apply String.eqb_neq in Hreq. rewrite Hreq.
    unfold mbind at 1, M_bind, invoke at 1, perform. by rewrite Hload.
  - intros result w1 Hload Hgen post.
    rewrite (custom_command_run command result w w1) by done. cbv zeta. fold post. split.
    + by intros e ->.
    + intros ts old e -> -> Hw.
      destruct (stringify_array
                  (old ++ [custom_record (epoch_ms (clock env (ticks w1)))
                             (trim (cmd_text command)) result
                             (iso (clock env (S (ticks w1)))) (cmd_channel_id command)]))
        as [text Ht].
      rewrite (saveData_rejected env _ _ text e) by done. by eexists.
Qed.

(** X17: the command [/linkedin-machine] when every step succeeds: the
    message posted shows the text, the image, the prompt of the image and
    the invitation to share, in this order, and the record added to the
    end of the prompts log holds, in this order, the time in milliseconds
    for an [id], the text for [content], the request without the white
    space around it, the [type] custom, the address of the image, the
    prompt of the image, the time of the save and the channel of the
    command. *)
Theorem custom_command_with_image command context text more url others ts old w :
  let request := trim (cmd_text command) in
  let prompt := generateCustomContent_imagePrompt request in
  let result := {| textContent := text; imageUrl := VStr url; imagePrompt := prompt |} in
  request ≠ "" → url ≠ "" →
  ack env = Returns () → respond env LOADING = Returns () →
  generateCustomContent_context (stored_log env POSTS_FILE (files w)) = Returns context →
  chat_completions_create env (custom_chat_request context request) = Returns (text :: more) →
  images_generate env (dalle_request prompt) = Returns (Some url :: others) →
  chat_postMessage env (cmd_channel_id command) (custom_text result) (custom_blocks result)
  = Returns ts →
  read_fails env PROMPTS_FILE = None → write_fails env PROMPTS_FILE = None →
  stored_log env PROMPTS_FILE (files w) = VArr old → forallb json_value old = true →
  ∃ w',
    app_command_linkedin_machine env command w = (Returns (), w')
    ∧ calls_since w w'
      = [ Ack; Respond LOADING;
          ChatCompletionsCreate (custom_chat_request context request);
          ImagesGenerate (dalle_request prompt);
          PostMessage (cmd_channel_id command)
            ("🎯 **Custom LinkedIn Content**" +:+ nl +:+ nl +:+ text)
            [ SectionBlock ("🎯 *Custom LinkedIn Content*" +:+ nl +:+ nl +:+ text);
              ImageBlock (VStr url) "Generated LinkedIn post graphic";
              ContextBlock ("✨ *Generated image prompt:* " +:+ prompt);
              ContextBlock
                "_Once you create this post, share the LinkedIn URL here so the team can engage! 💪_" ] ]
    ∧ stored_log env PROMPTS_FILE (files w')
      = VArr (old ++ [VObj [ ("id", VStr (epoch_ms (clock env (ticks w))));
                             ("content", VStr text);
                             ("request", VStr request);
                             ("type", VStr "custom");
                             ("imageUrl", VStr url);
                             ("imagePrompt", VStr prompt);
                             ("timestamp", VStr (iso (clock env (S (ticks w)))));
                             ("channel", VStr (cmd_channel_id command)) ]])
    ∧ console w' = console w.
Proof.
  intros request prompt result Hreq Hurl Hack Hload Hctx Hchat Himg Hpost Hread Hwrite
    Hlog Hold.
  assert (Hgen : generateCustomContent env request
                   (record_call (Respond LOADING) (record_call Ack w))
                 = (Returns result,
                    record_call (ImagesGenerate (dalle_request prompt))
                      (record_call (ChatCompletionsCreate (custom_chat_request context request))
                         (record_call (Respond LOADING) (record_call Ack w))))).
  { rewrite generateCustomContent_run. cbn [files record_call]. rewrite Hctx. cbv zeta.
    rewrite Hchat. cbn [mbind outcome_bind first_choice]. fold prompt. by rewrite Himg. }
  destruct (custom_command_logs env command result ts old w _ Hreq Hack Hload Hgen)
    as (w' & Hrun & Hafter & Hcalls & Hconsole); try done.
  exists w'. split; [done|]. split; [|split; [done|done]].
  apply calls_since_app. rewrite Hcalls. cbn [calls record_call]. rewrite <- !app_assoc.
  do 2 f_equal. cbn [app]. do 4 f_equal.
  unfold custom_blocks, result. cbn [imageUrl JS.ToBoolean textContent imagePrompt].
  apply String.eqb_neq in Hurl. by rewrite Hurl.
Qed.

(** X18: the two commands change no file but the prompts log, whatever
    Slack, OpenAI and the file system answer. *)
Theorem commands_keep_to_the_prompts_log command w f :
  f ≠ PROMPTS_FILE →
  files (app_command_linkedin_prompt env command w).2 !! f = files w !! f
  ∧ files (app_command_linkedin_machine env command w).2 !! f = files w !! f.
Proof.
  intros Hf. split.
  - unfold app_command_linkedin_prompt, mbind at 1, M_bind, invoke at 1, perform.
    destruct (ack env) as [[]|e]; [|done].
    unfold try_catch, mbind, M_bind.
    destruct (postDailyPrompt_frame (cmd_channel_id command) (record_call Ack w))
      as (r & w1 & asked & -> & _ & _ & Hfiles).
    unfold invoke, perform.
    destruct (respond env _) as [[]|e]; cbn; by rewrite Hfiles.
  - destruct (ack env) as [[]|e0] eqn:Hack;
      [|by unfold app_command_linkedin_machine, mbind, M_bind, invoke, perform; rewrite Hack].
    destruct (String.eqb_spec (trim (cmd_text command)) "") as [Hreq|Hreq].
    { unfold app_command_linkedin_machine, mbind at 1, M_bind, invoke at 1, perform.
      rewrite Hack. unfold try_catch. rewrite Hreq. cbn [String.eqb].
      unfold invoke, perform, mbind, M_bind, console_error.
      by destruct (respond env USAGE_HINT) as [[]|e]; [|destruct (respond env SORRY)]. }
    destruct (respond env LOADING) as [[]|e1] eqn:Hload.
    + destruct (generateCustomContent_frame (trim (cmd_text command))
                  (record_call (Respond LOADING) (record_call Ack w)))
        as (result & w1 & asked & Hgen & Hfiles & _).
      rewrite (custom_command_run command result w w1) by done. cbv zeta.
      destruct (chat_postMessage env _ _ _) as [ts|e]; [|by cbn; rewrite Hfiles].
      destruct (stored_log env PROMPTS_FILE (files w1)) as [| |b|lit|s|old|props];
        try (by cbn; rewrite Hfiles).
      match goal with |- context [saveData env ?f ?d ?w0] =>
        destruct (saveData_frame env f d w0) as (w2 & -> & _ & _ & Hf2 & _) end.
      cbn [snd]. rewrite (Hf2 f Hf). cbn. by rewrite Hfiles.
    + unfold app_command_linkedin_machine, mbind at 1, M_bind, invoke at 1, perform.
      rewrite Hack. unfold try_catch.
      apply String.eqb_neq in Hreq. rewrite Hreq.
      unfold mbind at 1, M_bind, invoke at 1, perform. by rewrite Hload.
Qed.

End commands.

(** *** From one handler to the next *)

Section pipelines.
Context `{Platform} (env : Env).

(** X19: the command [/linkedin-prompt] when every step succeeds: one
    completion is asked for, its first choice is posted under the title
    of the day with the invitation to share, the record of it is added to
    the end of the prompts log, holding in this order the [ts] of the
    posted message for an [id], the prompt for [content], the time of the
    save and the channel of the command, and the command answers that the
    prompt was posted. *)
Theorem prompt_command_posts_and_logs command context prompt more ts old w :
  ack env = Returns () → respond env "Daily LinkedIn prompt posted! 🚀" = Returns () →
  generateContentPrompt_context (stored_log env POSTS_FILE (files w))
    (stored_log env PROMPTS_FILE (files w)) = Returns context →
  chat_completions_create env (daily_chat_request context) = Returns (prompt :: more) →
  chat_postMessage env (cmd_channel_id command) (daily_text prompt) (daily_blocks prompt)
  = Returns ts →
  read_fails env PROMPTS_FILE = None → write_fails env PROMPTS_FILE = None →
  stored_log env PROMPTS_FILE (files w) = VArr old → forallb json_value old = true →
  ∃ w',
    app_command_linkedin_prompt env command w = (Returns (), w')
    ∧ calls_since w w'
      = [ Ack;
          ChatCompletionsCreate (daily_chat_request context);
          PostMessage (cmd_channel_id command)
            ("🚀 **Daily LinkedIn Content Idea**" +:+ nl +:+ nl +:+ prompt +:+ nl +:+ nl
             +:+ "_Once you post, share your LinkedIn URL in this thread so the team can engage! 💪_")
            [ SectionBlock ("🚀 *Daily LinkedIn Content Idea*" +:+ nl +:+ nl +:+ prompt);
              ContextBlock
                "_Once you post, share your LinkedIn URL in this thread so the team can engage! 💪_" ];
          Respond "Daily LinkedIn prompt posted! 🚀" ]
    ∧ stored_log env PROMPTS_FILE (files w')
      = VArr (old ++ [VObj [ ("id", VStr ts);
                             ("content", VStr prompt);
                             ("timestamp", VStr (iso (clock env (ticks w))));
                             ("channel", VStr (cmd_channel_id command)) ]])
    ∧ console w' = console w.
Proof.
  intros Hack Hrespond Hctx Hchat Hpost Hread Hwrite Hlog Hold.
  assert (Hgen : generateContentPrompt env (record_call Ack w)
                 = (Returns prompt,
                    record_call (ChatCompletionsCreate (daily_chat_request context))
                      (record_call Ack w))).
  { rewrite generateContentPrompt_run. cbn [files record_call]. rewrite Hctx. cbv zeta.
    by rewrite Hchat. }
  destruct (postDailyPrompt_logs env (cmd_channel_id command) prompt ts old _ _ Hgen)
    as (w1 & Hrun & Hafter & Hcalls & Hconsole); try done.
  rewrite (prompt_command_run env command (Some ts) w w1) by done. cbv zeta.
  rewrite Hrespond. eexists. split; [reflexivity|]. cbn [files console record_call].
  split; [|by split].
  apply calls_since_app. cbn [calls record_call]. rewrite Hcalls. cbn [calls record_call].
  by rewrite <- !app_assoc.
Qed.

Lemma heard_records message text urls t :
  msg_text message = Some text → text ≠ "" →
  ∃ news,
    map stored (post_records env message urls t) = map VObj news
    ∧ length news = length urls
    ∧ Forall (λ props, post_text props = Some text) news
    ∧ forallb texted_or_not news = true.
Proof.
  intros Htext Hne%String.eqb_neq. revert t.
  induction urls as [|url rest IH]; intros t; [by exists []|].
  destruct (IH (S t)) as (news & Hmap & Hlen & Hall & Htexted).
  cbn [post_records map]. rewrite Hmap. unfold post_record. rewrite Htext.
  destruct (msg_user message) as [user|]; eexists (_ :: news);
    (split; [reflexivity|]); cbn [length forallb]; rewrite Hlen, Htexted;
    (split; [done|]); (split; [|done]); constructor; try done;
    unfold post_text; cbn; by rewrite Hne.
Qed.

(** X20: what the listener records, the custom generation reads: after a
    message with links was heard, the context of the next custom
    generation is drawn from the last five entries of the log with the
    records of that message at its end, and each of these shows the first
    hundred code units of the text of the message, the whole text when it
    has a hundred code units or less. *)
Theorem heard_posts_feed_custom_context message text url rest
    (old : list (list (string * value))) w :
  msg_text message = Some text →
  linkedinUrlRegex_scan 0 text = url :: rest →
  reactions_add env (msg_channel message) (msg_ts message) "link" = Returns () →
  read_fails env POSTS_FILE = None → write_fails env POSTS_FILE = None →
  stored_log env POSTS_FILE (files w) = VArr (map VObj old) →
  forallb json_value (map VObj old) = true → forallb texted_or_not old = true →
  ∃ w' news lines,
    app_message env message w = (Returns (), w')
    ∧ length news = S (length rest)
    ∧ Forall (λ props, post_text props = Some text) news
    ∧ generateCustomContent_context (stored_log env POSTS_FILE (files w'))
      = Returns
          (IDENTITY +:+ nl +:+ nl +:+ "Recent team posts:" +:+ nl +:+ bullets lines)
    ∧ Forall2 (first_units 100) (omap post_text (slice_last 5 (old ++ news))) lines
    ∧ Forall2 (λ text line, units text ≤ 100 → line = text)
        (omap post_text (slice_last 5 (old ++ news))) lines.
Proof.
  intros Htext Hscan Hreact Hread Hwrite Hlog Hold Htexted.
  assert (Hne : text ≠ "") by (intros ->; done).
  destruct (heard_records message text (url :: rest) (ticks w) Htext Hne)
    as (news & Hmap & Hlen & Hall & Hnews).
  destruct (listener_saves env message text url rest (map VObj old) w)
    as (posts_text & Hrun & Hafter); try done.
  rewrite Hmap, <- map_app in Hafter.
  assert (Hctx : generateCustomContent_context (VArr (map VObj (old ++ news)))
                 = Returns
                     (IDENTITY +:+ nl +:+ nl +:+ "Recent team posts:" +:+ nl
                      +:+ bullets (map (substring0 100)
                                     (omap post_text (slice_last 5 (old ++ news)))))).
  { unfold generateCustomContent_context.
    assert (JS.length_gt_zero (VArr (map VObj (old ++ news))) = Returns true) as ->.
    { destruct news; [done|]. by destruct old. }
    cbn [mbind outcome_bind JS.slice_neg JS.forEach].
    rewrite slice_last_map, each_texted; [by rewrite !append_assoc|].
    apply forallb_drop. by rewrite forallb_app, Htexted, Hnews. }
  assert (Hshort : Forall2 (λ text line, units text ≤ 100 → line = text)
                     (omap post_text (slice_last 5 (old ++ news)))
                     (map (substring0 100) (omap post_text (slice_last 5 (old ++ news))))).
  { generalize (omap post_text (slice_last 5 (old ++ news))). intros texts.
    induction texts as [|t texts IH]; constructor; [|done].
    intros Ht. by apply substring0_from_short. }
  unfold try_catch, invoke, perform in Hrun.
  destruct (say env _ _) as [[]|e];
    eexists _, news, (map (substring0 100) (omap post_text (slice_last 5 (old ++ news))));
    (split; [exact Hrun|]); (split; [done|]); (split; [done|]);
    cbn [files record_call log_error console_error]; rewrite Hafter;
    (split; [exact Hctx|]); (split; [apply first_units_lines|exact Hshort]).
Qed.

End pipelines.

Section loops.
Context `{Platform} (env : Env).

Lemma bullets_snoc entries entry :
  bullets (entries ++ [entry]) = bullets entries +:+ "- " +:+ entry +:+ nl.
Proof.
  induction entries as [|e l IH]; cbn [app bullets]; [by rewrite append_nil_r|].
  by rewrite IH, !append_assoc.
Qed.

Lemma slice_last_snoc {A} n (l : list A) x :
  slice_last (S n) (l ++ [x]) = slice_last n l ++ [x].
Proof.
  unfold slice_last. rewrite length_app. cbn [length].
  replace (length l + 1 - S n) with (length l - n) by lia.
  rewrite drop_app_le by lia. done.
Qed.

(** X21: what [postDailyPrompt] saves, the next daily generation reads: after
    a prompt was posted and saved, and when the [content] of every entry
    listed has a text, the context of the next [generateContentPrompt] is
    the identity of the team, the last ten entries of the posts log under
    their header, and, under the header of the prompts to avoid, the last
    four prompts that the log held before, then the line of the prompt
    just posted. *)
Theorem posted_prompt_feeds_next_context channelId prompt ts
    (posts olds : list (list (string * value))) (post_lines old_lines : list string) w w1 :
  generateContentPrompt env w = (Returns prompt, w1) →
  chat_postMessage env channelId (daily_text prompt) (daily_blocks prompt) = Returns ts →
  read_fails env PROMPTS_FILE = None → write_fails env PROMPTS_FILE = None →
  stored_log env POSTS_FILE (files w1) = VArr (map VObj posts) →
  stored_log env PROMPTS_FILE (files w1) = VArr (map VObj olds) →
  forallb json_value (map VObj olds) = true →
  Forall2 (shows "content") (slice_last 10 posts) post_lines →
  Forall2 (shows "content") (slice_last 4 olds) old_lines →
  ∃ w',
    postDailyPrompt env channelId w = (Returns (Some ts), w')
    ∧ generateContentPrompt_context (stored_log env POSTS_FILE (files w'))
        (stored_log env PROMPTS_FILE (files w'))
      = Returns (IDENTITY
                 +:+ match posts with
                     | [] => ""
                     | _ => nl +:+ nl
                            +:+ "Here are some recent successful posts from the team:" +:+ nl
                            +:+ bullets post_lines
                     end
                 +:+ nl +:+ nl +:+ "Avoid repeating these recent prompts:" +:+ nl
                 +:+ bullets old_lines +:+ "- " +:+ prompt +:+ nl).
Proof.
  intros Hgen Hpost Hread Hwrite Hposts Hlog Hold Hpl Hol.
  set (record := daily_record ts prompt (iso (clock env (ticks w1))) channelId).
  destruct (stringify_array (map VObj olds ++ [record])) as [text Ht].
  assert (Hrun : postDailyPrompt env channelId w
                 = (Returns (Some ts),
                    set_files <[PROMPTS_FILE := text]>
                      (tick (record_call
                               (PostMessage channelId (daily_text prompt) (daily_blocks prompt))
                               w1)))).
  { rewrite (postDailyPrompt_run env channelId prompt w w1 Hgen). cbv zeta.
    rewrite Hpost, Hlog. fold record. by rewrite (saveData_written env _ _ text). }
  eexists. split; [exact Hrun|]. cbn [files set_files tick record_call].
  assert (stored_log env POSTS_FILE (<[PROMPTS_FILE := text]> (files w1))
          = VArr (map VObj posts)) as ->.
  { rewrite <- Hposts. unfold stored_log. by rewrite lookup_insert_ne. }
  rewrite (stored_log_appended env _ (map VObj olds) record text) by done.
  change (map VObj olds ++ [record])
    with (map VObj olds
          ++ map VObj [[ ("id", VStr ts); ("content", VStr prompt);
                         ("timestamp", VStr (iso (clock env (ticks w1))));
                         ("channel", VStr channelId) ]]).
  rewrite <- map_app.
  rewrite (scheduled_context_tails posts _ post_lines (old_lines ++ [prompt])); [|done|].
  - destruct (olds ++ [_]) as [|p l] eqn:Hl; [by destruct olds|].
    by rewrite bullets_snoc, ?append_assoc.
  - rewrite (slice_last_snoc 4). apply Forall2_app; [done|]. by constructor.
Qed.

(** X22: the command [/linkedin-machine] when the content comes without an
    image, because the image failed or because the content is the
    fallback: the message posted shows the text, then the note that the
    image generation failed, then the invitation to share, and the record
    added to the prompts log holds [null] for the image. *)
Theorem custom_command_without_image command result ts old w w1 :
  let request := trim (cmd_text command) in
  request ≠ "" → ack env = Returns () → respond env LOADING = Returns () →
  generateCustomContent env request (record_call (Respond LOADING) (record_call Ack w))
  = (Returns result, w1) →
  imageUrl result = VNull →
  chat_postMessage env (cmd_channel_id command) (custom_text result) (custom_blocks result)
  = Returns ts →
  read_fails env PROMPTS_FILE = None → write_fails env PROMPTS_FILE = None →
  stored_log env PROMPTS_FILE (files w1) = VArr old → forallb json_value old = true →
  ∃ w' record,
    app_command_linkedin_machine env command w = (Returns (), w')
    ∧ calls w'
      = calls w1
        ++ [PostMessage (cmd_channel_id command)
              ("🎯 **Custom LinkedIn Content**" +:+ nl +:+ nl +:+ textContent result)
              [ SectionBlock ("🎯 *Custom LinkedIn Content*" +:+ nl +:+ nl
                              +:+ textContent result);
                ContextBlock
                  "💡 *Image generation failed, but you can manually create a graphic using the description above*";
                ContextBlock
                  "_Once you create this post, share the LinkedIn URL here so the team can engage! 💪_" ]]
    ∧ stored_log env PROMPTS_FILE (files w') = VArr (old ++ [record])
    ∧ JS.get record "content" = Returns (VStr (textContent result))
    ∧ JS.get record "request" = Returns (VStr request)
    ∧ JS.get record "imageUrl" = Returns VNull
    ∧ imageUrl custom_fallback = VNull.
Proof.
  intros request Hreq Hack Hload Hgen Himg Hpost Hread Hwrite Hlog Hold.
  destruct (custom_command_logs env command result ts old w w1)
    as (w' & Hrun & Hafter & Hcalls & _); try done; [by rewrite Himg|].
  eexists w', _. split; [exact Hrun|]. split; [|split; [exact Hafter|]].
  - rewrite Hcalls. unfold custom_blocks, custom_text. by rewrite Himg.
  - cbn. by rewrite Himg.
Qed.

End loops.

(** *** Saves and loads, one after the other *)

Section store.
Context `{Platform} (env : Env).


(** X24: a record of strings, [null]s, booleans and absent fields reads the
    same after a save and a load: every property of the record loaded has
    the value it had in the record saved, an absent one included. *)
Theorem fields_survive_the_log filename (records : list (list (string * value))) w :
  write_fails env filename = None → read_fails env filename = None →
  forallb storable (map VObj records) = true → forallb flat records = true →
  ∃ w' loaded,
    saveData env filename (VArr (map VObj records)) w = (Returns (), w')
    ∧ loadData env filename w' = (Returns (VArr (map VObj loaded)), w')
    ∧ Forall2 (λ props back, ∀ k, JS.get (VObj back) k = JS.get (VObj props) k)
        records loaded.
Proof.
  intros Hw Hr Hs Hflat.
  destruct (stringify_array (map VObj records)) as [text Ht].
  exists (set_files <[filename := text]> w), (map (omap stored_prop) records).
  split; [by apply saveData_written|]. split.
  - rewrite loadData_returns. cbn [files set_files].
    rewrite (stored_log_written env filename (VArr (map VObj records)) text) by done.
    rewrite stored_arr.
    assert (map stored_elem (map VObj records) = map VObj (map (omap stored_prop) records))
      as ->; [|done].
    clear. induction records as [|props r IH]; [done|].
    cbn [map stored_elem]. by rewrite stored_obj, IH.
  - clear Ht. induction records as [|props r IH]; [constructor|].
    cbn [map forallb] in *. apply andb_prop in Hs as [Hp Hs], Hflat as [Hfp Hflat].
    constructor; [|by apply IH]. intros k. cbn [JS.get]. f_equal.
    cbn [storable] in Hp. apply andb_prop in Hp as [_ Hnd%bool_decide_eq_true].
    by rewrite get_stored, stored_flat.
Qed.

End store.

End AppFacts.

(** ** The start of the process *)

Module BootFacts.
Import Boot.

(** X25: the start of the process.  [ensureDataDir] never raises: a
    directory that cannot be made is written to the console and the start
    goes on.  The app is started once, on the port that [PORT] names when
    it is set and not empty, and else on 3000; the line that says so is
    written when the start succeeded, and a rejected start is raised. *)
Theorem main_starts_the_app host :
  let port := Boot.port host in
  ∃ made,
    ensureDataDir host = (made, Returns ())
    ∧ (made = [Mkdir DATA_DIR]
       ∨ ∃ e, mkdir host DATA_DIR = Throws e
              ∧ made = [Mkdir DATA_DIR; ConsoleError "Error creating data directory:" e])
    ∧ main host
      = match app_start host port with
        | Returns _ =>
            (made ++ [ AppStart port;
                       ConsoleLog ("⚡️ LinkedIn Machine is running on port "
                                   +:+ port_text port +:+ "!") ],
             Returns ())
        | Throws e => (made ++ [AppStart port], Throws e)
        end
    ∧ (PORT host = None ∨ PORT host = Some "" → port = VNum "3000")
    ∧ (∀ p, PORT host = Some p → p ≠ "" → port = VStr p ∧ port_text port = p).
Proof.
  intros port.
  assert (Hport : (PORT host = None ∨ PORT host = Some "" → port = VNum "3000")
                  ∧ (∀ p, PORT host = Some p → p ≠ "" → port = VStr p ∧ port_text port = p)).
  { subst port. unfold Boot.port. split.
    - by intros [->| ->].
    - intros p -> Hp%String.eqb_neq. by rewrite Hp. }
  unfold main, ensureDataDir, attempt, does, mbind, P_bind. fold port.
  destruct (mkdir host DATA_DIR) as [[]|e] eqn:Hmk.
  - exists [Mkdir DATA_DIR]. split; [done|]. split; [by left|]. split; [|done].
    by destruct (app_start host port) as [[]|e].
  - eexists. split; [done|]. split; [right; by exists e|]. split; [|done].
    by destruct (app_start host port) as [[]|e'].
Qed.

End BootFacts.

(** ** The script without images *)

Module TextOnlyFacts.
Import JSON TextFacts JSONFacts App AppFacts.

Section facts.
Context `{Platform} (env : Env).

Lemma text_only_run request w :
  TextOnly.generateCustomContent env request w =
  match generateCustomContent_context (stored_log env POSTS_FILE (files w)) with
  | Throws e => (Returns TextOnly.fallbackContent, log_error "OpenAI Error:" e w)
  | Returns context =>
      let chat := TextOnly.custom_chat_request context request in
      let asked := record_call (ChatCompletionsCreate chat) w in
      match chat_completions_create env chat ≫= first_choice with
      | Throws e => (Returns TextOnly.fallbackContent, log_error "OpenAI Error:" e asked)
      | Returns text => (Returns text, asked)
      end
  end.
Proof.
  unfold TextOnly.generateCustomContent, try_catch, mbind at 1 2 3, M_bind.
  rewrite !loadData_returns. unfold lift.
  destruct (generateCustomContent_context _) as [context|e]; [|done].
  unfold invoke, perform.
  destruct (chat_completions_create env (TextOnly.custom_chat_request context request))
    as [[|c cs]|e]; done.
Qed.

(** X26: the generator of the variant without images returns in every
    world and changes no file.  It asks for one completion at most, with
    the context that the variant with images builds; its result is the
    first choice of that completion, or else its own fixed fallback with
    the error on the console. *)
Theorem text_only_contract request w :
  ∃ content w' asked,
    TextOnly.generateCustomContent env request w = (Returns content, w')
    ∧ files w' = files w ∧ ticks w' = ticks w
    ∧ calls w' = calls w ++ asked
    ∧ ((∃ context more,
          generateCustomContent_context (stored_log env POSTS_FILE (files w))
          = Returns context
          ∧ asked = [ChatCompletionsCreate (TextOnly.custom_chat_request context request)]
          ∧ chat_completions_create env (TextOnly.custom_chat_request context request)
            = Returns (content :: more)
          ∧ console w' = console w)
       ∨ (content = TextOnly.fallbackContent
          ∧ (asked = [] ∨ ∃ chat, asked = [ChatCompletionsCreate chat])
          ∧ ∃ e, console w' = console w ++ [("OpenAI Error:", e)])).
Proof.
  rewrite text_only_run.
  destruct (generateCustomContent_context _) as [context|e] eqn:Hctx.
  - cbv zeta.
    destruct (chat_completions_create env (TextOnly.custom_chat_request context request))
      as [[|c cs]|e] eqn:Hchat; cbn [mbind outcome_bind first_choice].
    + eexists _, _, [_]. split; [reflexivity|]. cbn. repeat split. right.
      split; [done|]. split; [right; by eexists|by eexists].
    + eexists _, _, [_]. split; [reflexivity|]. cbn. repeat split. left. by eexists _, _.
    + eexists _, _, [_]. split; [reflexivity|]. cbn. repeat split. right.
      split; [done|]. split; [right; by eexists|by eexists].
  - eexists _, _, []. split; [reflexivity|]. cbn. rewrite app_nil_r. repeat split. right.
    split; [done|]. split; [by left|by eexists].
Qed.

(** X27: the command [/linkedin-machine] of the variant without images, on
    a request that is not empty, when Slack accepts the acknowledgement
    and the post and the prompts log is an array of JSON values in a file
    that can be read and written.  Whether the content that the
    generator returned was generated or is the fallback, it is posted
    under its title with the invitation to share, and a record is added
    to the end of the prompts log that holds, in this order, the time in
    milliseconds for an [id], the content, the request without the white
    space around it, the [type] custom, the time of the save and the
    channel of the command; the command sends no answer of its own. *)
Theorem text_only_command command ts old w :
  let request := trim (cmd_text command) in
  request ≠ "" → ack env = Returns () →
  (∀ text blocks, chat_postMessage env (cmd_channel_id command) text blocks = Returns ts) →
  read_fails env PROMPTS_FILE = None → write_fails env PROMPTS_FILE = None →
  stored_log env PROMPTS_FILE (files w) = VArr old → forallb json_value old = true →
  ∃ content w' asked,
    TextOnly.app_command_linkedin_machine env command w = (Returns (), w')
    ∧ calls w'
      = calls w ++ [Ack] ++ asked
        ++ [PostMessage (cmd_channel_id command)
              ("🎯 **Custom LinkedIn Content**" +:+ nl +:+ nl +:+ content)
              [ SectionBlock ("🎯 *Custom LinkedIn Content*" +:+ nl +:+ nl +:+ content);
                ContextBlock
                  "_Once you create this post, share the LinkedIn URL here so the team can engage! 💪_" ]]
    ∧ Forall (λ c, is_generation c = true) asked
    ∧ (∃ w1, TextOnly.generateCustomContent env request (record_call Ack w)
             = (Returns content, w1))
    ∧ stored_log env PROMPTS_FILE (files w')
      = VArr (old ++ [VObj [ ("id", VStr (epoch_ms (clock env (ticks w))));
                             ("content", VStr content);
                             ("request", VStr request);
                             ("type", VStr "custom");
                             ("timestamp", VStr (iso (clock env (S (ticks w)))));
                             ("channel", VStr (cmd_channel_id command)) ]]).
Proof.
  intros request Hreq Hack Hpost Hread Hwrite Hlog Hold.
  assert (Hgen : ∃ content w1 asked,
            TextOnly.generateCustomContent env request (record_call Ack w)
            = (Returns content, w1)
            ∧ files w1 = files w ∧ ticks w1 = ticks w
            ∧ calls w1 = calls w ++ [Ack] ++ asked
            ∧ Forall (λ c, is_generation c = true) asked).
  { rewrite text_only_run.
    destruct (generateCustomContent_context _) as [context|e].
    - cbv zeta. destruct (_ ≫= _); eexists _, _, [_]; (split; [reflexivity|]); cbn;
        rewrite <- app_assoc; repeat split; by repeat constructor.
    - eexists _, _, []. split; [reflexivity|]. cbn. by repeat split. }
  destruct Hgen as (content & w1 & asked & Hgen & Hfiles & Hticks & Hcalls & Hasked).
  set (record := TextOnly.custom_record (epoch_ms (clock env (ticks w))) content request
                   (iso (clock env (S (ticks w)))) (cmd_channel_id command)).
  destruct (stringify_array (old ++ [record])) as [text Ht].
  exists content. eexists. exists asked.
  unfold TextOnly.app_command_linkedin_machine, mbind at 1, M_bind, invoke at 1, perform.
  rewrite Hack. unfold try_catch. fold request.
  apply String.eqb_neq in Hreq. rewrite Hreq.
  unfold mbind at 1, M_bind. rewrite Hgen.
  unfold invoke, perform, mbind, M_bind. rewrite Hpost.
  rewrite loadData_returns. cbn [files record_call]. rewrite Hfiles, Hlog.
  unfold lift, now. cbn [JS.member JS.push ticks record_call tick]. rewrite Hticks.
  fold record. rewrite (saveData_written env _ _ text) by done.
  split; [reflexivity|]. cbn [files set_files tick record_call calls].
  split; [by rewrite Hcalls, <- !app_assoc|]. split; [done|]. split; [by eexists|].
  by apply stored_log_appended.
Qed.

End facts.

End TextOnlyFacts.

(** ** Runs on the sample inputs *)

Module Runs.
Import JSON App AppFacts Samples.

(** C1, as stated, fails: the two records of one message differ in more
    than their url when the clock advances between them. *)
Lemma two_links_two_timestamps :
  ∃ r1 r2,
    stored_log env_ok POSTS_FILE (files (app_message env_ok two_links fresh).2) = VArr [r1; r2]
    ∧ JS.get r1 "timestamp" = Returns (VStr "2024-05-01T09:00:00.000Z")
    ∧ JS.get r2 "timestamp" = Returns (VStr "2024-05-01T09:00:00.001Z")
    ∧ JS.get r1 "timestamp" ≠ JS.get r2 "timestamp".
Proof. eexists _, _. split; [vm_compute; reflexivity|]. by repeat split. Qed.

Lemma listener_effects_witness :
  app_message env_ok no_link fresh = (Returns (), fresh)
  ∧ ∃ w' new,
      app_message env_ok two_links fresh = (Returns (), w')
      ∧ stored_log env_ok POSTS_FILE (files w') = VArr ([] ++ new)
      ∧ length new = 2
      ∧ calls_since fresh w'
        = [ ReactionsAdd "C061EG9SL" "1714553999.000300" "link";
            Say ("Great post! 🎉 Team, show some love on this LinkedIn post: "
                 +:+ "https://linkedin.com/posts/ana-1") "1714553999.000300" ].
Proof.
  split.
  - apply (proj1 (listener_effects env_ok no_link fresh)). reflexivity.
  - destruct (proj2 (listener_effects env_ok two_links fresh)
                "mine https://linkedin.com/posts/ana-1 and hers https://www.linkedin.com/posts/bea-2"
                "https://linkedin.com/posts/ana-1" ["https://www.linkedin.com/posts/bea-2"] [])
      as (w' & new & Hrun & _ & Hlog & _ & Hlen & _ & _ & Hcalls & _);
      try reflexivity.
    exists w', new. repeat split; assumption.
Defined.

(** C9, as stated, fails: a failed save does not end the run; the reply is
    posted after it. *)
Lemma reply_follows_failed_save :
  let w' := (app_message env_read_only one_link fresh).2 in
  console w' = [("Error saving data:", disk_full)]
  ∧ files w' = files fresh
  ∧ calls w'
    = [ ReactionsAdd "C061EG9SL" "1714553999.000200" "link";
        Say "Great post! 🎉 Team, show some love on this LinkedIn post: https://linkedin.com/posts/abc123-xyz"
          "1714553999.000200" ].
Proof. by vm_compute. Qed.

Lemma listener_failures_witness :
  app_message env_no_reaction one_link fresh
  = (Returns (),
     log_error "Error handling LinkedIn URL:" timeout
       (record_call (ReactionsAdd "C061EG9SL" "1714553999.000200" "link") fresh))
  ∧ ∃ w', app_message env_no_reply one_link fresh = (Returns (), w')
          ∧ stored_log env_no_reply POSTS_FILE (files w')
            = VArr ([] ++ map stored
                            (post_records env_no_reply one_link
                               ["https://linkedin.com/posts/abc123-xyz"] 0))
          ∧ console w' = [] ++ [("Error handling LinkedIn URL:", timeout)].
Proof.
  split.
  - apply (proj1 (listener_failures env_no_reaction one_link
                    "check this out https://linkedin.com/posts/abc123-xyz"
                    "https://linkedin.com/posts/abc123-xyz" [] fresh eq_refl eq_refl)).
    reflexivity.
  - destruct (proj1 (proj2 (listener_failures env_no_reply one_link
                    "check this out https://linkedin.com/posts/abc123-xyz"
                    "https://linkedin.com/posts/abc123-xyz" [] fresh eq_refl eq_refl))
                timeout [])
      as (w' & Hrun & Hlog & Hconsole & _); try reflexivity.
    exists w'. repeat split; assumption.
Defined.

Lemma listener_ignores_missing_text_witness :
  msg_text no_text = None ∧ app_message env_ok no_text fresh = (Returns (), fresh).
Proof.
  split; [reflexivity|].
  apply (listener_ignores_missing_text env_ok no_text fresh). reflexivity.
Defined.

Lemma empty_request_rejected_witness :
  trim (cmd_text blank_command) = ""
  ∧ ∃ r w', app_command_linkedin_machine env_ok blank_command fresh = (r, w')
            ∧ files w' = files fresh
            ∧ Forall (λ c, is_generation c = false) (calls_since fresh w').
Proof.
  split; [reflexivity|].
  destruct (empty_request_rejected env_ok blank_command fresh eq_refl)
    as (r & w' & Hrun & Hfiles & Hcalls & _).
  exists r, w'. repeat split; assumption.
Defined.

Lemma save_then_load_witness :
  let heard := post_record "https://linkedin.com/posts/abc123-xyz" one_link
                 "2024-05-01T09:00:00.000Z" in
  let posted := post_record "https://linkedin.com/posts/bot-1" bot_link
                  "2024-05-01T09:00:00.001Z" in
  forallb storable [posted; heard] = true
  ∧ ∃ w',
      saveData env_ok POSTS_FILE (VArr [posted; heard]) fresh = (Returns (), w')
      ∧ loadData env_ok POSTS_FILE w'
        = (Returns
             (VArr [ VObj [ ("url", VStr "https://linkedin.com/posts/bot-1");
                            ("timestamp", VStr "2024-05-01T09:00:00.001Z");
                            ("channel", VStr "C061EG9SL");
                            ("messageText",
                             VStr "new post https://linkedin.com/posts/bot-1") ];
                     heard ]), w').
Proof.
  intros heard posted. split; [reflexivity|].
  destruct (save_then_load env_ok POSTS_FILE [posted; heard] fresh)
    as (w' & loaded & Hsave & Hload & Hlen & Hat & _); try reflexivity.
  exists w'. split; [exact Hsave|]. rewrite Hload.
  destruct (Hat 0 posted eq_refl) as (back0 & H0 & _ & Hflat).
  destruct (Hat 1 heard eq_refl) as (back1 & H1 & Hdefined & _).
  destruct (Hflat _ eq_refl eq_refl) as [-> _]. rewrite (Hdefined eq_refl) in H1.
  destruct loaded as [|l0 [|l1 [|l2 loaded]]]; try discriminate Hlen.
  injection H0 as ->. injection H1 as ->. reflexivity.
Defined.

(** C6, as stated, fails: the record that the listener builds for a
    message without a user holds [undefined] for [userId], and comes back
    without that field. *)
Lemma record_without_user_comes_back_shorter :
  let records := post_records env_ok bot_link ["https://linkedin.com/posts/bot-1"] 0 in
  ∃ w' loaded,
    saveData env_ok POSTS_FILE (VArr records) fresh = (Returns (), w')
    ∧ loadData env_ok POSTS_FILE w' = (Returns (VArr loaded), w')
    ∧ length loaded = length records
    ∧ loaded ≠ records.
Proof.
  eexists _, _. split; [vm_compute; reflexivity|]. split; [vm_compute; reflexivity|].
  split; [reflexivity|]. discriminate.
Qed.

Lemma log_store_degrades_silently_witness :
  loadData env_ok POSTS_FILE fresh = (Returns (VArr []), fresh)
  ∧ loadData env_unreadable POSTS_FILE heard_one = (Returns (VArr []), heard_one)
  ∧ loadData env_ok POSTS_FILE broken_json = (Returns (VArr []), broken_json)
  ∧ saveData env_read_only POSTS_FILE (VArr []) fresh
    = (Returns (), log_error "Error saving data:" disk_full fresh).
Proof.
  split; [|split; [|split]].
  - apply (proj1 (log_store_degrades_silently env_ok POSTS_FILE fresh)). reflexivity.
  - apply (proj1 (proj2 (log_store_degrades_silently env_unreadable POSTS_FILE heard_one))
             (Rejected "EACCES")).
    reflexivity.
  - apply (proj1 (proj2 (proj2 (log_store_degrades_silently env_ok POSTS_FILE broken_json)))
             "[{"); reflexivity.
  - apply (proj1 (proj2 (proj2 (proj2
             (log_store_degrades_silently env_read_only POSTS_FILE fresh))))
             (VArr []) "[]" disk_full); reflexivity.
Defined.

Lemma fallback_on_failing_backend_witness :
  (∀ chat, ∃ e, chat_completions_create env_no_completion chat = Throws e)
  ∧ (∃ w1, generateContentPrompt env_no_completion fresh = (Returns daily_fallback, w1))
  ∧ (∃ w1, generateCustomContent env_no_completion "iphone vs android users" fresh
           = (Returns custom_fallback, w1))
  ∧ (∃ w', postDailyPrompt env_no_completion "C061EG9SL" fresh
           = (Returns (Some "1714554000.000100"), w')
           ∧ stored_log env_no_completion PROMPTS_FILE (files w')
             = VArr [ VObj [ ("id", VStr "1714554000.000100");
                             ("content", VStr daily_fallback);
                             ("timestamp", VStr "2024-05-01T09:00:00.000Z");
                             ("channel", VStr "C061EG9SL") ] ])
  ∧ (∃ w', app_command_linkedin_machine env_no_completion phones_command fresh
           = (Returns (), w')
           ∧ stored_log env_no_completion PROMPTS_FILE (files w')
             = VArr [ VObj [ ("id", VStr "1714554000000");
                             ("content", VStr fallbackContent);
                             ("request", VStr "iphone vs android users");
                             ("type", VStr "custom");
                             ("imageUrl", VNull);
                             ("imagePrompt",
                              VStr "Professional iPhone vs Android comparison infographic");
                             ("timestamp", VStr "2024-05-01T09:00:00.001Z");
                             ("channel", VStr "C061EG9SL") ] ]).
Proof.
  assert (Hfail : ∀ chat, ∃ e, chat_completions_create env_no_completion chat = Throws e)
    by (intros chat; by exists timeout).
  destruct (fallback_on_failing_backend env_no_completion fresh Hfail)
    as (Hdaily & Hcustom & Hpost & Hcommand & _).
  split; [exact Hfail|]. split; [exact Hdaily|]. split; [apply Hcustom|]. split.
  - apply (Hpost "C061EG9SL" "1714554000.000100" []); reflexivity.
  - apply (Hcommand phones_command "1714554000.000100" []); try reflexivity.
    discriminate.
Defined.

Lemma image_failure_keeps_text_witness :
  ∃ w', generateCustomContent env_no_image "iphone vs android users" fresh
        = (Returns {| textContent := "Share one lesson from a customer call.";
                      imageUrl := VNull;
                      imagePrompt := IPHONE_ANDROID_PROMPT |}, w')
        ∧ console w' = [] ++ [("Image generation failed:", timeout)].
Proof.
  destruct (image_failure_keeps_text env_no_image "iphone vs android users" IDENTITY
              "Share one lesson from a customer call." timeout fresh)
    as (w' & Hrun & Hconsole & _); try reflexivity.
  exists w'. split; assumption.
Defined.

Lemma image_prompt_decision_table_witness :
  generateCustomContent_imagePrompt "Data on iPhone and ANDROID use"
  = "Professional infographic comparing iPhone vs Android messaging statistics, split-screen design with phone silhouettes, clean charts showing engagement rates, modern blue and white color scheme, business style"
  ∧ generateCustomContent_imagePrompt "A Comparison chart of plans"
    = "Professional business chart or infographic about SMS messaging and customer communication, clean design, corporate colors, data visualization"
  ∧ generateCustomContent_imagePrompt "Hiring news"
    = "Professional LinkedIn post graphic about Hiring news, business style infographic, clean design, corporate blue and white colors, modern layout".
Proof.
  split; [|split].
  - apply (proj1 (image_prompt_decision_table "Data on iPhone and ANDROID use")).
    split.
    + by exists "Data on ", "iPhone", " and ANDROID use".
    + by exists "Data on iPhone and ", "ANDROID", " use".
  - pose proof (image_prompt_decision_table "A Comparison chart of plans")
      as (_ & Hdata & _ & _ & Hcases & _).
    destruct Hcases as [[Hi _]|[[Hno Hd]|[(_ & Hnd & _)|(_ & Hnd & _)]]].
    + apply includes_lower_mentions in Hi; [|done]. by vm_compute in Hi.
    + by apply Hdata.
    + exfalso. apply Hnd. left. by exists "A Comparison ", "chart", " of plans".
    + exfalso. apply Hnd. left. by exists "A Comparison ", "chart", " of plans".
  - pose proof (image_prompt_decision_table "Hiring news")
      as (_ & _ & _ & Hgeneric & _).
    apply Hgeneric.
    + intros [Hi _]. apply includes_lower_mentions in Hi; [|done]. by vm_compute in Hi.
    + intros [Hw|[Hw|Hw]]; apply includes_lower_mentions in Hw; try done;
        by vm_compute in Hw.
    + intros Hw. apply includes_lower_mentions in Hw; [|done]. by vm_compute in Hw.
Defined.

(** The scenario of a message with one link: one record with that url, one
    reaction, one reply that names the url. *)
Lemma one_link_scenario :
  let w' := (app_message env_ok one_link fresh).2 in
  stored_log env_ok POSTS_FILE (files w')
  = VArr [ VObj [ ("url", VStr "https://linkedin.com/posts/abc123-xyz");
                  ("userId", VStr "U024BE7LH");
                  ("timestamp", VStr "2024-05-01T09:00:00.000Z");
                  ("channel", VStr "C061EG9SL");
                  ("messageText",
                   VStr "check this out https://linkedin.com/posts/abc123-xyz") ] ]
  ∧ calls w'
    = [ ReactionsAdd "C061EG9SL" "1714553999.000200" "link";
        Say "Great post! 🎉 Team, show some love on this LinkedIn post: https://linkedin.com/posts/abc123-xyz"
          "1714553999.000200" ].
Proof. by vm_compute. Qed.

(** The scenario of a custom command about phones with a failing backend:
    the fallback is posted, without an image. *)
Lemma phones_scenario :
  let w' := (app_command_linkedin_machine env_no_completion phones_command fresh).2 in
  ∃ blocks,
    calls w'
    = [ Ack; Respond LOADING;
        ChatCompletionsCreate (custom_chat_request IDENTITY "iphone vs android users");
        PostMessage "C061EG9SL"
          ("🎯 **Custom LinkedIn Content**" +:+ Text.nl +:+ Text.nl +:+ fallbackContent)
          blocks ]
    ∧ ∃ record, stored_log env_no_completion PROMPTS_FILE (files w') = VArr [record]
                ∧ JS.get record "content" = Returns (VStr fallbackContent)
                ∧ JS.get record "imageUrl" = Returns VNull.
Proof.
  eexists. split; [by vm_compute|].
  eexists. split; [by vm_compute|]. by split.
Qed.

(** C5, the failing input: after the listener heard one link, the scheduled
    context lists the word "undefined" where the text of the post should
    be. *)
Lemma scheduled_context_after_one_link :
  generateContentPrompt_context
    (stored_log env_ok POSTS_FILE (files heard_one))
    (stored_log env_ok PROMPTS_FILE (files heard_one))
  = Returns
      (IDENTITY +:+ nl +:+ nl +:+ "Here are some recent successful posts from the team:"
       +:+ nl +:+ "- undefined" +:+ nl)
  ∧ JS.get (stored (post_record "https://linkedin.com/posts/abc123-xyz" one_link
                      "2024-05-01T09:00:00.000Z")) "messageText"
    = Returns (VStr "check this out https://linkedin.com/posts/abc123-xyz").
Proof. split; by vm_compute. Qed.

(** *** Beyond the specified behaviour *)

Lemma listener_trigger_witness :
  (∃ w' more,
     app_message env_ok one_link fresh = (Returns (), w')
     ∧ calls w' = calls fresh ++ ReactionsAdd "C061EG9SL" "1714553999.000200" "link" :: more)
  ∧ app_message env_ok profile_link fresh = (Returns (), fresh).
Proof.
  split.
  - apply (proj1 (listener_trigger env_ok one_link
                    "check this out https://linkedin.com/posts/abc123-xyz" fresh eq_refl)).
    exists "check this out ", "", "a"%char, "bc123-xyz".
    split; [by right|]. split; reflexivity.
  - apply (proj2 (listener_trigger env_ok profile_link
                    "my profile: https://www.linkedin.com/in/ana" fresh eq_refl)).
    intros Hlink%match_iff_post_link. apply Hlink. reflexivity.
Defined.

Lemma corrupt_log_is_replaced_witness :
  ∃ w', app_message env_ok one_link broken_json = (Returns (), w')
        ∧ stored_log env_ok POSTS_FILE (files w')
          = VArr (map stored (post_records env_ok one_link
                                ["https://linkedin.com/posts/abc123-xyz"] 0))
        ∧ files w' !! POSTS_FILE ≠ Some "[{"
        ∧ console w' = [].
Proof.
  apply (corrupt_log_is_replaced env_ok one_link
           "check this out https://linkedin.com/posts/abc123-xyz"
           "https://linkedin.com/posts/abc123-xyz" [] "[{" broken_json); reflexivity.
Defined.

Lemma log_that_is_no_array_stops_listener_witness :
  ∃ w', app_message env_ok one_link object_log = (Returns (), w')
        ∧ files w' = files object_log
        ∧ calls_since object_log w' = [ReactionsAdd "C061EG9SL" "1714553999.000200" "link"]
        ∧ console w' = [] ++ [("Error handling LinkedIn URL:", TypeError)].
Proof.
  apply (log_that_is_no_array_stops_listener env_ok one_link
           "check this out https://linkedin.com/posts/abc123-xyz"
           "https://linkedin.com/posts/abc123-xyz" [] (VObj []) object_log);
    try reflexivity.
  discriminate.
Defined.

Lemma heard_twice_recorded_twice_witness :
  ∃ w1 w2,
    app_message env_ok one_link fresh = (Returns (), w1)
    ∧ app_message env_ok one_link w1 = (Returns (), w2)
    ∧ stored_log env_ok POSTS_FILE (files w2)
      = VArr ([] ++ map stored (post_records env_ok one_link
                                  ["https://linkedin.com/posts/abc123-xyz"] 0)
              ++ map stored (post_records env_ok one_link
                               ["https://linkedin.com/posts/abc123-xyz"] 1)).
Proof.
  apply (heard_twice_recorded_twice env_ok one_link
           "check this out https://linkedin.com/posts/abc123-xyz"
           "https://linkedin.com/posts/abc123-xyz" [] [] fresh); reflexivity.
Defined.

Lemma empty_choices_fallback_witness :
  (∃ w', generateContentPrompt env_no_choice fresh = (Returns daily_fallback, w')
         ∧ console w' = [] ++ [("Error generating prompt:", TypeError)])
  ∧ (∃ w', generateCustomContent env_no_choice "iphone vs android users" fresh
           = (Returns custom_fallback, w')
           ∧ console w' = [] ++ [("OpenAI Error:", TypeError)]
           ∧ Forall (λ c, ∀ image, c ≠ ImagesGenerate image) (calls_since fresh w')).
Proof.
  apply (empty_choices_fallback env_no_choice "iphone vs android users" fresh).
  reflexivity.
Defined.

Lemma null_in_posts_log_fallback_witness :
  generateContentPrompt env_ok null_log
  = (Returns daily_fallback, log_error "Error generating prompt:" TypeError null_log)
  ∧ generateCustomContent env_ok "iphone vs android users" null_log
    = (Returns custom_fallback, log_error "OpenAI Error:" TypeError null_log).
Proof.
  destruct (null_in_posts_log_fallback env_ok "iphone vs android users" null_log)
    as [Hdaily Hcustom].
  split; [apply Hdaily|apply Hcustom]; by left.
Defined.

Lemma custom_context_skips_untexted_witness :
  let posts := [ heard_record; [("messageText", VStr long_text)];
                 [("url", VStr "https://linkedin.com/posts/old")];
                 [("messageText", VNull)]; [("messageText", VStr "")];
                 [("messageText", VStr short_text)] ] in
  (∃ lines,
     generateCustomContent_context (VArr (map VObj posts))
     = Returns (IDENTITY +:+ nl +:+ nl +:+ "Recent team posts:" +:+ nl +:+ bullets lines)
     ∧ Forall2 (first_units 100) [long_text; short_text] lines
     ∧ Forall2 (λ text line, units text ≤ 100 → line = text) [long_text; short_text] lines)
  ∧ units long_text = 165 ∧ units short_text = 98
  ∧ generateCustomContent_context (VArr (map VObj posts))
    = Returns
        (IDENTITY +:+ nl +:+ nl +:+ "Recent team posts:" +:+ nl
         +:+ bullets
               [ "https://linkedin.com/posts/equipe-recit Très fière de notre équipe : le récit détaillé de notre dern";
                 short_text ]).
Proof.
  intros posts. split; [|split; [|split]].
  - apply (custom_context_skips_untexted posts). reflexivity.
  - reflexivity.
  - reflexivity.
  - vm_compute. reflexivity.
Defined.

Lemma scheduled_request_context_witness :
  (∃ prompt w',
     generateContentPrompt env_ok heard_one = (Returns prompt, w')
     ∧ calls w'
       = calls heard_one
         ++ [ChatCompletionsCreate
               (daily_chat_request
                  (IDENTITY +:+ nl +:+ nl
                   +:+ "Here are some recent successful posts from the team:" +:+ nl
                   +:+ bullets ["undefined"] +:+ ""))])
  ∧ generateContentPrompt env_ok unprintable_log
    = (Returns daily_fallback,
       log_error "Error generating prompt:" TypeError unprintable_log).
Proof.
  split.
  - apply (proj1 (scheduled_request_context env_ok [heard_record] [] heard_one
                    eq_refl eq_refl) ["undefined"] []).
    + constructor; [reflexivity|constructor].
    + constructor.
  - apply (proj2 (scheduled_request_context env_ok
                    [[("content", VObj [("toString", VStr "x")])]] [] unprintable_log
                    eq_refl eq_refl)).
    constructor. reflexivity.
Defined.

Lemma postDailyPrompt_failures_witness :
  postDailyPrompt env_no_post "C061EG9SL" fresh
  = (Returns None,
     log_error "Error posting daily prompt:" timeout
       (record_call
          (PostMessage "C061EG9SL" (daily_text "Share one lesson from a customer call.")
             (daily_blocks "Share one lesson from a customer call."))
          (record_call (ChatCompletionsCreate (daily_chat_request IDENTITY)) fresh))).
Proof.
  apply (proj1 (postDailyPrompt_failures env_no_post "C061EG9SL"
                  "Share one lesson from a customer call." fresh
                  (record_call (ChatCompletionsCreate (daily_chat_request IDENTITY)) fresh)
                  eq_refl)).
  reflexivity.
Defined.

Lemma prompt_command_answers_witness :
  ∃ w' between,
    Forall (λ c, is_response c = false) between
    ∧ app_command_linkedin_prompt env_no_post prompt_command fresh = (Returns (), w')
    ∧ calls w' = calls fresh ++ [Ack] ++ between
                 ++ [Respond "Daily LinkedIn prompt posted! 🚀"].
Proof.
  apply (proj2 (prompt_command_answers env_no_post prompt_command fresh)). reflexivity.
Defined.

Lemma custom_command_failures_witness :
  app_command_linkedin_machine env_no_response phones_command fresh
  = (Throws timeout,
     record_call (Respond SORRY)
       (log_error "Error generating custom content:" timeout
          (record_call (Respond LOADING) (record_call Ack fresh)))).
Proof.
  apply (proj1 (custom_command_failures env_no_response phones_command fresh
                  ltac:(discriminate) eq_refl) timeout).
  reflexivity.
Defined.

Lemma custom_command_with_image_witness :
  generateCustomContent_imagePrompt "iphone vs android users" = IPHONE_ANDROID_PROMPT
  ∧ ∃ w',
      app_command_linkedin_machine env_ok phones_command fresh = (Returns (), w')
      ∧ stored_log env_ok PROMPTS_FILE (files w')
        = VArr [ VObj [ ("id", VStr "1714554000000");
                        ("content", VStr "Share one lesson from a customer call.");
                        ("request", VStr "iphone vs android users");
                        ("type", VStr "custom");
                        ("imageUrl", VStr "https://images.example/1.png");
                        ("imagePrompt", VStr IPHONE_ANDROID_PROMPT);
                        ("timestamp", VStr "2024-05-01T09:00:00.001Z");
                        ("channel", VStr "C061EG9SL") ] ]
      ∧ console w' = [].
Proof.
  split; [reflexivity|].
  destruct (custom_command_with_image env_ok phones_command IDENTITY
              "Share one lesson from a customer call." []
              "https://images.example/1.png" [] "1714554000.000100" [] fresh)
    as (w' & Hrun & _ & Hlog & Hconsole); try reflexivity; try discriminate.
  exists w'. split; [exact Hrun|]. split; [exact Hlog|exact Hconsole].
Defined.

Lemma commands_keep_to_the_prompts_log_witness :
  files (app_command_linkedin_prompt env_ok prompt_command heard_one).2 !! POSTS_FILE
  = files heard_one !! POSTS_FILE
  ∧ files (app_command_linkedin_machine env_ok phones_command heard_one).2 !! POSTS_FILE
    = files heard_one !! POSTS_FILE.
Proof.
  split.
  - apply (commands_keep_to_the_prompts_log env_ok prompt_command heard_one POSTS_FILE).
    discriminate.
  - apply (commands_keep_to_the_prompts_log env_ok phones_command heard_one POSTS_FILE).
    discriminate.
Defined.


Lemma fields_survive_the_log_witness :
  let record := [ ("url", VStr "https://linkedin.com/posts/abc123-xyz");
                  ("userId", VUndef); ("messageText", VStr "see this") ] in
  ∃ w' back,
    saveData env_ok POSTS_FILE (VArr [VObj record]) fresh = (Returns (), w')
    ∧ loadData env_ok POSTS_FILE w' = (Returns (VArr [VObj back]), w')
    ∧ JS.get (VObj back) "userId" = Returns VUndef
    ∧ JS.get (VObj back) "messageText" = Returns (VStr "see this").
Proof.
  intros record.
  destruct (fields_survive_the_log env_ok POSTS_FILE [record] fresh)
    as (w' & loaded & Hsave & Hload & Hsame); try reflexivity.
  destruct loaded as [|back [|]]; try (by inversion Hsame).
  - exists w', back. split; [exact Hsave|]. split; [exact Hload|].
    apply Forall2_cons_1 in Hsame as [Hback _]. by rewrite !Hback.
  - apply Forall2_cons_1 in Hsame as [_ Hnil]. by inversion Hnil.
Defined.

Lemma text_only_command_witness :
  ∃ content w' asked,
    TextOnly.app_command_linkedin_machine env_no_completion phones_command fresh
    = (Returns (), w')
    ∧ Forall (λ c, is_generation c = true) asked
    ∧ (∃ w1, TextOnly.generateCustomContent env_no_completion "iphone vs android users"
               (record_call Ack fresh) = (Returns content, w1))
    ∧ stored_log env_no_completion PROMPTS_FILE (files w')
      = VArr [ VObj [ ("id", VStr "1714554000000");
                      ("content", VStr content);
                      ("request", VStr "iphone vs android users");
                      ("type", VStr "custom");
                      ("timestamp", VStr "2024-05-01T09:00:00.001Z");
                      ("channel", VStr "C061EG9SL") ] ].
Proof.
  destruct (TextOnlyFacts.text_only_command env_no_completion phones_command "1714554000.000100" [] fresh)
    as (content & w' & asked & Hrun & _ & Hasked & Hgen & Hlog);
    try reflexivity; try discriminate.
  by exists content, w', asked.
Defined.

Lemma prompt_command_posts_and_logs_witness :
  ∃ w',
    app_command_linkedin_prompt env_ok prompt_command fresh = (Returns (), w')
    ∧ stored_log env_ok PROMPTS_FILE (files w')
      = VArr [ VObj [ ("id", VStr "1714554000.000100");
                      ("content", VStr "Share one lesson from a customer call.");
                      ("timestamp", VStr "2024-05-01T09:00:00.000Z");
                      ("channel", VStr "C061EG9SL") ] ]
    ∧ console w' = [].
Proof.
  destruct (prompt_command_posts_and_logs env_ok prompt_command IDENTITY
              "Share one lesson from a customer call." [] "1714554000.000100" [] fresh)
    as (w' & Hrun & _ & Hlog & Hconsole); try reflexivity.
  by exists w'.
Defined.

Lemma heard_posts_feed_custom_context_witness :
  (∃ w' news lines,
     app_message env_ok long_post fresh = (Returns (), w')
     ∧ length news = 1
     ∧ generateCustomContent_context (stored_log env_ok POSTS_FILE (files w'))
       = Returns (IDENTITY +:+ nl +:+ nl +:+ "Recent team posts:" +:+ nl +:+ bullets lines)
     ∧ Forall2 (first_units 100) (omap post_text (slice_last 5 ([] ++ news))) lines)
  ∧ generateCustomContent_context
      (stored_log env_ok POSTS_FILE (files (app_message env_ok long_post fresh).2))
    = Returns
        (IDENTITY +:+ nl +:+ nl +:+ "Recent team posts:" +:+ nl
         +:+ bullets
               [ "https://linkedin.com/posts/equipe-recit Très fière de notre équipe : le récit détaillé de notre dern" ]).
Proof.
  split.
  - destruct (heard_posts_feed_custom_context env_ok long_post long_text
                "https://linkedin.com/posts/equipe-recit" [] [] fresh)
      as (w' & news & lines & Hrun & Hlen & _ & Hctx & Hcut & _); try reflexivity.
    by exists w', news, lines.
  - vm_compute. reflexivity.
Defined.

Lemma posted_prompt_feeds_next_context_witness :
  ∃ w',
    postDailyPrompt env_ok "C061EG9SL" heard_one = (Returns (Some "1714554000.000100"), w')
    ∧ generateContentPrompt_context (stored_log env_ok POSTS_FILE (files w'))
        (stored_log env_ok PROMPTS_FILE (files w'))
      = Returns (IDENTITY +:+ nl +:+ nl
                 +:+ "Here are some recent successful posts from the team:" +:+ nl
                 +:+ bullets ["undefined"]
                 +:+ nl +:+ nl +:+ "Avoid repeating these recent prompts:" +:+ nl
                 +:+ bullets [] +:+ "- " +:+ "Share one lesson from a customer call." +:+ nl).
Proof.
  apply (posted_prompt_feeds_next_context env_ok "C061EG9SL"
           "Share one lesson from a customer call." "1714554000.000100"
           [heard_record] [] ["undefined"] [] heard_one
           (generateContentPrompt env_ok heard_one).2); try reflexivity.
  - constructor; [reflexivity|constructor].
  - constructor.
Defined.

Lemma custom_command_without_image_witness :
  ∃ w' record,
    app_command_linkedin_machine env_no_image phones_command fresh = (Returns (), w')
    ∧ stored_log env_no_image PROMPTS_FILE (files w') = VArr ([] ++ [record])
    ∧ JS.get record "content" = Returns (VStr "Share one lesson from a customer call.")
    ∧ JS.get record "imageUrl" = Returns VNull.
Proof.
  destruct (custom_command_without_image env_no_image phones_command
              {| textContent := "Share one lesson from a customer call.";
                 imageUrl := VNull;
                 imagePrompt := generateCustomContent_imagePrompt "iphone vs android users" |}
              "1714554000.000100" [] fresh
              (generateCustomContent env_no_image "iphone vs android users"
                 (record_call (Respond LOADING) (record_call Ack fresh))).2)
    as (w' & record & Hrun & _ & Hlog & Hcontent & _ & Himage & _);
    try reflexivity; try discriminate.
  by exists w', record.
Defined.

(** The start on a host without a port and without room for the data
    directory: the app is started on 3000 all the same. *)
Lemma start_on_a_bare_host :
  Boot.main host_bare
  = ([ Boot.Mkdir "./data";
       Boot.ConsoleError "Error creating data directory:" disk_full;
       Boot.AppStart (VNum "3000");
       Boot.ConsoleLog "⚡️ LinkedIn Machine is running on port 3000!" ],
     Returns ())
  ∧ Boot.main host_ok
    = ([ Boot.Mkdir "./data"; Boot.AppStart (VStr "8080");
         Boot.ConsoleLog "⚡️ LinkedIn Machine is running on port 8080!" ],
       Returns ()).
Proof. by split. Qed.

End Runs.
